(** * py-vista-turbo-serial: codec, event taxonomy and state monitor

    A shallow embedding of [messages.py], [events.py], the [StateMonitor]
    class of [state_monitor.py] and the message store and notifier of
    [examples/pushover_example.py], followed by the properties of the
    specification that were checked against it and by further properties
    of the code.

    Conventions.
    - A Python [str] is a [string]: the protocol is ASCII and [ord] of a
      character is its code, [nat_of_ascii].  A one-character [str] (the
      result of indexing, or the loop variable of a [for] over a [str]) is
      an [ascii].  The strings of the model are thus the [str] objects
      whose characters have code points 0 to 255; every statement about a
      frame or its data is a statement about such a [str].  A [str] with a
      character beyond 255 is outside the model: [int] accepts other
      Unicode digits and spaces there, and [ord] is larger than 255.
    - A Python [int] is a [Z].
    - A [dict] with integer keys is a [gmap Z _], a [set] of [str] a
      [gset string].
    - Code that can raise returns a [result]; code of the monitor, which
      mutates [self] and writes to the logger, runs in the monad [M].
      Both use the monad notations [x ← e; k] and [e ;; k]. *)

From Stdlib Require Import ZArith List Ascii String Bool Lia DecimalString.
From stdpp Require Import gmap strings list fin_maps.

Open Scope Z_scope.

(** * Python builtins used by the sources *)

Module Py.

(** The exceptions the modelled code can raise.  The three last ones are
    the classes of [messages.py]; [InvalidMessageException] is only raised
    by [ArmingStatusReport] and carries the offending character and the
    data, which is what its message is built from. *)
Inductive exn : Type :=
| ValueError
| IndexError
| TypeError
| KeyError
| NotImplementedError (msg : string)
| InvalidMessageLengthException (expected_len actual_len : Z)
| MessageChecksumException (expected_crc actual_crc : string)
| InvalidMessageException (val : ascii) (data : string).

Inductive result (A : Type) : Type :=
| Ok (a : A)
| Raise (e : exn).
Arguments Ok {A} a.
Arguments Raise {A} e.

#[global] Instance result_ret : MRet result := @Ok.
#[global] Instance result_bind : MBind result := fun A B k r =>
  match r with
  | Ok a => k a
  | Raise e => Raise e
  end.

(** [ord(c)], for a character with a code point from 0 to 255. *)
Definition ord (c : ascii) : Z := Z.of_nat (nat_of_ascii c).

Definition chars (s : string) : list ascii := list_ascii_of_string s.

Definition len (s : string) : Z := Z.of_nat (String.length s).

(** [s[i]] for a non-negative literal index [i]. *)
Definition index (s : string) (i : nat) : result ascii :=
  match String.get i s with
  | Some c => Ok c
  | None => Raise IndexError
  end.

(** [s[start:stop]]: a bound that is left out is [None]; a negative bound
    counts from the end; bounds are clamped to [0 .. len s]. *)
Definition clamp (n : Z) (i : Z) : Z :=
  if i <? 0 then Z.max (i + n) 0 else Z.min i n.

Definition slice (s : string) (start stop : option Z) : string :=
  let n := len s in
  let lo := match start with Some i => clamp n i | None => 0 end in
  let hi := match stop with Some i => clamp n i | None => n end in
  String.substring (Z.to_nat lo) (Z.to_nat (hi - lo)) s.

(** ** [int(s, base)] on a [str]

    Surrounding white space is dropped, one sign is accepted, base 16
    accepts a [0x]/[0X] prefix (and one underscore after it), digits may be
    separated by single underscores, and at least one digit is required.
    Among the characters with code points 0 to 255 the white space is
    9 to 13, 32, 133 and 160, and the digits are the ASCII digits and
    letters; the Unicode digits and spaces that [int] also accepts lie
    beyond 255. *)

Definition isspace (c : ascii) : bool :=
  let n := ord c in
  ((9 <=? n) && (n <=? 13)) || (n =? 32) || (n =? 133) || (n =? 160).

Definition digit_value (c : ascii) : option Z :=
  let n := ord c in
  if (48 <=? n) && (n <=? 57) then Some (n - 48)
  else if (97 <=? n) && (n <=? 122) then Some (n - 97 + 10)
  else if (65 <=? n) && (n <=? 90) then Some (n - 65 + 10)
  else None.

Definition is_underscore (c : ascii) : bool := ord c =? 95.

Fixpoint lstrip (l : list ascii) : list ascii :=
  match l with
  | c :: l' => if isspace c then lstrip l' else l
  | [] => []
  end.

(** The digits loop: [acc] is the value read so far, [prev_us] tells
    whether the previous character was an underscore, [seen] whether a
    digit was read.  Returns the value and the unread rest. *)
Fixpoint scan_digits (base : Z) (l : list ascii) (acc : Z)
    (prev_us seen : bool) : option (Z * list ascii) :=
  match l with
  | c :: l' =>
      if is_underscore c then
        if prev_us then None else scan_digits base l' acc true seen
      else
        match digit_value c with
        | Some d =>
            if d <? base then scan_digits base l' (acc * base + d) false true
            else if prev_us || negb seen then None else Some (acc, l)
        | None => if prev_us || negb seen then None else Some (acc, l)
        end
  | [] => if prev_us || negb seen then None else Some (acc, [])
  end.

Definition skip_prefix (base : Z) (l : list ascii) : list ascii :=
  match l with
  | z :: x :: l' =>
      if (base =? 16) && (ord z =? 48) && ((ord x =? 120) || (ord x =? 88))
      then match l' with
           | u :: l'' => if is_underscore u then l'' else l'
           | [] => l'
           end
      else l
  | _ => l
  end.

Definition int_of_chars (base : Z) (l : list ascii) : result Z :=
  let l := lstrip l in
  let '(neg, l) :=
    match l with
    | c :: l' =>
        if ord c =? 45 then (true, l')
        else if ord c =? 43 then (false, l')
        else (false, l)
    | [] => (false, l)
    end in
  let l := skip_prefix base l in
  match l with
  | c :: _ =>
      if is_underscore c then Raise ValueError
      else
        match scan_digits base l 0 false false with
        | Some (v, rest) =>
            match lstrip rest with
            | [] => Ok (if neg then - v else v)
            | _ :: _ => Raise ValueError
            end
        | None => Raise ValueError
        end
  | [] => Raise ValueError
  end.

(** [int(s, base)] and [int(s)]. *)
Definition int (s : string) (base : Z) : result Z := int_of_chars base (chars s).
Definition int10 (s : string) : result Z := int s 10.
(** [int(c, base)] on a one-character string. *)
Definition int_char (c : ascii) (base : Z) : result Z := int_of_chars base [c].

(** ** Number formatting *)

Definition hex_digit (upper : bool) (d : Z) : ascii :=
  ascii_of_nat
    (Z.to_nat (if d <? 10 then 48 + d else if upper then 55 + d else 87 + d)).

(** Hexadecimal digits of a non-negative number, most significant first;
    [fuel] bounds the number of digits. *)
Fixpoint hex_aux (upper : bool) (fuel : nat) (n : Z) (acc : string)
    : string :=
  match fuel with
  | O => acc
  | S fuel' =>
      let acc' := String (hex_digit upper (n mod 16)) acc in
      if n / 16 =? 0 then acc' else hex_aux upper fuel' (n / 16) acc'
  end.

Definition hex_upper (n : Z) : string :=
  hex_aux true (S (Z.to_nat (Z.log2 n))) n "".
Definition hex_lower (n : Z) : string :=
  hex_aux false (S (Z.to_nat (Z.log2 n))) n "".

Fixpoint spaces (n : nat) : string :=
  match n with
  | O => ""
  | S n' => String " " (spaces n')
  end.

(** ['%2X' % n]: upper-case hexadecimal, right-justified in a field of
    width 2 that is filled with SPACES (the conversion has no [0] flag). *)
Definition format_2X (n : Z) : string :=
  let body := if n <? 0 then String "-" (hex_upper (- n)) else hex_upper n in
  spaces (2 - String.length body) +:+ body.

(** ['%02X' % n], the zero-filled rendering the specification describes;
    it is not used by the sources. *)
Definition format_02X (n : Z) : string :=
  let body := hex_upper n in
  match String.length body with
  | 1%nat => String "0" body
  | _ => body
  end.

(** [f'{n:02x}']: lower-case hexadecimal, zero-filled to width 2, the
    sign counting for the width. *)
Definition format_02x (n : Z) : string :=
  if n <? 0 then String "-" (hex_lower (- n))
  else
    let body := hex_lower n in
    match String.length body with
    | 1%nat => String "0" body
    | _ => body
    end.

(** [str(n)] for an [int]. *)
Definition str_int (n : Z) : string := NilZero.string_of_int (Z.to_int n).

(** ['|'.join(l)] and friends. *)
Definition join (sep : string) (l : list string) : string := String.concat sep l.

(** [string.ascii_uppercase]. *)
Definition ascii_uppercase : string := "ABCDEFGHIJKLMNOPQRSTUVWXYZ".

(** [c in s] for a one-character [c]: the substring test is membership. *)
Definition char_in (c : ascii) (s : string) : bool :=
  existsb (Ascii.eqb c) (chars s).

(** [sum(ord(c) for c in s)]. *)
Definition sum_ord (s : string) : Z :=
  fold_left (fun acc c => acc + ord c) (chars s) 0.

End Py.

Import Py.

(** * events.py *)

Module Events.

(** The classes of [events.py] that derive from [SystemEvent], and
    [SystemEvent] itself, in the order of their definition. *)
Inductive EventClass : Type :=
| SystemEvent
| AlarmEvent
| PerimeterAlarm
| EntryExitAlarm
| InteriorFollowerAlarm
| FireAlarm
| AudiblePanicAlarm
| SilentPanicAlarm
| Aux24hrAlarm
| DuressAlarm
| OtherAlarmRestore
| RfLowBattery
| RfLowBatteryRestore
| OtherTrouble
| OtherTroubleRestore
| ArmDisarmEvent
| ArmStay
| Disarm
| Arm
| LowBattery
| LowBatteryRestore
| AcFail
| AcRestore
| AlarmCancel
| OtherBypass
| OtherUnbypass
| DayNightAlarm
| DayNightRestore
| FailToDisarm
| FailToArm
| FaultEvent
| FaultRestoreEvent
| LowBatteryExtended
| LowBatteryRestoreExtended.

#[global] Instance EventClass_eq_dec : EqDecision EventClass.
Proof. solve_decision. Defined.

Definition definition_order : list EventClass :=
  [ SystemEvent; AlarmEvent; PerimeterAlarm; EntryExitAlarm;
    InteriorFollowerAlarm; FireAlarm; AudiblePanicAlarm; SilentPanicAlarm;
    Aux24hrAlarm; DuressAlarm; OtherAlarmRestore; RfLowBattery;
    RfLowBatteryRestore; OtherTrouble; OtherTroubleRestore; ArmDisarmEvent;
    ArmStay; Disarm; Arm; LowBattery; LowBatteryRestore; AcFail; AcRestore;
    AlarmCancel; OtherBypass; OtherUnbypass; DayNightAlarm; DayNightRestore;
    FailToDisarm; FailToArm; FaultEvent; FaultRestoreEvent;
    LowBatteryExtended; LowBatteryRestoreExtended ].

(** The base class written in the [class] statement. *)
Definition base (k : EventClass) : option EventClass :=
  match k with
  | SystemEvent => None
  | PerimeterAlarm | EntryExitAlarm | InteriorFollowerAlarm | FireAlarm
  | AudiblePanicAlarm | SilentPanicAlarm | Aux24hrAlarm | DuressAlarm =>
      Some AlarmEvent
  | ArmStay | Disarm | Arm => Some ArmDisarmEvent
  | _ => Some SystemEvent
  end.

(** The class attributes a [class] body assigns itself. *)
Definition own_NAME (k : EventClass) : option string :=
  match k with
  | SystemEvent => Some "Unknown Event"
  | AlarmEvent => None
  | PerimeterAlarm => Some "Perimeter Alarm"
  | EntryExitAlarm => Some "Entry/Exit Alarm"
  | InteriorFollowerAlarm => Some "Interior Follower Alarm"
  | FireAlarm => Some "Fire Alarm"
  | AudiblePanicAlarm => Some "Audible Panic Alarm"
  | SilentPanicAlarm => Some "Silent Panic Alarm"
  | Aux24hrAlarm => Some "24-Hour Auxiliary"
  | DuressAlarm => Some "Duress Alarm"
  | OtherAlarmRestore => Some "Other Alarm Restore"
  | RfLowBattery => Some "RF Low Battery"
  | RfLowBatteryRestore => Some "RF Low Battery Restore"
  | OtherTrouble => Some "Other Trouble"
  | OtherTroubleRestore => Some "Other Trouble Restore"
  | ArmDisarmEvent => None
  | ArmStay => Some "Arm Stay/Home"
  | Disarm => Some "Disarm"
  | Arm => Some "Arm"
  | LowBattery => Some "Low Battery"
  | LowBatteryRestore => Some "Low Battery Restore"
  | AcFail => Some "AC Fail"
  | AcRestore => Some "AC Restore"
  | AlarmCancel => Some "Alarm Cancel"
  | OtherBypass => Some "Other Bypass"
  | OtherUnbypass => Some "Other Unbypass"
  | DayNightAlarm => Some "Day/Night Alarm"
  | DayNightRestore => Some "Day/Night Restore"
  | FailToDisarm => Some "Fail to Disarm"
  | FailToArm => Some "Fail to Arm"
  | FaultEvent => Some "Fault"
  | FaultRestoreEvent => Some "Fault Restore"
  | LowBatteryExtended => Some "Low Battery"
  | LowBatteryRestoreExtended => Some "Low Battery Restore"
  end.

Definition own_CODE (k : EventClass) : option Z :=
  match k with
  | SystemEvent => Some 0
  | AlarmEvent => None
  | PerimeterAlarm => Some 0
  | EntryExitAlarm => Some 1
  | InteriorFollowerAlarm => Some 4
  | FireAlarm => Some 6
  | AudiblePanicAlarm => Some 7
  | SilentPanicAlarm => Some 8
  | Aux24hrAlarm => Some 9
  | DuressAlarm => Some 0x0c
  | OtherAlarmRestore => Some 0x0e
  | RfLowBattery => Some 0x0f
  | RfLowBatteryRestore => Some 0x10
  | OtherTrouble => Some 0x11
  | OtherTroubleRestore => Some 0x12
  | ArmDisarmEvent => None
  | ArmStay => Some 0x15
  | Disarm => Some 0x16
  | Arm => Some 0x18
  | LowBattery => Some 0x1a
  | LowBatteryRestore => Some 0x1b
  | AcFail => Some 0x1c
  | AcRestore => Some 0x1d
  | AlarmCancel => Some 0x20
  | OtherBypass => Some 0x21
  | OtherUnbypass => Some 0x22
  | DayNightAlarm => Some 0x23
  | DayNightRestore => Some 0x24
  | FailToDisarm => Some 0x27
  | FailToArm => Some 0x28
  | FaultEvent => Some 0x2b
  | FaultRestoreEvent => Some 0x2c
  | LowBatteryExtended => Some 0x29
  | LowBatteryRestoreExtended => Some 0x2a
  end.

Definition own_IS_ZONE (k : EventClass) : option bool :=
  match k with
  | SystemEvent => Some true
  | ArmDisarmEvent => Some false
  | AlarmCancel => Some false
  | _ => None
  end.

(** Method resolution order: the class, then its bases up to
    [SystemEvent].  The hierarchy is three levels deep. *)
Definition mro (k : EventClass) : list EventClass :=
  match base k with
  | None => [k]
  | Some b =>
      match base b with
      | None => [k; b]
      | Some b' => [k; b; b']
      end
  end.

(** Attribute lookup on a class: the first class of the MRO that assigns
    the attribute. *)
Fixpoint lookup_attr {A} (own : EventClass -> option A)
    (l : list EventClass) : option A :=
  match l with
  | k :: l' =>
      match own k with
      | Some a => Some a
      | None => lookup_attr own l'
      end
  | [] => None
  end.

Definition NAME (k : EventClass) : string :=
  default "Unknown Event"%string (lookup_attr own_NAME (mro k)).
Definition CODE (k : EventClass) : Z :=
  default 0 (lookup_attr own_CODE (mro k)).
Definition IS_ZONE (k : EventClass) : bool :=
  default true (lookup_attr own_IS_ZONE (mro k)).

(** [issubclass(k, c)]. *)
Definition issubclass (k c : EventClass) : bool :=
  bool_decide (c ∈ mro k).

(** [cls.__subclasses__()]: the direct subclasses, in definition order. *)
Definition subclasses (cls : EventClass) : list EventClass :=
  filter (fun k => base k = Some cls) definition_order.

(** [subclasses_recursive]; the recursion follows the class tree, whose
    depth bounds [fuel]. *)
Fixpoint subclasses_recursive_fuel (fuel : nat) (cls : EventClass)
    : list EventClass :=
  match fuel with
  | O => []
  | S fuel' =>
      let direct := subclasses cls in
      let indirect :=
        List.concat (List.map (subclasses_recursive_fuel fuel') direct) in
      direct ++ indirect
  end.

Definition subclasses_recursive (cls : EventClass) : list EventClass :=
  subclasses_recursive_fuel 3 cls.

(** Instances.  [Event k z name] is an instance of the class [k] (built by
    [SystemEvent.__init__], which no subclass overrides); [UnknownEvent]
    is the separate class of that name. *)
Inductive EventTypes : Type :=
| Event (klass : EventClass) (zone_or_user : Z)
    (zone_or_user_name : option string)
| UnknownEvent (code : Z) (zone_or_user : Z).

#[global] Instance EventTypes_eq_dec : EqDecision EventTypes.
Proof. solve_decision. Defined.

Definition isinstance (evt : EventTypes) (c : EventClass) : bool :=
  match evt with
  | Event k _ _ => issubclass k c
  | UnknownEvent _ _ => false
  end.

Definition evt_zone_or_user (evt : EventTypes) : Z :=
  match evt with
  | Event _ z _ => z
  | UnknownEvent _ z => z
  end.

(** The first class of [l] whose [CODE] is [event_code]: the [for] loop
    of [event_for_code] with its early [return]. *)
Fixpoint first_with_code (event_code : Z) (l : list EventClass)
    : option EventClass :=
  match l with
  | klass :: l' =>
      if CODE klass =? event_code then Some klass
      else first_with_code event_code l'
  | [] => None
  end.

(** [SystemEvent.event_for_code(event_code, zone_or_user, zones)]. *)
Definition event_for_code (event_code zone_or_user : Z)
    (zones : gmap Z string) : EventTypes :=
  match first_with_code event_code (subclasses_recursive SystemEvent) with
  | Some klass =>
      if IS_ZONE klass then Event klass zone_or_user (zones !! zone_or_user)
      else Event klass zone_or_user None
  | None => UnknownEvent event_code zone_or_user
  end.

(** A call of [event_for_code] with the positional arguments [args].  The
    method has three required parameters after [cls] and no default
    values, so that a call with another number of arguments raises
    [TypeError] before the body runs. *)
Inductive arg : Type :=
| AInt (n : Z)
| ADict (d : gmap Z string).

Definition call_event_for_code (args : list arg) : result EventTypes :=
  match args with
  | [AInt event_code; AInt zone_or_user; ADict zones] =>
      Ok (event_for_code event_code zone_or_user zones)
  | _ => Raise TypeError
  end.

End Events.

(** * messages.py *)

Module Messages.

Import Events.

Inductive PartitionState : Type :=
| HOME
| DISARMED
| AWAY.

#[global] Instance PartitionState_eq_dec : EqDecision PartitionState.
Proof. solve_decision. Defined.

(** The value of an enumeration member. *)
Definition PartitionState_value (p : PartitionState) : Z :=
  match p with
  | HOME => 1
  | DISARMED => 2
  | AWAY => 3
  end.

(** ** ZoneState *)

Record ZoneState : Type := mkZoneState {
  _state_numeric : Z;
  closed : bool;
  open : bool;
  trouble : bool;
  alarm : bool;
  bypassed : bool;
}.

#[global] Instance ZoneState_eq_dec : EqDecision ZoneState.
Proof. solve_decision. Defined.

(** [ZoneState.__init__]; in Python [&] binds tighter than [==]. *)
Definition ZoneState_init (state : Z) : ZoneState :=
  {| _state_numeric := state;
     closed := Z.land state 1 =? 0;
     open := Z.land state 1 =? 1;
     trouble := Z.land state 2 =? 2;
     alarm := Z.land state 4 =? 4;
     bypassed := Z.land state 8 =? 8 |}.

(** [ZoneState.__str__]: the list with [None] entries, filtered, joined. *)
Definition ZoneState_str (self : ZoneState) : string :=
  let values : list (option string) :=
    [ if closed self then Some "CLOSED"%string else None;
      if open self then Some "OPEN"%string else None;
      if trouble self then Some "TROUBLE"%string else None;
      if alarm self then Some "ALARM"%string else None;
      if bypassed self then Some "BYPASSED"%string else None ] in
  join "|" (omap id values).

Definition ZoneState_repr (self : ZoneState) : string :=
  "<ZoneState(" +:+ str_int (_state_numeric self) +:+ ")>".

(** [__eq__] and [__lt__]; [functools.total_ordering] derives the other
    comparisons from these two. *)
Definition ZoneState_eq (self other : ZoneState) : bool :=
  _state_numeric self =? _state_numeric other.
Definition ZoneState_lt (self other : ZoneState) : bool :=
  _state_numeric self <? _state_numeric other.
Definition ZoneState_le (self other : ZoneState) : bool :=
  ZoneState_lt self other || ZoneState_eq self other.
Definition ZoneState_gt (self other : ZoneState) : bool :=
  negb (ZoneState_lt self other) && negb (ZoneState_eq self other).
Definition ZoneState_ge (self other : ZoneState) : bool :=
  negb (ZoneState_lt self other).

(** Attribute assignment on a [ZoneState] object. *)
Definition set_trouble (b : bool) (zs : ZoneState) : ZoneState :=
  {| _state_numeric := _state_numeric zs; closed := closed zs;
     open := open zs; trouble := b; alarm := alarm zs;
     bypassed := bypassed zs |}.
Definition set_alarm (b : bool) (zs : ZoneState) : ZoneState :=
  {| _state_numeric := _state_numeric zs; closed := closed zs;
     open := open zs; trouble := trouble zs; alarm := b;
     bypassed := bypassed zs |}.
Definition set_bypassed (b : bool) (zs : ZoneState) : ZoneState :=
  {| _state_numeric := _state_numeric zs; closed := closed zs;
     open := open zs; trouble := trouble zs; alarm := alarm zs;
     bypassed := b |}.

(** ** Message packets

    An object of a subclass of [MessagePacket]: the three attributes set
    by [MessagePacket.__init__], and the attributes the subclass adds. *)

Inductive Fields : Type :=
| UnknownMessage (msg_type msg_subtype : ascii)
| ArmAwayMessage (user : Z) (user_code : string)
| ArmHomeMessage (user : Z) (user_code : string)
| DisarmMessage (user : Z) (user_code : string)
| ArmingStatusRequest
| ArmingStatusReport (partition_state : gmap Z PartitionState)
| ZoneStatusRequest
| ZoneStatusReport (zones : gmap Z ZoneState)
| ZonePartitionRequest
| ZonePartitionReport (partitions : gmap Z Z)
| SystemEventNotification (_event_type zone_or_user : Z)
    (event_type : EventTypes) (minute hour day month : Z).

Record MessagePacket : Type := mkMessagePacket {
  raw_message : string;
  _data : string;
  from_panel : bool;
  fields : Fields;
}.

(** [MessagePacket._parse_message]. *)
Definition _parse_message (raw_message : string)
    : result (ascii * ascii * string) :=
  msglen ← int (slice raw_message (Some 0) (Some 2)) 16;
  if negb (len raw_message =? msglen) then
    Raise (InvalidMessageLengthException msglen (len raw_message))
  else
    let expected_crc := slice raw_message (Some (-2)) None in
    let crc :=
      format_2X
        (Z.land (- (sum_ord (slice raw_message None (Some (-2))) mod 256))
                0xFF) in
    if negb (String.eqb crc expected_crc) then
      Raise (MessageChecksumException expected_crc crc)
    else
      msgtype ← index raw_message 2;
      subtype ← index raw_message 3;
      let data := slice raw_message (Some 4) (Some (-4)) in
      Ok (msgtype, subtype, data).

(** *** The constructors of the subclasses

    Each takes [raw_message], [data] and [from_panel]. *)

Definition user_message (mk : Z -> string -> Fields)
    (raw_message data : string) (from_panel : bool) : result MessagePacket :=
  user ← int (slice data (Some 0) (Some 2)) 16;
  let user_code := slice data (Some 2) None in
  Ok (mkMessagePacket raw_message data from_panel (mk user user_code)).

Definition ArmAwayMessage_init := user_message ArmAwayMessage.
Definition ArmHomeMessage_init := user_message ArmHomeMessage.
Definition DisarmMessage_init := user_message DisarmMessage.

Definition ArmingStatusRequest_init (raw_message data : string)
    (from_panel : bool) : result MessagePacket :=
  Ok (mkMessagePacket raw_message data from_panel ArmingStatusRequest).

(** The loop of [ArmingStatusReport.__init__] over [enumerate(data)],
    started at index [idx] on the characters [l] still to be read. *)
Fixpoint partition_state_loop (data : string) (idx : Z) (l : list ascii)
    (acc : gmap Z PartitionState) : result (gmap Z PartitionState) :=
  match l with
  | [] => Ok acc
  | val :: l' =>
      if Ascii.eqb val "H" then
        partition_state_loop data (idx + 1) l' (<[idx + 1 := HOME]> acc)
      else if Ascii.eqb val "D" then
        partition_state_loop data (idx + 1) l' (<[idx + 1 := DISARMED]> acc)
      else if Ascii.eqb val "A" then
        partition_state_loop data (idx + 1) l' (<[idx + 1 := AWAY]> acc)
      else Raise (InvalidMessageException val data)
  end.

Definition ArmingStatusReport_init (raw_message data : string)
    (from_panel : bool) : result MessagePacket :=
  partition_state ← partition_state_loop data 0 (chars data) ∅;
  Ok (mkMessagePacket raw_message data from_panel
        (ArmingStatusReport partition_state)).

Definition ZoneStatusRequest_init (raw_message data : string)
    (from_panel : bool) : result MessagePacket :=
  Ok (mkMessagePacket raw_message data from_panel ZoneStatusRequest).

Fixpoint zones_loop (idx : Z) (l : list ascii) (acc : gmap Z ZoneState)
    : result (gmap Z ZoneState) :=
  match l with
  | [] => Ok acc
  | val :: l' =>
      n ← int_char val 16;
      zones_loop (idx + 1) l' (<[idx + 1 := ZoneState_init n]> acc)
  end.

Definition ZoneStatusReport_init (raw_message data : string)
    (from_panel : bool) : result MessagePacket :=
  zones ← zones_loop 0 (chars data) ∅;
  Ok (mkMessagePacket raw_message data from_panel (ZoneStatusReport zones)).

Definition ZonePartitionRequest_init (raw_message data : string)
    (from_panel : bool) : result MessagePacket :=
  Ok (mkMessagePacket raw_message data from_panel ZonePartitionRequest).

Fixpoint partitions_loop (idx : Z) (l : list ascii) (acc : gmap Z Z)
    : result (gmap Z Z) :=
  match l with
  | [] => Ok acc
  | val :: l' =>
      n ← int_char val 10;
      partitions_loop (idx + 1) l' (<[idx + 1 := n]> acc)
  end.

Definition ZonePartitionReport_init (raw_message data : string)
    (from_panel : bool) : result MessagePacket :=
  partitions ← partitions_loop 0 (chars data) ∅;
  Ok (mkMessagePacket raw_message data from_panel
        (ZonePartitionReport partitions)).

(** [SystemEventNotification.__init__]: the call of
    [SystemEvent.event_for_code] passes two arguments. *)
Definition SystemEventNotification_init (raw_message data : string)
    (from_panel : bool) : result MessagePacket :=
  _event_type ← int (slice data (Some 0) (Some 2)) 16;
  zone_or_user ← int10 (slice data (Some 2) (Some 4));
  event_type ← call_event_for_code [AInt _event_type; AInt zone_or_user];
  minute ← int10 (slice data (Some 4) (Some 6));
  hour ← int10 (slice data (Some 6) (Some 8));
  day ← int10 (slice data (Some 8) (Some 10));
  month ← int10 (slice data (Some 10) (Some 12));
  Ok (mkMessagePacket raw_message data from_panel
        (SystemEventNotification _event_type zone_or_user event_type
           minute hour day month)).

(** [UnknownMessage] is a subclass as well; called like the others, with
    three keyword arguments, its constructor lacks [msg_type] and
    [msg_subtype]. *)
Definition UnknownMessage_init3 (raw_message data : string)
    (from_panel : bool) : result MessagePacket :=
  Raise TypeError.

(** *** The registry: [MessagePacket.__subclasses__()] *)

Record klass : Type := mkKlass {
  __name__ : string;
  MSG_TYPES : list ascii;
  MSG_SUBTYPES : list ascii;
  init : string -> string -> bool -> result MessagePacket;
}.

Definition subclasses : list klass :=
  [ mkKlass "UnknownMessage" [] [] UnknownMessage_init3;
    mkKlass "ArmAwayMessage" ["A"; "a"]%char ["A"; "a"]%char
      ArmAwayMessage_init;
    mkKlass "ArmHomeMessage" ["A"; "a"]%char ["H"; "h"]%char
      ArmHomeMessage_init;
    mkKlass "DisarmMessage" ["A"; "a"]%char ["D"; "d"]%char
      DisarmMessage_init;
    mkKlass "ArmingStatusRequest" ["a"]%char ["s"]%char
      ArmingStatusRequest_init;
    mkKlass "ArmingStatusReport" ["A"]%char ["S"]%char
      ArmingStatusReport_init;
    mkKlass "ZoneStatusRequest" ["z"]%char ["s"]%char
      ZoneStatusRequest_init;
    mkKlass "ZoneStatusReport" ["Z"]%char ["S"]%char
      ZoneStatusReport_init;
    mkKlass "ZonePartitionRequest" ["z"]%char ["p"]%char
      ZonePartitionRequest_init;
    mkKlass "ZonePartitionReport" ["Z"]%char ["P"]%char
      ZonePartitionReport_init;
    mkKlass "SystemEventNotification" ["N"]%char ["Q"]%char
      SystemEventNotification_init ].

(** [x in l] for a list of one-character strings. *)
Definition in_list (c : ascii) (l : list ascii) : bool :=
  existsb (Ascii.eqb c) l.

(** The [for] loop of [parse] with its early [return]. *)
Definition dispatch (msgtype subtype : ascii) : option klass :=
  List.find
    (fun k => in_list msgtype (MSG_TYPES k) && in_list subtype (MSG_SUBTYPES k))
    subclasses.

(** [MessagePacket.parse]. *)
Definition parse (raw_message : string) : result MessagePacket :=
  '(msgtype, subtype, data) ← _parse_message raw_message;
  let from_panel := char_in msgtype ascii_uppercase in
  match dispatch msgtype subtype with
  | Some k => init k raw_message data from_panel
  | None =>
      Ok (mkMessagePacket raw_message data from_panel
            (UnknownMessage msgtype subtype))
  end.

(** The [generate] class methods of the three request classes. *)
Definition ArmingStatusRequest_generate : string := "08as0064".
Definition ZoneStatusRequest_generate : string := "08zs004B".
Definition ZonePartitionRequest_generate : string := "08zp004E".

End Messages.

(** * state_monitor.py *)

Module Monitor.

Import Events Messages.

(** The attributes of a [StateMonitor] other than the serial connection
    [panel].

    [zone_status] holds the [ZoneState] objects of the reports it was
    updated with.  [parse] builds a new object for every zone of every
    line, so that no object is stored under two keys or shared between
    two reports: assigning an attribute of the object stored under a key
    is the update of the map at that key. *)
Record StateMonitor : Type := mkStateMonitor {
  arming_status : gmap Z PartitionState;
  zone_status : gmap Z ZoneState;
  zone_partitions : gmap Z Z;
  zone_troubles : gmap Z (gset string);
}.

(** [StateMonitor.__init__]. *)
Definition StateMonitor_init : StateMonitor :=
  mkStateMonitor ∅ ∅ ∅ ∅.

(** A record written to the module's logger: its level and its format
    string. *)
Inductive Level : Type :=
| DEBUG
| INFO
| WARNING
| ERROR.

#[global] Instance Level_eq_dec : EqDecision Level.
Proof. solve_decision. Defined.

Record World : Type := mkWorld {
  self : StateMonitor;
  records : list (Level * string);
}.

(** Monitor code: it reads and mutates [self], appends to the log, and
    returns or raises.  A raised exception leaves the mutations made
    before it in place. *)
Definition M (A : Type) : Type := World -> World * result A.

#[global] Instance M_ret : MRet M := fun A a w => (w, Ok a).
#[global] Instance M_bind : MBind M := fun A B k m w =>
  match m w with
  | (w', Ok a) => k a w'
  | (w', Raise e) => (w', Raise e)
  end.

Definition raise {A} (e : exn) : M A := fun w => (w, Raise e).

Definition get : M StateMonitor := fun w => (w, Ok (self w)).

Definition put (s : StateMonitor) : M unit :=
  fun w => (mkWorld s (records w), Ok tt).

Definition logger (lvl : Level) (fmt : string) : M unit :=
  fun w => (mkWorld (self w) (records w ++ [(lvl, fmt)]), Ok tt).

(** [d[k]] on a [dict]. *)
Definition getitem {V} (d : gmap Z V) (k : Z) : M V :=
  match d !! k with
  | Some v => mret v
  | None => raise KeyError
  end.

(** [self.zone_status[z]] and [self.zone_troubles[z]]. *)
Definition zone_status_item (z : Z) : M ZoneState :=
  s ← get; getitem (zone_status s) z.

Definition zone_troubles_item (z : Z) : M (gset string) :=
  s ← get; getitem (zone_troubles s) z.

(** [self.zone_status[z].attr = b]: the object stored under [z] is
    changed in place. *)
Definition zone_status_setattr (z : Z) (f : ZoneState -> ZoneState)
    : M unit :=
  zs ← zone_status_item z;
  s ← get;
  put (mkStateMonitor (arming_status s) (<[z := f zs]> (zone_status s))
         (zone_partitions s) (zone_troubles s)).

(** [self.zone_troubles[z].add(name)]. *)
Definition zone_troubles_add (z : Z) (name : string) : M unit :=
  causes ← zone_troubles_item z;
  s ← get;
  put (mkStateMonitor (arming_status s) (zone_status s) (zone_partitions s)
         (<[z := causes ∪ {[name]}]> (zone_troubles s))).

(** [self.zone_troubles[z].remove(name)]; [set.remove] raises [KeyError]
    for an absent element. *)
Definition zone_troubles_remove (z : Z) (name : string) : M unit :=
  causes ← zone_troubles_item z;
  if bool_decide (name ∈ causes) then
    s ← get;
    put (mkStateMonitor (arming_status s) (zone_status s) (zone_partitions s)
           (<[z := causes ∖ {[name]}]> (zone_troubles s)))
  else raise KeyError.

(** [evt.NAME]; an [UnknownEvent] carries its [repr] under that name. *)
Definition evt_NAME (evt : EventTypes) : string :=
  match evt with
  | Event k _ _ => NAME k
  | UnknownEvent code zone_or_user =>
      "<UnknownEvent(code=" +:+ str_int code +:+ ", code_hex=0x"
      +:+ format_02x code
      +:+ ", zone_or_user=" +:+ str_int zone_or_user +:+ ")>"
  end.

Definition _handle_alarm (evt : EventTypes) : M unit :=
  logger DEBUG "Event: %s in zone %d";;
  zs ← zone_status_item (evt_zone_or_user evt);
  if alarm zs then
    logger WARNING "Got %s event for zone %d but zone is already in alarm"
  else
    logger INFO "CHANGE zone %d alarm state to True";;
    zone_status_setattr (evt_zone_or_user evt) (set_alarm true).

Definition _handle_alarm_restore (evt : EventTypes) : M unit :=
  logger DEBUG "Got OtherAlarmRestore event for zone %d";;
  zs ← zone_status_item (evt_zone_or_user evt);
  if alarm zs then
    logger INFO "CHANGE zone %d alarm state to False";;
    zone_status_setattr (evt_zone_or_user evt) (set_alarm false)
  else
    logger WARNING "Got %s event for zone %d but zone is not in alarm".

Definition _handle_zone_trouble (evt : EventTypes) : M unit :=
  logger DEBUG "Got %s event for zone %d";;
  zs ← zone_status_item (evt_zone_or_user evt);
  if trouble zs then
    causes ← zone_troubles_item (evt_zone_or_user evt);
    if bool_decide (evt_NAME evt ∈ causes) then
      logger DEBUG "Got another %s message for zone %d"
    else
      logger INFO "ADD zone %s trouble cause: %s";;
      zone_troubles_add (evt_zone_or_user evt) (evt_NAME evt)
  else
    logger INFO "CHANGE zone %d is in trouble: %s";;
    zone_troubles_add (evt_zone_or_user evt) (evt_NAME evt);;
    zone_status_setattr (evt_zone_or_user evt) (set_trouble true).

Definition _handle_zone_trouble_restore (evt : EventTypes) : M unit :=
  logger DEBUG "Got %s event for zone %d";;
  zs ← zone_status_item (evt_zone_or_user evt);
  if trouble zs then
    causes ← zone_troubles_item (evt_zone_or_user evt);
    (if negb (bool_decide (evt_NAME evt ∈ causes)) then
       logger WARNING "Got %s for zone %d but zone trouble causes are: %s"
     else
       logger INFO "REMOVE zone %s trouble cause: %s";;
       zone_troubles_remove (evt_zone_or_user evt) (evt_NAME evt));;
    causes' ← zone_troubles_item (evt_zone_or_user evt);
    if bool_decide (causes' = ∅) then
      logger INFO "CHANGE zone %d is no longer in trouble";;
      zone_status_setattr (evt_zone_or_user evt) (set_trouble false)
    else mret tt
  else
    logger WARNING "Got %s for zone %d but zone is not in trouble".

Definition _handle_zone_bypass (evt : EventTypes) : M unit :=
  zs ← zone_status_item (evt_zone_or_user evt);
  if bypassed zs then
    logger DEBUG "Got another %s message for zone %d"
  else
    logger INFO "CHANGE zone %d to Bypassed";;
    zone_status_setattr (evt_zone_or_user evt) (set_bypassed true).

Definition _handle_zone_unbypass (evt : EventTypes) : M unit :=
  zs ← zone_status_item (evt_zone_or_user evt);
  if negb (bypassed zs) then
    logger DEBUG "Got another %s message for zone %d"
  else
    logger INFO "CHANGE zone %d to Unbypassed";;
    zone_status_setattr (evt_zone_or_user evt) (set_bypassed false).

(** The two fault handlers start with a [raise]; the statements after it
    are unreachable. *)
Definition _handle_zone_fault (evt : EventTypes) : M unit :=
  raise (NotImplementedError
           "Not implemented; also how to handle NC/NO zones?").

Definition _handle_zone_fault_restore (evt : EventTypes) : M unit :=
  raise (NotImplementedError "not implemented - also NC/NO?").

Definition _handle_event (evt : EventTypes) : M unit :=
  logger DEBUG "Got System Event Notification: %s";;
  if isinstance evt AlarmEvent then _handle_alarm evt
  else if isinstance evt OtherAlarmRestore then _handle_alarm_restore evt
  else if isinstance evt RfLowBattery || isinstance evt OtherTrouble
          || isinstance evt LowBattery
  then _handle_zone_trouble evt
  else if isinstance evt RfLowBatteryRestore
          || isinstance evt OtherTroubleRestore
          || isinstance evt LowBatteryRestore
  then _handle_zone_trouble_restore evt
  else if isinstance evt OtherBypass then _handle_zone_bypass evt
  else if isinstance evt OtherUnbypass then _handle_zone_unbypass evt
  else if isinstance evt FaultEvent then _handle_zone_fault evt
  else if isinstance evt FaultRestoreEvent then _handle_zone_fault_restore evt
  else logger WARNING "Got un-handled System Event Notification: %s".

(** Truth value of a [dict]. *)
Definition nonempty {V} (d : gmap Z V) : bool := bool_decide (d ≠ ∅).

(** The body of the [for] loop of [run], for one [message] yielded by
    [self.panel.communicate()], in its two statements: the chain of
    [isinstance] tests, and the test that sets the local variable
    [is_ready].  No class of [messages.py] derives from another, so that
    the chain is a case distinction on the class of [message].
    [d.update(e)] is [e ∪ d]: the union keeps the left value on common
    keys. *)
Definition handle_message (message : MessagePacket) : M unit :=
  match fields message with
  | ArmingStatusReport partition_state =>
      s ← get;
      put (mkStateMonitor (partition_state ∪ arming_status s) (zone_status s)
             (zone_partitions s) (zone_troubles s));;
      logger INFO "Got initial partition arming status: %s"
  | ZoneStatusReport zones =>
      s ← get;
      put (mkStateMonitor (arming_status s) (zones ∪ zone_status s)
             (zone_partitions s) (zone_troubles s));;
      logger INFO "Got initial zone status: %s";;
      s ← get;
      put (mkStateMonitor (arming_status s) (zone_status s)
             (zone_partitions s) ((fun _ => ∅) <$> zone_status s))
  | ZonePartitionReport partitions =>
      s ← get;
      put (mkStateMonitor (arming_status s) (zone_status s)
             (partitions ∪ zone_partitions s) (zone_troubles s));;
      logger INFO "Got zone partition state: %s"
  | ArmAwayMessage _ _ =>
      logger INFO "Got Arm Away for user %s (code %s)";;
      logger ERROR "NOT IMPLEMENTED: how to handle ArmAwayMessage?"
  | ArmHomeMessage _ _ =>
      logger INFO "Got Arm Home for user %s (code %s)";;
      logger ERROR "NOT IMPLEMENTED: how to handle ArmHomeMessage?"
  | DisarmMessage _ _ =>
      logger INFO "Got Disarm for user %s (code %s)";;
      logger ERROR "NOT IMPLEMENTED: how to handle DisarmMessage?"
  | SystemEventNotification _ _ event_type _ _ _ _ =>
      _handle_event event_type
  | _ => logger ERROR "Got un-handled message: %s"
  end.

Definition update_ready (is_ready : bool) : M bool :=
  s ← get;
  if negb is_ready && nonempty (arming_status s) && nonempty (zone_status s)
     && nonempty (zone_partitions s)
  then logger INFO "Initial state data is populated.";; mret true
  else mret is_ready.

Definition run_body (message : MessagePacket) (is_ready : bool) : M bool :=
  handle_message message;;
  update_ready is_ready.

(** The [for] loop of [run] over the messages the generator yields.  An
    exception raised by the body is not caught: it ends the loop, the
    remaining messages are not read. *)
Fixpoint run_loop (messages : list MessagePacket) (is_ready : bool)
    : M bool :=
  match messages with
  | [] => mret is_ready
  | message :: rest =>
      is_ready' ← run_body message is_ready;
      run_loop rest is_ready'
  end.

(** [StateMonitor.run] on the stream [messages]; the three requests it
    first queues on the [Communicator] do not touch the monitor. *)
Definition run (messages : list MessagePacket) : M bool :=
  run_loop messages false.

Definition initial_world : World := mkWorld StateMonitor_init [].

End Monitor.

(** * Vocabulary of the specification *)

Module Spec.

Import Events Messages Monitor.

(** The checksum as the specification words it: the sum of the character
    codes of the frame without its last two characters, modulo 256,
    negated, masked to 8 bits, rendered as 2 upper-case hex digits. *)
Definition checksum_value (frame : string) : Z :=
  Z.land (- (sum_ord (slice frame None (Some (-2))) mod 256)) 0xFF.

Definition spec_checksum (frame : string) : string :=
  format_02X (checksum_value frame).

Definition trailer (frame : string) : string :=
  slice frame (Some (-2)) None.

(** The declared length of a frame equals its actual length. *)
Definition length_matches (frame : string) : Prop :=
  int (slice frame (Some 0) (Some 2)) 16 = Ok (len frame).

(** The known kind set: the classes the dispatch of [event_for_code]
    goes through. *)
Definition known_kinds : list EventClass := subclasses_recursive SystemEvent.

(** The kinds that assign a [CODE] of their own. *)
Definition concrete_kinds : list EventClass :=
  filter (fun k => is_Some (own_CODE k)) known_kinds.

(** The names of the flags that the bits 0 to 3 of [v] call for, in the
    order closed/open, trouble, alarm, bypassed. *)
Definition flag_names (v : Z) : list string :=
  [if Z.testbit v 0 then "OPEN"%string else "CLOSED"%string]
  ++ (if Z.testbit v 1 then ["TROUBLE"%string] else [])
  ++ (if Z.testbit v 2 then ["ALARM"%string] else [])
  ++ (if Z.testbit v 3 then ["BYPASSED"%string] else []).

(** The number of boolean attributes in which two zone states differ. *)
Definition flags (zs : ZoneState) : list bool :=
  [closed zs; open zs; trouble zs; alarm zs; bypassed zs].

Fixpoint count_diff (l1 l2 : list bool) : nat :=
  match l1, l2 with
  | b1 :: l1', b2 :: l2' =>
      ((if Bool.eqb b1 b2 then 0 else 1) + count_diff l1' l2')%nat
  | _, _ => 0%nat
  end.

Definition flags_changed (zs zs' : ZoneState) : nat :=
  count_diff (flags zs) (flags zs').

(** A message object carrying [f]; the monitor reads no other attribute. *)
Definition message (f : Fields) : MessagePacket :=
  mkMessagePacket "" "" true f.

(** A [SystemEventNotification] carrying the event [evt]. *)
Definition notification (evt : EventTypes) : MessagePacket :=
  message (SystemEventNotification 0 (evt_zone_or_user evt) evt 0 0 0 0).

(** The monitor after [run] has consumed [messages], from a new monitor. *)
Definition after (messages : list MessagePacket) : StateMonitor :=
  self (run messages initial_world).1.

(** What one event can do to the monitor, for the zone [z] it names:
    nothing; flip the alarm or the bypassed flag of the zone; record a
    trouble cause, raising the trouble flag with the first one; on a
    restore, drop a cause, or clear the trouble flag when no cause is
    left. *)
Inductive transition (z : Z) (s : StateMonitor) : StateMonitor → Prop :=
| transition_none :
    transition z s s
| transition_alarm zs :
    zone_status s !! z = Some zs →
    transition z s
      (mkStateMonitor (arming_status s)
         (<[z := set_alarm (negb (alarm zs)) zs]> (zone_status s))
         (zone_partitions s) (zone_troubles s))
| transition_bypassed zs :
    zone_status s !! z = Some zs →
    transition z s
      (mkStateMonitor (arming_status s)
         (<[z := set_bypassed (negb (bypassed zs)) zs]> (zone_status s))
         (zone_partitions s) (zone_troubles s))
| transition_trouble_first zs causes name :
    zone_status s !! z = Some zs → trouble zs = false →
    zone_troubles s !! z = Some causes →
    transition z s
      (mkStateMonitor (arming_status s)
         (<[z := set_trouble true zs]> (zone_status s))
         (zone_partitions s)
         (<[z := causes ∪ {[name]}]> (zone_troubles s)))
| transition_trouble_more zs causes name :
    zone_status s !! z = Some zs → trouble zs = true →
    zone_troubles s !! z = Some causes → name ∉ causes →
    transition z s
      (mkStateMonitor (arming_status s) (zone_status s) (zone_partitions s)
         (<[z := causes ∪ {[name]}]> (zone_troubles s)))
| transition_restore_cause zs causes name :
    zone_status s !! z = Some zs → trouble zs = true →
    zone_troubles s !! z = Some causes → name ∈ causes →
    causes ∖ {[name]} ≠ ∅ →
    transition z s
      (mkStateMonitor (arming_status s) (zone_status s) (zone_partitions s)
         (<[z := causes ∖ {[name]}]> (zone_troubles s)))
| transition_restore_last zs causes name :
    zone_status s !! z = Some zs → trouble zs = true →
    zone_troubles s !! z = Some causes → name ∈ causes →
    causes ∖ {[name]} = ∅ →
    transition z s
      (mkStateMonitor (arming_status s)
         (<[z := set_trouble false zs]> (zone_status s))
         (zone_partitions s)
         (<[z := causes ∖ {[name]}]> (zone_troubles s)))
| transition_restore_empty zs :
    zone_status s !! z = Some zs → trouble zs = true →
    zone_troubles s !! z = Some ∅ →
    transition z s
      (mkStateMonitor (arming_status s)
         (<[z := set_trouble false zs]> (zone_status s))
         (zone_partitions s) (zone_troubles s)).

(** Streams used as examples: a zone snapshot for zone 1, closed and
    without trouble, followed by two trouble events and their restores;
    a snapshot that reports zone 1 in trouble; a fault event for the
    known zone 14 followed by an arming report. *)
Definition snapshot_zone1 : MessagePacket :=
  message (ZoneStatusReport {[1 := ZoneState_init 0]}).

Definition trouble_stream : list MessagePacket :=
  [ snapshot_zone1;
    notification (Event RfLowBattery 1 None);
    notification (Event OtherTrouble 1 None);
    notification (Event RfLowBatteryRestore 1 None);
    notification (Event OtherTroubleRestore 1 None) ].

Definition alarm_stream : list MessagePacket :=
  [ snapshot_zone1; notification (Event FireAlarm 1 None) ].

Definition snapshot_in_trouble : MessagePacket :=
  message (ZoneStatusReport {[1 := ZoneState_init 2]}).

Definition fault_stream : list MessagePacket :=
  [ message (ZoneStatusReport {[14 := ZoneState_init 0]});
    notification (Event FaultEvent 14 None);
    message (ArmingStatusReport {[1 := HOME]}) ].

(** The kinds the monitor treats as troubles and as their restores. *)
Definition trouble_kinds : list EventClass :=
  [RfLowBattery; OtherTrouble; LowBattery].
Definition restore_kinds : list EventClass :=
  [RfLowBatteryRestore; OtherTroubleRestore; LowBatteryRestore].

(** The trouble flag of a zone agrees with its cause set, in both
    directions, for every zone present in both maps. *)
Definition trouble_iff_causes (s : StateMonitor) : Prop :=
  ∀ z zs causes,
    zone_status s !! z = Some zs →
    zone_troubles s !! z = Some causes →
    (trouble zs = true ↔ causes ≠ ∅).

(** One direction of it. *)
Definition causes_imply_trouble (s : StateMonitor) : Prop :=
  ∀ z zs causes,
    zone_status s !! z = Some zs →
    zone_troubles s !! z = Some causes →
    causes ≠ ∅ → trouble zs = true.

End Spec.

(** * messages.py, continued: class names and [generate] *)

Module Generate.

Import Events Messages.

(** [type(m).__name__] for a message object [m]. *)
Definition class_name (f : Fields) : string :=
  match f with
  | UnknownMessage _ _ => "UnknownMessage"
  | ArmAwayMessage _ _ => "ArmAwayMessage"
  | ArmHomeMessage _ _ => "ArmHomeMessage"
  | DisarmMessage _ _ => "DisarmMessage"
  | ArmingStatusRequest => "ArmingStatusRequest"
  | ArmingStatusReport _ => "ArmingStatusReport"
  | ZoneStatusRequest => "ZoneStatusRequest"
  | ZoneStatusReport _ => "ZoneStatusReport"
  | ZonePartitionRequest => "ZonePartitionRequest"
  | ZonePartitionReport _ => "ZonePartitionReport"
  | SystemEventNotification _ _ _ _ _ _ _ => "SystemEventNotification"
  end.


End Generate.

(** * Further vocabulary *)

Module Terms.

Import Events Messages Monitor Spec.

#[global] Instance exn_eq_dec : EqDecision exn.
Proof. solve_decision. Defined.

#[global] Instance result_eq_dec `{EqDecision A} : EqDecision (result A).
Proof. solve_decision. Defined.

(** The 256 characters. *)
Definition all_ascii : list ascii := List.map ascii_of_nat (seq 0 256).

(** The value of a hexadecimal digit, of a decimal digit. *)
Definition hex_value (c : ascii) : option Z :=
  match digit_value c with
  | Some d => if d <? 16 then Some d else None
  | None => None
  end.

Definition dec_value (c : ascii) : option Z :=
  match digit_value c with
  | Some d => if d <? 10 then Some d else None
  | None => None
  end.

(** The type letter of a frame is an upper-case ASCII letter. *)
Definition is_upper (c : ascii) : bool := (65 <=? ord c) && (ord c <=? 90).

(** The pair of a type and a subtype character is registered for the
    class [k]. *)
Definition registered (k : klass) (msgtype subtype : ascii) : Prop :=
  In msgtype (MSG_TYPES k) ∧ In subtype (MSG_SUBTYPES k).

(** The partition state a letter of an arming report stands for. *)
Definition partition_letter (c : ascii) : option PartitionState :=
  if Ascii.eqb c "H" then Some HOME
  else if Ascii.eqb c "D" then Some DISARMED
  else if Ascii.eqb c "A" then Some AWAY
  else None.

(** What the three report constructors make of one character of their
    data. *)
Definition zone_of_char (c : ascii) : result ZoneState :=
  match hex_value c with
  | Some d => Ok (ZoneState_init d)
  | None => Raise ValueError
  end.

Definition partition_of_char (c : ascii) : result Z :=
  match dec_value c with
  | Some d => Ok d
  | None => Raise ValueError
  end.

Definition partition_state_of_char (data : string) (c : ascii)
    : result PartitionState :=
  match partition_letter c with
  | Some p => Ok p
  | None => Raise (InvalidMessageException c data)
  end.

(** The exceptions of a decoding failure inside a constructor. *)
Definition decode_error (data : string) (e : exn) : Prop :=
  e = ValueError ∨ e = TypeError ∨ ∃ c, e = InvalidMessageException c data.

(** The key under which the reports store the character at position [i]
    of their data. *)
Definition key_of (i : nat) : Z := Z.of_nat i + 1.

(** ** The monitor *)

(** The monitor with the object under [z] in [zone_status], the set under
    [z] in [zone_troubles], replaced. *)
Definition set_zone (s : StateMonitor) (z : Z) (zs : ZoneState)
    : StateMonitor :=
  mkStateMonitor (arming_status s) (<[z := zs]> (zone_status s))
    (zone_partitions s) (zone_troubles s).

Definition set_causes (s : StateMonitor) (z : Z) (causes : gset string)
    : StateMonitor :=
  mkStateMonitor (arming_status s) (zone_status s) (zone_partitions s)
    (<[z := causes]> (zone_troubles s)).

(** What the handlers leave in [self], as functions of the zone (and the
    event name) and of [self] before; a handler that raises leaves [self]
    as it was. *)
Definition alarm_effect (z : Z) (s : StateMonitor) : StateMonitor :=
  match zone_status s !! z with
  | Some zs => if alarm zs then s else set_zone s z (set_alarm true zs)
  | None => s
  end.

Definition alarm_restore_effect (z : Z) (s : StateMonitor) : StateMonitor :=
  match zone_status s !! z with
  | Some zs => if alarm zs then set_zone s z (set_alarm false zs) else s
  | None => s
  end.

Definition bypass_effect (z : Z) (s : StateMonitor) : StateMonitor :=
  match zone_status s !! z with
  | Some zs => if bypassed zs then s else set_zone s z (set_bypassed true zs)
  | None => s
  end.

Definition unbypass_effect (z : Z) (s : StateMonitor) : StateMonitor :=
  match zone_status s !! z with
  | Some zs => if bypassed zs then set_zone s z (set_bypassed false zs) else s
  | None => s
  end.

Definition trouble_effect (z : Z) (name : string) (s : StateMonitor)
    : StateMonitor :=
  match zone_status s !! z, zone_troubles s !! z with
  | Some zs, Some causes =>
      if trouble zs then
        if bool_decide (name ∈ causes) then s
        else set_causes s z (causes ∪ {[name]})
      else set_zone (set_causes s z (causes ∪ {[name]})) z
             (set_trouble true zs)
  | _, _ => s
  end.

Definition trouble_restore_effect (z : Z) (name : string)
    (s : StateMonitor) : StateMonitor :=
  match zone_status s !! z, zone_troubles s !! z with
  | Some zs, Some causes =>
      if trouble zs then
        if bool_decide (name ∈ causes) then
          let s' := set_causes s z (causes ∖ {[name]}) in
          if bool_decide (causes ∖ {[name]} = ∅)
          then set_zone s' z (set_trouble false zs) else s'
        else
          if bool_decide (causes = ∅)
          then set_zone s z (set_trouble false zs) else s
      else s
  | _, _ => s
  end.

(** The kinds of event a handler of [_handle_event] looks up the zone
    for, and the two kinds whose handlers raise. *)
Definition zone_handled (evt : EventTypes) : bool :=
  isinstance evt AlarmEvent || isinstance evt OtherAlarmRestore
  || isinstance evt RfLowBattery || isinstance evt OtherTrouble
  || isinstance evt LowBattery || isinstance evt RfLowBatteryRestore
  || isinstance evt OtherTroubleRestore || isinstance evt LowBatteryRestore
  || isinstance evt OtherBypass || isinstance evt OtherUnbypass.

Definition is_fault (evt : EventTypes) : bool :=
  isinstance evt FaultEvent || isinstance evt FaultRestoreEvent.

Definition effect (evt : EventTypes) (s : StateMonitor) : StateMonitor :=
  let z := evt_zone_or_user evt in
  if isinstance evt AlarmEvent then alarm_effect z s
  else if isinstance evt OtherAlarmRestore then alarm_restore_effect z s
  else if isinstance evt RfLowBattery || isinstance evt OtherTrouble
          || isinstance evt LowBattery
  then trouble_effect z (evt_NAME evt) s
  else if isinstance evt RfLowBatteryRestore
          || isinstance evt OtherTroubleRestore
          || isinstance evt LowBatteryRestore
  then trouble_restore_effect z (evt_NAME evt) s
  else if isinstance evt OtherBypass then bypass_effect z s
  else if isinstance evt OtherUnbypass then unbypass_effect z s
  else s.

(** The kinds [_handle_event] has no handler for. *)
Definition unhandled_kinds : list EventClass :=
  [ SystemEvent; ArmDisarmEvent; ArmStay; Disarm; Arm; AcFail; AcRestore;
    AlarmCancel; DayNightAlarm; DayNightRestore; FailToDisarm; FailToArm;
    LowBatteryExtended; LowBatteryRestoreExtended ].

(** The three snapshot maps are all non-empty. *)
Definition populated (s : StateMonitor) : Prop :=
  arming_status s ≠ ∅ ∧ zone_status s ≠ ∅ ∧ zone_partitions s ≠ ∅.

(** The messages [run] only logs: the echoes of commands, the requests
    and the unknown messages. *)
Definition only_logged (f : Fields) : bool :=
  match f with
  | ArmAwayMessage _ _ | ArmHomeMessage _ _ | DisarmMessage _ _
  | UnknownMessage _ _ | ArmingStatusRequest | ZoneStatusRequest
  | ZonePartitionRequest => true
  | _ => false
  end.

(** The number of records logged at error level. *)
Definition errors (w : World) : nat :=
  length (List.filter (fun r => bool_decide (r.1 = ERROR)) (records w)).

(** A stream of the three snapshots. *)
Definition snapshots : list MessagePacket :=
  [ message (ArmingStatusReport {[1 := HOME]});
    message (ZoneStatusReport {[1 := ZoneState_init 0]});
    message (ZonePartitionReport {[1 := 2]}) ].

End Terms.

(** * examples/pushover_example.py: the message store and the retries *)

Module Pushover.

(** [MessageStore]: the list [_messages]; the lock serialises the two
    methods, each of which is one step here. *)
Definition MessageStore : Type := list string.

Definition MessageStore_init : MessageStore := [].

(** [add(msg)] appends. *)
Definition add (self : MessageStore) (msg : string) : MessageStore :=
  self ++ [msg].

(** [get_all()] swaps the list for an empty one and returns it: the
    result and the store left. *)
Definition get_all (self : MessageStore) : list string * MessageStore :=
  (self, []).

(** The [proxies] argument of a [PushoverNotifier]: [None] or a dict. *)
Inductive Proxies : Type :=
| NoProxies
| ProxyDict (d : list (string * string)).

(** Truth value: [None] and the empty dict are false. *)
Definition truthy (p : Proxies) : bool :=
  match p with
  | ProxyDict (_ :: _) => true
  | _ => false
  end.

(** The dict [d] passed to [_send_pushover]: the entries of [d['data']],
    and the value under ['proxies'] when that key is present. *)
Record Params : Type := mkParams {
  data_token : string;
  data_user : string;
  data_title : string;
  data_message : string;
  data_retry : Z;
  data_sound : option string;
  proxies : option Proxies;
}.

Record PushoverNotifier : Type := mkPushoverNotifier {
  _app_token : string;
  _user_key : string;
  _proxies : Proxies;
  _dry_run : bool;
}.

Inductive Severity : Type :=
| LOG_INFO
| LOG_WARNING
| LOG_CRITICAL.

Definition Log : Type := list (Severity * string).

(** [_do_notify_pushover(title, message, sound)].  [_send_pushover] posts
    to the network and raises an [Exception] when the post or its answer
    is bad; [net i] tells whether the call number [i] of this
    notification returns.  The result is the list of the dicts that
    [_send_pushover] was called with, in order, and the records logged by
    this method (the format strings). *)
Definition _do_notify_pushover (self : PushoverNotifier) (net : nat → bool)
    (title message : string) (sound : option string) : list Params * Log :=
  let d :=
    mkParams (_app_token self) (_user_key self) title message 300 sound
      None in
  let sending := (LOG_INFO, "Sending Pushover notification: %s"%string) in
  let failed := (LOG_CRITICAL, "send_pushover raised exception"%string) in
  let failed' :=
    (LOG_CRITICAL, "send_pushover via proxy raised exception"%string) in
  if _dry_run self then
    ([], [sending; (LOG_WARNING, "DRY RUN - don't actually send"%string)])
  else if net 0%nat then ([d], [sending])
  else if net 1%nat then ([d; d], [sending; failed])
  else if truthy (_proxies self) then
    ([d; d],
     [sending; failed; failed;
      (LOG_CRITICAL,
       "send_pushover failed on all attempts and proxies is empty!"%string)])
  else
    let d' :=
      mkParams (_app_token self) (_user_key self) title message 300 sound
        (Some (_proxies self)) in
    if net 2%nat then ([d; d; d'], [sending; failed; failed])
    else if net 3%nat then
      ([d; d; d'; d'], [sending; failed; failed; failed'])
    else ([d; d; d'; d'], [sending; failed; failed; failed'; failed']).

(** The line feed of ['\n'.join(messages)]. *)
Definition LF : string := String (ascii_of_nat 10) EmptyString.

(** [_handle_messages(messages)]. *)
Definition _handle_messages (self : PushoverNotifier) (net : nat → bool)
    (messages : list string) : list Params * Log :=
  let title :=
    if (length messages =? 1)%nat then "1 Alarm Message"%string
    else (str_int (Z.of_nat (length messages)) +:+ " Alarm Messages")%string
  in
  _do_notify_pushover self net title (join LF messages) None.

(** One turn of the loop of [PushoverNotifier.run], the [sleep] apart:
    the store left, the calls of [_send_pushover] and the records. *)
Definition run_turn (self : PushoverNotifier) (net : nat → bool)
    (store : MessageStore) : MessageStore * (list Params * Log) :=
  let '(messages, store') := get_all store in
  match messages with
  | [] => (store', ([], []))
  | _ :: _ =>
      let '(posts, records) := _handle_messages self net messages in
      (store',
       (posts, (LOG_INFO, "Got %d messages to handle"%string) :: records))
  end.

End Pushover.

(** * Properties *)

Import Events Messages Monitor Spec.

(** ** The codec *)

Module CodecFacts.

(** The frame of the test suite for a system event passes the length and
    the checksum validation and has well-formed data. *)
Lemma system_event_frame_valid :
  _parse_message "14NQ2B14231021020038" = Ok ("N"%char, "Q"%char, "2B1423102102"%string).
Proof. vm_compute. reflexivity. Qed.

(** Whatever the frame, the constructor of [SystemEventNotification]
    raises [TypeError] once the event code and the subject are read. *)
Lemma SystemEventNotification_init_raises raw_message data from_panel code subject :
  int (slice data (Some 0) (Some 2)) 16 = Ok code →
  int10 (slice data (Some 2) (Some 4)) = Ok subject →
  SystemEventNotification_init raw_message data from_panel = Raise TypeError.
Proof.
  intros Hcode Hsubject. unfold SystemEventNotification_init.
  rewrite Hcode. cbn. rewrite Hsubject. reflexivity.
Qed.

(** C1 (code defect). The claim: a valid N/Q frame with well-formed data
    decodes to a [SystemEventNotification] without raising.  The code:
    the frame ['14NQ2B14231021020038'] of the test suite passes the length
    and checksum validation, its data is [2B 14 23 10 21 02], and [parse]
    raises [TypeError], because [SystemEventNotification.__init__] calls
    [event_for_code] with two of its three required arguments.  With the
    third argument the event would be the [FaultEvent] the test expects. *)
Theorem parse_system_event_raises_TypeError :
  _parse_message "14NQ2B14231021020038" = Ok ("N"%char, "Q"%char, "2B1423102102"%string)
  ∧ parse "14NQ2B14231021020038" = Raise TypeError
  ∧ event_for_code 0x2b 14 ∅ = Event FaultEvent 14 None.
Proof. vm_compute. auto. Qed.

(** Past the length check, [_parse_message] raises a checksum error
    exactly when the trailer differs from the ['%2X'] rendering of the
    checksum value. *)
Lemma _parse_message_checksum_error_iff frame :
  length_matches frame →
  (∃ e c, _parse_message frame = Raise (MessageChecksumException e c))
  ↔ trailer frame ≠ format_2X (checksum_value frame).
Proof.
  unfold length_matches, _parse_message, trailer, checksum_value.
  intros ->. cbn. rewrite Z.eqb_refl. cbn.
  destruct (String.eqb_spec
    (format_2X (Z.land (- (sum_ord (slice frame None (Some (-2))) mod 256)) 255))
    (slice frame (Some (-2)) None)) as [Heq|Hne]; cbn.
  - split; [|congruence]. intros (e & c & H).
    unfold index in H.
    destruct (String.get 2 frame); cbn in H; [|discriminate H].
    destruct (String.get 3 frame); cbn in H; discriminate H.
  - split; [congruence|]. intros _. eauto.
Qed.

(** The two renderings agree on a checksum value of two hex digits and
    differ below 16, where ['%2X'] fills with a space. *)
Lemma format_2X_two_digits n :
  16 ≤ n ≤ 255 → format_2X n = format_02X n.
Proof.
  intros Hn.
  assert (Hall : forallb (fun k => String.eqb (format_2X k) (format_02X k))
                   (List.map Z.of_nat (seq 16 240)) = true)
    by (vm_compute; reflexivity).
  rewrite forallb_forall in Hall.
  apply String.eqb_eq, Hall, in_map_iff.
  exists (Z.to_nat n). split; [lia|]. apply in_seq. lia.
Qed.

Lemma format_2X_one_digit n :
  0 ≤ n ≤ 15 →
  format_2X n = String " " (hex_upper n)
  ∧ format_02X n = String "0" (hex_upper n).
Proof.
  intros Hn.
  assert (Hall : forallb
            (fun k => String.eqb (format_2X k) (String " " (hex_upper k))
                      && String.eqb (format_02X k) (String "0" (hex_upper k)))
            (List.map Z.of_nat (seq 0 16)) = true)
    by (vm_compute; reflexivity).
  rewrite forallb_forall in Hall.
  specialize (Hall n). rewrite andb_true_iff, !String.eqb_eq in Hall.
  apply Hall, in_map_iff.
  exists (Z.to_nat n). split; [lia|]. apply in_seq. lia.
Qed.

(** The three request literals are accepted. *)
Lemma generated_requests_accepted :
  parse ArmingStatusRequest_generate
    = Ok (mkMessagePacket "08as0064" "" false ArmingStatusRequest)
  ∧ parse ZoneStatusRequest_generate
    = Ok (mkMessagePacket "08zs004B" "" false ZoneStatusRequest)
  ∧ parse ZonePartitionRequest_generate
    = Ok (mkMessagePacket "08zp004E" "" false ZonePartitionRequest).
Proof. vm_compute. auto. Qed.

(** C2 (code defect). The claim: past the length check, a frame is
    rejected with a checksum error if and only if its trailer differs from
    the checksum rendered as 2 upper-case hex digits.  The code renders
    the checksum with ['%2X'], which fills with a space: the frame
    ['0AASHH000B'] has the declared length 10, its checksum value is 11
    and its trailer is the two hex digits ['0B'], and [parse] raises a
    checksum error, having computed [' B']. *)
Theorem parse_rejects_one_digit_checksum :
  length_matches "0AASHH000B"
  ∧ checksum_value "0AASHH000B" = 11
  ∧ trailer "0AASHH000B" = spec_checksum "0AASHH000B"
  ∧ parse "0AASHH000B" = Raise (MessageChecksumException "0B" " B").
Proof. vm_compute. auto. Qed.

(** The test-suite frames for arm-away, in both directions. *)
Example parse_arm_away :
  parse "0EAA0223450079"
    = Ok (mkMessagePacket "0EAA0223450079" "022345" true
            (ArmAwayMessage 2 "2345"))
  ∧ parse "0Eaa0223450039"
    = Ok (mkMessagePacket "0Eaa0223450039" "022345" false
            (ArmAwayMessage 2 "2345")).
Proof. vm_compute. auto. Qed.

(** [parse] after a successful [_parse_message]. *)
Lemma parse_unfold raw_message msgtype subtype data :
  _parse_message raw_message = Ok (msgtype, subtype, data) →
  parse raw_message =
    match dispatch msgtype subtype with
    | Some k => init k raw_message data (char_in msgtype ascii_uppercase)
    | None =>
        Ok (mkMessagePacket raw_message data
              (char_in msgtype ascii_uppercase)
              (UnknownMessage msgtype subtype))
    end.
Proof. intros H. unfold parse. rewrite H. reflexivity. Qed.

(** Every constructor of the registry stores its three arguments. *)
Lemma init_common k raw data fp m :
  In k subclasses →
  init k raw data fp = Ok m →
  raw_message m = raw ∧ _data m = data ∧ from_panel m = fp.
Proof.
  intros Hin. cbn in Hin.
  repeat (destruct Hin as [<-|Hin]; [cbn [init]|]); try contradiction;
    unfold ArmAwayMessage_init, ArmHomeMessage_init, DisarmMessage_init,
      user_message, ArmingStatusRequest_init, ArmingStatusReport_init,
      ZoneStatusRequest_init, ZoneStatusReport_init,
      ZonePartitionRequest_init, ZonePartitionReport_init,
      SystemEventNotification_init, UnknownMessage_init3;
    repeat (match goal with
            | |- context [mbind _ ?r] => destruct r; cbn [mbind result_bind]
            end);
    intros H; inversion H; auto.
Qed.

(** [from_panel] is decided by the type character alone. *)
Lemma parse_from_panel raw_message m msgtype subtype data :
  _parse_message raw_message = Ok (msgtype, subtype, data) →
  parse raw_message = Ok m →
  from_panel m = char_in msgtype ascii_uppercase ∧ _data m = data.
Proof.
  intros Hp. rewrite (parse_unfold _ _ _ _ Hp).
  destruct (dispatch msgtype subtype) as [k|] eqn:Hk.
  - unfold dispatch in Hk. apply find_some in Hk as [Hin _].
    intros Hm. apply init_common in Hm as (_ & ? & ?); auto.
  - intros Hm. inversion Hm. auto.
Qed.

(** Every N/Q frame that passes the validation and starts with an event
    code and a subject is rejected with [TypeError]. *)
Lemma parse_system_event_raises raw_message data code subject :
  _parse_message raw_message = Ok ("N"%char, "Q"%char, data) →
  int (slice data (Some 0) (Some 2)) 16 = Ok code →
  int10 (slice data (Some 2) (Some 4)) = Ok subject →
  parse raw_message = Raise TypeError.
Proof.
  intros Hp Hcode Hsubject. rewrite (parse_unfold _ _ _ _ Hp).
  change (dispatch "N" "Q") with
    (Some (mkKlass "SystemEventNotification" ["N"%char] ["Q"%char]
             SystemEventNotification_init)).
  cbn [init]. eauto using SystemEventNotification_init_raises.
Qed.

(** C9 (counterexample). The pair (a, s) is registered, for
    [ArmingStatusRequest], in lower case only: the frame with the
    lower-case type letter is an [ArmingStatusRequest], the same frame with
    the upper-case type letter is an [UnknownMessage], and with both
    letters in upper case it is an [ArmingStatusReport].  The variants
    differ. *)
Lemma direction_changes_variant_of_request :
  __name__ <$> dispatch "a" "s" = Some "ArmingStatusRequest"%string
  ∧ ∃ m_lower m_upper m_upper2,
      parse "08as0064" = Ok m_lower
      ∧ parse "08As0084" = Ok m_upper
      ∧ parse "08AS00A4" = Ok m_upper2
      ∧ from_panel m_lower = false
      ∧ from_panel m_upper = true
      ∧ from_panel m_upper2 = true
      ∧ _data m_lower = _data m_upper
      ∧ _data m_lower = _data m_upper2
      ∧ fields m_lower = ArmingStatusRequest
      ∧ fields m_upper = UnknownMessage "A" "s"
      ∧ fields m_upper2 = ArmingStatusReport ∅
      ∧ fields m_upper ≠ fields m_lower
      ∧ fields m_upper2 ≠ fields m_lower.
Proof.
  split; [vm_compute; reflexivity|].
  eexists _, _, _.
  repeat (split; [vm_compute; reflexivity|]).
  split; cbn; discriminate.
Qed.

End CodecFacts.

(** ** The event taxonomy *)

Module EventFacts.

(** The class tree is three levels deep: more fuel finds no more
    subclasses. *)
Lemma subclasses_recursive_stable n :
  subclasses_recursive_fuel (3 + n) SystemEvent
  = subclasses_recursive SystemEvent.
Proof. vm_compute. reflexivity. Qed.

(** The classes that assign a [CODE] themselves have distinct codes. *)
Lemma concrete_codes_distinct : NoDup (List.map CODE concrete_kinds).
Proof.
  apply (bool_decide_unpack _). vm_compute. exact I.
Qed.

(** The two grouping classes assign no [CODE] and inherit 0. *)
Lemma grouping_classes_inherit_code :
  own_CODE AlarmEvent = None ∧ own_CODE ArmDisarmEvent = None
  ∧ CODE AlarmEvent = CODE SystemEvent
  ∧ CODE ArmDisarmEvent = CODE SystemEvent.
Proof. vm_compute. auto. Qed.

(** The dispatch never builds a [PerimeterAlarm]: code 0 stops at
    [AlarmEvent], which comes first. *)
Lemma event_for_code_0 zone_or_user zones :
  event_for_code 0 zone_or_user zones
  = Event AlarmEvent zone_or_user (zones !! zone_or_user).
Proof. reflexivity. Qed.

(** C3 (code defect). The claim: no two classes of the dispatch of
    [event_for_code] share a [CODE].  The code: [AlarmEvent],
    [ArmDisarmEvent] and [PerimeterAlarm] are three different members of
    [subclasses_recursive(SystemEvent)] and all have [CODE] 0, the first
    two by inheritance; [event_for_code(0, 1, {})] returns an [AlarmEvent],
    whose name is the inherited ['Unknown Event'], not the
    [PerimeterAlarm] that is declared with code 0. *)
Theorem event_codes_shared :
  In AlarmEvent known_kinds ∧ In ArmDisarmEvent known_kinds
  ∧ In PerimeterAlarm known_kinds
  ∧ CODE AlarmEvent = 0 ∧ CODE ArmDisarmEvent = 0 ∧ CODE PerimeterAlarm = 0
  ∧ ¬ NoDup (List.map CODE known_kinds)
  ∧ event_for_code 0 1 ∅ = Event AlarmEvent 1 None
  ∧ NAME AlarmEvent = "Unknown Event"%string.
Proof.
  assert (Hin : ∀ k, bool_decide (k ∈ known_kinds) = true → In k known_kinds).
  { intros k Hk. apply list_elem_of_In. exact (bool_decide_eq_true_1 _ Hk). }
  repeat (split; [apply Hin; vm_compute; reflexivity|]).
  repeat (split; [vm_compute; reflexivity|]).
  split; [|vm_compute; auto].
  intros Hnd. apply NoDup_cons in Hnd as [Hnotin _].
  apply Hnotin. apply (bool_decide_unpack _). vm_compute. exact I.
Qed.

End EventFacts.

(** ** Zone states *)

Module ZoneStateFacts.

Example ZoneState_str_examples :
  ZoneState_str (ZoneState_init 0) = "CLOSED"%string
  ∧ ZoneState_str (ZoneState_init 1) = "OPEN"%string
  ∧ ZoneState_str (ZoneState_init 7) = "OPEN|TROUBLE|ALARM"%string
  ∧ ZoneState_str (ZoneState_init 11) = "OPEN|TROUBLE|BYPASSED"%string.
Proof. vm_compute. auto. Qed.

(** C8. For a value from 0 to 15, [ZoneState(value)] has [closed] iff bit
    0 is clear, [open] iff bit 0 is set, [trouble] iff bit 1, [alarm] iff
    bit 2 and [bypassed] iff bit 3 is set, and its string is the names of
    the flags that are set, joined by ['|'] in the order closed/open,
    trouble, alarm, bypassed. *)
Theorem ZoneState_bits v :
  0 ≤ v ≤ 15 →
  closed (ZoneState_init v) = negb (Z.testbit v 0)
  ∧ open (ZoneState_init v) = Z.testbit v 0
  ∧ trouble (ZoneState_init v) = Z.testbit v 1
  ∧ alarm (ZoneState_init v) = Z.testbit v 2
  ∧ bypassed (ZoneState_init v) = Z.testbit v 3
  ∧ ZoneState_str (ZoneState_init v) = join "|" (flag_names v).
Proof.
  intros Hv.
  assert (Hcases : In v (List.map Z.of_nat (seq 0 16))).
  { apply in_map_iff. exists (Z.to_nat v). split; [lia|]. apply in_seq. lia. }
  cbn in Hcases.
  repeat (destruct Hcases as [<-|Hcases]; [vm_compute; auto 10|]).
  contradiction.
Qed.

Lemma ZoneState_bits_witness :
  0 ≤ 11 ≤ 15
  ∧ closed (ZoneState_init 11) = false
  ∧ open (ZoneState_init 11) = true
  ∧ trouble (ZoneState_init 11) = true
  ∧ alarm (ZoneState_init 11) = false
  ∧ bypassed (ZoneState_init 11) = true
  ∧ ZoneState_str (ZoneState_init 11) = "OPEN|TROUBLE|BYPASSED"%string.
Proof.
  split; [lia|].
  apply (ZoneState_bits 11). lia.
Defined.

End ZoneStateFacts.

(** ** The state monitor *)

Module MonitorFacts.

(** Unfolding of monitor code applied to a world. *)
Ltac unfold_M :=
  cbv [ _handle_alarm _handle_alarm_restore _handle_zone_trouble
        _handle_zone_trouble_restore _handle_zone_bypass _handle_zone_unbypass
        _handle_zone_fault _handle_zone_fault_restore
        zone_status_item zone_troubles_item zone_status_setattr
        zone_troubles_add zone_troubles_remove getitem get put logger raise
        mbind M_bind mret M_ret ].

Ltac M_cases :=
  unfold_M; repeat (case_match; simplify_eq/=; try done).

Lemma set_alarm_flip zs b :
  alarm zs = negb b → set_alarm b zs = set_alarm (negb (alarm zs)) zs.
Proof. intros ->. by rewrite negb_involutive. Qed.

Lemma set_bypassed_flip zs b :
  bypassed zs = negb b → set_bypassed b zs = set_bypassed (negb (bypassed zs)) zs.
Proof. intros ->. by rewrite negb_involutive. Qed.

(** *** What each handler does to [self] *)

Lemma _handle_alarm_transition evt w :
  transition (evt_zone_or_user evt) (self w) (self (_handle_alarm evt w).1).
Proof.
  destruct w as [s recs]. M_cases; try apply transition_none.
  rewrite (set_alarm_flip _ true) by done. by apply transition_alarm.
Qed.

Lemma _handle_alarm_restore_transition evt w :
  transition (evt_zone_or_user evt) (self w)
    (self (_handle_alarm_restore evt w).1).
Proof.
  destruct w as [s recs]. M_cases; try apply transition_none.
  rewrite (set_alarm_flip _ false) by done. by apply transition_alarm.
Qed.

Lemma _handle_zone_bypass_transition evt w :
  transition (evt_zone_or_user evt) (self w)
    (self (_handle_zone_bypass evt w).1).
Proof.
  destruct w as [s recs]. M_cases; try apply transition_none.
  rewrite (set_bypassed_flip _ true) by done. by apply transition_bypassed.
Qed.

Lemma _handle_zone_unbypass_transition evt w :
  transition (evt_zone_or_user evt) (self w)
    (self (_handle_zone_unbypass evt w).1).
Proof.
  destruct w as [s recs]. M_cases; try apply transition_none.
  rewrite (set_bypassed_flip _ false). 
  - by apply transition_bypassed.
  - by destruct (bypassed _).
Qed.

Lemma _handle_zone_trouble_transition evt w :
  transition (evt_zone_or_user evt) (self w)
    (self (_handle_zone_trouble evt w).1).
Proof.
  destruct w as [s recs]. M_cases; try apply transition_none.
  - eapply transition_trouble_more; eauto.
    by eapply bool_decide_eq_false_1.
  - eapply transition_trouble_first; eauto.
Qed.

Lemma _handle_zone_trouble_restore_transition evt w :
  transition (evt_zone_or_user evt) (self w)
    (self (_handle_zone_trouble_restore evt w).1).
Proof.
  destruct w as [s recs]. M_cases; try apply transition_none.
  all: repeat match goal with
         | H : bool_decide _ = true |- _ => apply bool_decide_eq_true in H
         | H : bool_decide _ = false |- _ => apply bool_decide_eq_false in H
         | H : negb _ = true |- _ => apply negb_true_iff in H
         | H : negb _ = false |- _ => apply negb_false_iff in H
         end.
  all: simplify_map_eq.
  all: try (by eapply transition_restore_empty; eauto).
  all: try (by eapply transition_restore_last; eauto).
  all: try (by eapply transition_restore_cause; eauto).
Qed.

(** Sequencing after a log record. *)
Lemma logger_then {A} lvl fmt (m : M A) w :
  (logger lvl fmt;; m) w = m (mkWorld (self w) (records w ++ [(lvl, fmt)])).
Proof. reflexivity. Qed.

Lemma _handle_event_transition evt w :
  transition (evt_zone_or_user evt) (self w) (self (_handle_event evt w).1).
Proof.
  unfold _handle_event. rewrite logger_then.
  set (w' := mkWorld (self w) _).
  change (self w) with (self w').
  repeat case_match;
    auto using _handle_alarm_transition, _handle_alarm_restore_transition,
      _handle_zone_trouble_transition, _handle_zone_trouble_restore_transition,
      _handle_zone_bypass_transition, _handle_zone_unbypass_transition;
    apply transition_none.
Qed.

(** *** The fault events *)

(** C7 (amended). For every [FaultEvent] and every [FaultRestoreEvent],
    for a known zone or not, the monitor mutates no state, writes one
    record, at debug level, and raises [NotImplementedError]; [run] does
    not catch it, so that the loop ends there and the messages that follow
    are not processed. *)
Theorem fault_event_ends_run raw data from_panel code subject minute hour day
    month z name rest is_ready w :
  let fault := Event FaultEvent z name in
  let restore := Event FaultRestoreEvent z name in
  let packet evt :=
    mkMessagePacket raw data from_panel
      (SystemEventNotification code subject evt minute hour day month) in
  let w' :=
    mkWorld (self w)
      (records w ++ [(DEBUG, "Got System Event Notification: %s"%string)]) in
  run_loop (packet fault :: rest) is_ready w
    = (w', Raise (NotImplementedError
                    "Not implemented; also how to handle NC/NO zones?"))
  ∧ run_loop (packet restore :: rest) is_ready w
    = (w', Raise (NotImplementedError "not implemented - also NC/NO?")).
Proof. split; reflexivity. Qed.

(** C7 (counterexample). Zone 14 is known from a snapshot; a fault
    event for it is followed by an arming report.  [run] ends with the
    [NotImplementedError]: no record of error severity is written, and the
    arming report that follows is not processed, [arming_status] is still
    empty.  No state was mutated by the event. *)
Lemma fault_event_not_logged_run_stops :
  (run fault_stream initial_world).2
    = Raise (NotImplementedError
               "Not implemented; also how to handle NC/NO zones?")
  ∧ Forall (fun r => r.1 ≠ ERROR) (records (run fault_stream initial_world).1)
  ∧ arming_status (after fault_stream) = ∅
  ∧ arming_status (after [message (ArmingStatusReport {[1 := HOME]})])
    = {[1 := HOME]}
  ∧ after fault_stream = after (take 1 fault_stream).
Proof.
  split; [reflexivity|].
  split; [|repeat split; vm_compute; reflexivity].
  vm_compute. repeat constructor; discriminate.
Qed.

(** *** Messages *)

Lemma update_ready_self is_ready w :
  self (update_ready is_ready w).1 = self w.
Proof. unfold update_ready. unfold_M. by case_match. Qed.

Lemma run_body_self message is_ready w :
  self (run_body message is_ready w).1 = self (handle_message message w).1.
Proof.
  unfold run_body. cbv [mbind M_bind].
  destruct (handle_message message w) as [w' [[]|e]]; cbn; [|done].
  apply update_ready_self.
Qed.

Lemma handle_zone_status_report_self message zones w :
  fields message = ZoneStatusReport zones →
  self (handle_message message w).1
  = mkStateMonitor (arming_status (self w)) (zones ∪ zone_status (self w))
      (zone_partitions (self w))
      ((fun _ => ∅) <$> (zones ∪ zone_status (self w))).
Proof. unfold handle_message. intros ->. reflexivity. Qed.

(** C6 (amended). Processing a [ZoneStatusReport], the first or a later
    one, merges its zones into [zone_status] (the report wins on a common
    key) and replaces [zone_troubles] by a map that gives the empty cause
    set to every key of the merged [zone_status]: cause names accumulated
    before are dropped.  [arming_status] and [zone_partitions] are left
    unchanged and nothing is raised. *)
Theorem zone_status_report_resets_troubles raw data from_panel zones
    is_ready w :
  let out :=
    run_body (mkMessagePacket raw data from_panel (ZoneStatusReport zones))
      is_ready w in
  (∃ is_ready', out.2 = Ok is_ready')
  ∧ (∀ z, zone_status (self out.1) !! z
          = match zones !! z with
            | Some zs => Some zs
            | None => zone_status (self w) !! z
            end)
  ∧ (∀ z, zone_troubles (self out.1) !! z
          = (fun _ => ∅) <$> zone_status (self out.1) !! z)
  ∧ arming_status (self out.1) = arming_status (self w)
  ∧ zone_partitions (self out.1) = zone_partitions (self w).
Proof.
  cbn zeta. split.
  { unfold run_body, handle_message, update_ready. unfold_M. cbn.
    case_match; eauto. }
  rewrite run_body_self, (handle_zone_status_report_self _ zones) by done.
  cbn. repeat split; try done.
  - intros z. rewrite lookup_union. destruct (zones !! z), (zone_status (self w) !! z); done.
  - intros z. by rewrite lookup_fmap.
Qed.

(** C6 (counterexample). After a first snapshot and a low-battery event,
    zone 1 has the cause ['RF Low Battery']; a second snapshot leaves it
    with the empty set. *)
Lemma second_snapshot_drops_causes :
  zone_troubles (after (take 2 trouble_stream)) !! 1
    = Some {["RF Low Battery"%string]}
  ∧ zone_troubles (after (take 2 trouble_stream ++ [snapshot_zone1])) !! 1
    = Some ∅
  ∧ zone_troubles (after (take 2 trouble_stream ++ [snapshot_zone1]))
    ≠ zone_troubles (after (take 2 trouble_stream)).
Proof.
  assert (H1 : zone_troubles (after (take 2 trouble_stream)) !! 1
               = Some {["RF Low Battery"%string]})
    by (vm_compute; reflexivity).
  assert (H2 : zone_troubles
                 (after (take 2 trouble_stream ++ [snapshot_zone1])) !! 1
               = Some ∅)
    by (vm_compute; reflexivity).
  split; [done|]. split; [done|].
  intros Heq. rewrite Heq, H1 in H2. discriminate H2.
Qed.

(** *** The trouble flag and the cause set *)

Lemma transition_causes_imply_trouble z s s' :
  transition z s s' → causes_imply_trouble s → causes_imply_trouble s'.
Proof.
  intros Ht Hinv z' zs' causes' Hzs Hcauses Hne.
  destruct Ht; cbn in *; try (by eapply Hinv).
  all: destruct (decide (z' = z)) as [->|Hz];
    simplify_map_eq; try done; try (by eapply Hinv).
Qed.

Lemma handle_message_causes_imply_trouble message w :
  causes_imply_trouble (self w) →
  causes_imply_trouble (self (handle_message message w).1).
Proof.
  intros Hinv.
  destruct (fields message) eqn:Hf;
    try (unfold handle_message; rewrite Hf; exact Hinv).
  - rewrite (handle_zone_status_report_self _ _ _ Hf).
    intros z zs causes Hzs Hcauses Hne.
    cbn [zone_troubles] in Hcauses. rewrite lookup_fmap in Hcauses.
    destruct (_ !! z); by simplify_eq/=.
  - unfold handle_message; rewrite Hf.
    eapply transition_causes_imply_trouble; [|exact Hinv].
    apply _handle_event_transition.
Qed.

Lemma run_loop_causes_imply_trouble messages is_ready w :
  causes_imply_trouble (self w) →
  causes_imply_trouble (self (run_loop messages is_ready w).1).
Proof.
  revert is_ready w.
  induction messages as [|message rest IH]; intros is_ready w Hinv;
    [exact Hinv|].
  cbn [run_loop]. cbv [mbind M_bind].
  pose proof (run_body_self message is_ready w) as Hself.
  pose proof (handle_message_causes_imply_trouble message w Hinv) as Hstep.
  rewrite <- Hself in Hstep.
  destruct (run_body message is_ready w) as [w' [is_ready'|e]]; cbn in *.
  - by apply IH.
  - exact Hstep.
Qed.

(** C4 (amended). In every state the monitor reaches from the initial
    empty state by any sequence of messages, for every zone present in
    both maps, a non-empty cause set implies that the trouble flag is
    true.  (The converse does not hold: a snapshot can report the trouble
    bit of a zone, and its cause set is then empty.) *)
Theorem causes_imply_trouble_reachable messages z zs causes :
  zone_status (after messages) !! z = Some zs →
  zone_troubles (after messages) !! z = Some causes →
  causes ≠ ∅ →
  trouble zs = true.
Proof.
  apply (run_loop_causes_imply_trouble messages false initial_world).
  intros z' zs' causes' Hzs. cbn in Hzs. by rewrite lookup_empty in Hzs.
Qed.

Lemma causes_imply_trouble_reachable_witness :
  zone_status (after (take 2 trouble_stream)) !! 1
    = Some (set_trouble true (ZoneState_init 0))
  ∧ zone_troubles (after (take 2 trouble_stream)) !! 1
    = Some {["RF Low Battery"%string]}
  ∧ trouble (set_trouble true (ZoneState_init 0)) = true.
Proof.
  assert (H1 : zone_status (after (take 2 trouble_stream)) !! 1
               = Some (set_trouble true (ZoneState_init 0)))
    by (vm_compute; reflexivity).
  assert (H2 : zone_troubles (after (take 2 trouble_stream)) !! 1
               = Some {["RF Low Battery"%string]})
    by (vm_compute; reflexivity).
  split; [exact H1|]. split; [exact H2|].
  apply (causes_imply_trouble_reachable (take 2 trouble_stream) 1
           (set_trouble true (ZoneState_init 0)) {["RF Low Battery"%string]}
           H1 H2).
  vm_compute. discriminate.
Defined.

(** C4 (counterexample). After the snapshot that reports zone 1 with the
    trouble bit, the zone is present in both maps, its trouble flag is
    true and its cause set is empty. *)
Lemma snapshot_in_trouble_has_no_cause :
  zone_status (after [snapshot_in_trouble]) !! 1 = Some (ZoneState_init 2)
  ∧ trouble (ZoneState_init 2) = true
  ∧ zone_troubles (after [snapshot_in_trouble]) !! 1 = Some ∅
  ∧ ¬ trouble_iff_causes (after [snapshot_in_trouble]).
Proof.
  assert (H1 : zone_status (after [snapshot_in_trouble]) !! 1
               = Some (ZoneState_init 2)) by (vm_compute; reflexivity).
  assert (H2 : zone_troubles (after [snapshot_in_trouble]) !! 1 = Some ∅)
    by (vm_compute; reflexivity).
  repeat split; try done.
  intros Hiff. destruct (Hiff 1 _ _ H1 H2) as [Hne _].
  by apply Hne.
Qed.

(** *** Trouble causes and their restores *)

(** The name of a restore event is not the name of a trouble event: the
    handler of restores looks for [evt.NAME] among cause names that the
    handler of troubles has stored. *)
Lemma restore_names_differ :
  NAME RfLowBatteryRestore ≠ NAME RfLowBattery
  ∧ NAME OtherTroubleRestore ≠ NAME OtherTrouble
  ∧ NAME LowBatteryRestore ≠ NAME LowBattery
  ∧ Forall (fun r => Forall (fun t => NAME r ≠ NAME t)
                       [RfLowBattery; OtherTrouble; LowBattery])
      [RfLowBatteryRestore; OtherTroubleRestore; LowBatteryRestore].
Proof. vm_compute. repeat split; repeat constructor; discriminate. Qed.

(** The handlers on a zone whose state is known. *)
Lemma _handle_zone_trouble_first evt w zs causes :
  zone_status (self w) !! evt_zone_or_user evt = Some zs →
  trouble zs = false →
  zone_troubles (self w) !! evt_zone_or_user evt = Some causes →
  self (_handle_zone_trouble evt w).1
  = mkStateMonitor (arming_status (self w))
      (<[evt_zone_or_user evt := set_trouble true zs]> (zone_status (self w)))
      (zone_partitions (self w))
      (<[evt_zone_or_user evt := causes ∪ {[evt_NAME evt]}]>
         (zone_troubles (self w))).
Proof. destruct w as [s recs]. cbn. intros Hzs Htr Hc. M_cases. Qed.

Lemma _handle_zone_trouble_more evt w zs causes :
  zone_status (self w) !! evt_zone_or_user evt = Some zs →
  trouble zs = true →
  zone_troubles (self w) !! evt_zone_or_user evt = Some causes →
  self (_handle_zone_trouble evt w).1
  = mkStateMonitor (arming_status (self w)) (zone_status (self w))
      (zone_partitions (self w))
      (<[evt_zone_or_user evt := causes ∪ {[evt_NAME evt]}]>
         (zone_troubles (self w))).
Proof.
  destruct w as [s recs]. cbn. intros Hzs Htr Hc. M_cases.
  destruct s; cbn in *. f_equal.
  rewrite insert_id; [done|].
  match goal with
  | Hin : bool_decide _ = true |- _ => apply bool_decide_eq_true in Hin
  end.
  rewrite (comm_L (∪)), subseteq_union_1_L; [done|].
  by apply singleton_subseteq_l.
Qed.

Lemma _handle_zone_trouble_restore_absent evt w zs causes :
  zone_status (self w) !! evt_zone_or_user evt = Some zs →
  trouble zs = true →
  zone_troubles (self w) !! evt_zone_or_user evt = Some causes →
  evt_NAME evt ∉ causes → causes ≠ ∅ →
  self (_handle_zone_trouble_restore evt w).1 = self w.
Proof.
  destruct w as [s recs]. cbn. intros ? ? ? Hnotin Hne. M_cases.
  all: repeat match goal with
         | H : bool_decide _ = true |- _ => apply bool_decide_eq_true in H
         | H : negb _ = false |- _ => apply negb_false_iff in H
         end; done.
Qed.

(** The dispatch of [_handle_event] on trouble and restore kinds. *)
Lemma _handle_event_trouble k z name w :
  k ∈ trouble_kinds →
  _handle_event (Event k z name) w
  = _handle_zone_trouble (Event k z name)
      (mkWorld (self w)
         (records w ++ [(DEBUG, "Got System Event Notification: %s"%string)])).
Proof.
  unfold trouble_kinds. intros Hk.
  repeat (apply elem_of_cons in Hk as [->|Hk]); try reflexivity.
  by apply elem_of_nil in Hk.
Qed.

Lemma _handle_event_restore k z name w :
  k ∈ restore_kinds →
  _handle_event (Event k z name) w
  = _handle_zone_trouble_restore (Event k z name)
      (mkWorld (self w)
         (records w ++ [(DEBUG, "Got System Event Notification: %s"%string)])).
Proof.
  unfold restore_kinds. intros Hk.
  repeat (apply elem_of_cons in Hk as [->|Hk]); try reflexivity.
  by apply elem_of_nil in Hk.
Qed.

(** The names of the trouble kinds are pairwise distinct, and no restore
    kind has the name of a trouble kind. *)
Lemma trouble_names k1 k2 r :
  k1 ∈ trouble_kinds → k2 ∈ trouble_kinds → r ∈ restore_kinds →
  (k1 ≠ k2 → NAME k1 ≠ NAME k2) ∧ NAME r ≠ NAME k1.
Proof.
  unfold trouble_kinds, restore_kinds. intros Hk1 Hk2 Hr.
  repeat (apply elem_of_cons in Hk1 as [->|Hk1]);
    try (by apply elem_of_nil in Hk1);
    repeat (apply elem_of_cons in Hk2 as [->|Hk2]);
    try (by apply elem_of_nil in Hk2);
    repeat (apply elem_of_cons in Hr as [->|Hr]);
    try (by apply elem_of_nil in Hr);
    split; try done; intros _; vm_compute; discriminate.
Qed.

(** Two distinct trouble events on a zone without trouble record their
    two names and raise the flag; whatever restores follow, the causes
    and the flag stay as they are. *)
Lemma trouble_restore_sequence w z zs k1 k2 r1 r2 name :
  zone_status (self w) !! z = Some zs →
  trouble zs = false →
  zone_troubles (self w) !! z = Some ∅ →
  k1 ∈ trouble_kinds → k2 ∈ trouble_kinds → k1 ≠ k2 →
  r1 ∈ restore_kinds → r2 ∈ restore_kinds →
  let w2 :=
    (_handle_event (Event k2 z name)
       (_handle_event (Event k1 z name) w).1).1 in
  let w3 := (_handle_event (Event r1 z name) w2).1 in
  let w4 := (_handle_event (Event r2 z name) w3).1 in
  zone_troubles (self w2) !! z = Some {[NAME k1; NAME k2]}
  ∧ size ({[NAME k1; NAME k2]} : gset string) = 2%nat
  ∧ zone_status (self w2) !! z = Some (set_trouble true zs)
  ∧ self w3 = self w2
  ∧ self w4 = self w2.
Proof.
  intros Hzs Htr Hc Hk1 Hk2 Hne Hr1 Hr2.
  set (w1 := (_handle_event (Event k1 z name) w).1).
  assert (Hw1 : self w1
    = mkStateMonitor (arming_status (self w))
        (<[z := set_trouble true zs]> (zone_status (self w)))
        (zone_partitions (self w))
        (<[z := {[NAME k1]}]> (zone_troubles (self w)))).
  { subst w1. rewrite _handle_event_trouble by done.
    erewrite (_handle_zone_trouble_first (Event k1 z name)) by done.
    cbn. by rewrite (left_id_L ∅ (∪)). }
  intros w2 w3 w4.
  assert (Hw2 : self w2
    = mkStateMonitor (arming_status (self w))
        (<[z := set_trouble true zs]> (zone_status (self w)))
        (zone_partitions (self w))
        (<[z := {[NAME k1; NAME k2]}]> (zone_troubles (self w)))).
  { subst w2. fold w1. rewrite _handle_event_trouble by done.
    erewrite (_handle_zone_trouble_more (Event k2 z name)
                _ (set_trouble true zs) {[NAME k1]});
      cbn [self evt_zone_or_user evt_NAME]; rewrite ?Hw1; cbn;
      rewrite ?lookup_insert_eq, ?insert_insert_eq; done. }
  assert (Hnames : NAME k1 ≠ NAME k2)
    by (by eapply (trouble_names k1 k2 r1)).
  assert (Hsize : size ({[NAME k1; NAME k2]} : gset string) = 2%nat).
  { rewrite size_union, !size_singleton; [done|].
    by apply disjoint_singleton_l, not_elem_of_singleton. }
  assert (Hrestore : ∀ r w', r ∈ restore_kinds → self w' = self w2 →
            self (_handle_event (Event r z name) w').1 = self w2).
  { intros r w' Hr Hw'. rewrite <- Hw'.
    rewrite _handle_event_restore by done.
    erewrite (_handle_zone_trouble_restore_absent (Event r z name)
                _ (set_trouble true zs) {[NAME k1; NAME k2]});
      cbn [self evt_zone_or_user evt_NAME]; rewrite ?Hw', ?Hw2; cbn;
      rewrite ?lookup_insert_eq; try done.
    - pose proof (trouble_names k1 k2 r Hk1 Hk2 Hr) as [_ Hn1].
      pose proof (trouble_names k2 k1 r Hk2 Hk1 Hr) as [_ Hn2].
      by rewrite not_elem_of_union, !not_elem_of_singleton.
    - intros Hempty. rewrite Hempty in Hsize. done. }
  split; [by rewrite Hw2; cbn; rewrite lookup_insert_eq|].
  split; [done|].
  split; [by rewrite Hw2; cbn; rewrite lookup_insert_eq|].
  assert (Hw3 : self w3 = self w2) by (by apply Hrestore).
  split; [done|]. by apply Hrestore.
Qed.

(** C5 (code defect). The claim: two distinct trouble events give a zone
    two causes and trouble; the matching restore of one leaves one cause
    and trouble; the restore of the other leaves none and clears trouble.
    The code, on zone 1 initialised without trouble, with the events
    RF-low-battery and other-trouble: the two causes are recorded and the
    flag is raised, as claimed; after the RF-low-battery restore the set
    still has its two elements; after the other-trouble restore as well,
    and the trouble flag is still true.  A restore event is looked up
    under its own name, ['RF Low Battery Restore'], which is never the
    name of a recorded cause. *)
Theorem restores_remove_no_cause :
  zone_status (after (take 1 trouble_stream)) !! 1 = Some (ZoneState_init 0)
  ∧ trouble (ZoneState_init 0) = false
  ∧ zone_troubles (after (take 1 trouble_stream)) !! 1 = Some ∅
  ∧ zone_troubles (after (take 3 trouble_stream)) !! 1
    = Some {["RF Low Battery"%string; "Other Trouble"%string]}
  ∧ trouble <$> zone_status (after (take 3 trouble_stream)) !! 1 = Some true
  ∧ zone_troubles (after (take 4 trouble_stream)) !! 1
    = Some {["RF Low Battery"%string; "Other Trouble"%string]}
  ∧ size <$> zone_troubles (after (take 4 trouble_stream)) !! 1 = Some 2%nat
  ∧ trouble <$> zone_status (after (take 4 trouble_stream)) !! 1 = Some true
  ∧ zone_troubles (after trouble_stream) !! 1
    = Some {["RF Low Battery"%string; "Other Trouble"%string]}
  ∧ trouble <$> zone_status (after trouble_stream) !! 1 = Some true
  ∧ (run trouble_stream initial_world).2 = Ok false.
Proof. repeat split; vm_compute; reflexivity. Qed.

(** *** Zone transitions and the numeric value *)

Lemma flip_alarm_one_flag zs :
  flags_changed zs (set_alarm (negb (alarm zs)) zs) = 1%nat.
Proof. by destruct zs as [n [] [] [] [] []]. Qed.

Lemma flip_bypassed_one_flag zs :
  flags_changed zs (set_bypassed (negb (bypassed zs)) zs) = 1%nat.
Proof. by destruct zs as [n [] [] [] [] []]. Qed.

Lemma flip_trouble_one_flag zs b :
  trouble zs = negb b → flags_changed zs (set_trouble b zs) = 1%nat.
Proof. destruct zs as [n [] [] [] [] []], b; by cbn. Qed.

(** Equality, ordering and [repr] read the numeric value only. *)
Lemma numeric_determines zs zs' :
  _state_numeric zs' = _state_numeric zs →
  ZoneState_repr zs' = ZoneState_repr zs
  ∧ ∀ other,
      ZoneState_eq zs' other = ZoneState_eq zs other
      ∧ ZoneState_eq other zs' = ZoneState_eq other zs
      ∧ ZoneState_lt zs' other = ZoneState_lt zs other
      ∧ ZoneState_lt other zs' = ZoneState_lt other zs
      ∧ ZoneState_le zs' other = ZoneState_le zs other
      ∧ ZoneState_gt zs' other = ZoneState_gt zs other
      ∧ ZoneState_ge zs' other = ZoneState_ge zs other.
Proof.
  unfold ZoneState_repr, ZoneState_le, ZoneState_gt, ZoneState_ge,
    ZoneState_eq, ZoneState_lt.
  intros ->. auto 10.
Qed.

(** The zone states after one event, against those before it. *)
Lemma transition_zone_status z s s' :
  transition z s s' →
  zone_status s' = zone_status s
  ∨ ∃ zs zs',
      zone_status s !! z = Some zs
      ∧ zone_status s' = <[z := zs']> (zone_status s)
      ∧ flags_changed zs zs' = 1%nat
      ∧ closed zs' = closed zs ∧ open zs' = open zs
      ∧ _state_numeric zs' = _state_numeric zs.
Proof.
  destruct 1; cbn [zone_status]; auto; right; eexists _, _;
    (split; [eassumption|]); (split; [reflexivity|]);
    (split; [|by repeat split]).
  all: first [ apply flip_alarm_one_flag
             | apply flip_bypassed_one_flag
             | by apply flip_trouble_one_flag ].
Qed.

End MonitorFacts.

(** * Further properties of the code *)

Import Generate Terms.

Module CodecProps.

(** Every character is in [all_ascii]: a property checked on the list
    holds of all characters. *)
Lemma all_ascii_complete c : In c all_ascii.
Proof.
  unfold all_ascii. apply in_map_iff. exists (nat_of_ascii c).
  split; [apply ascii_nat_embedding|].
  apply in_seq. pose proof (nat_ascii_bounded c). lia.
Qed.

Lemma forall_ascii (P : ascii → bool) :
  forallb P all_ascii = true → ∀ c, P c = true.
Proof.
  intros H c. rewrite forallb_forall in H.
  apply H, all_ascii_complete.
Qed.

Lemma forall_ascii2 (P : ascii → ascii → bool) :
  forallb (fun a => forallb (P a) all_ascii) all_ascii = true →
  ∀ a b, P a b = true.
Proof.
  intros H a b.
  apply (forall_ascii (P a)). revert a. by apply forall_ascii.
Qed.

(** [int] on one character: the value of the digit, or [ValueError]. *)
Lemma int_char_16 c :
  int_char c 16 = match hex_value c with
                  | Some d => Ok d
                  | None => Raise ValueError
                  end.
Proof.
  apply (bool_decide_eq_true_1 _). revert c. apply forall_ascii.
  vm_compute. reflexivity.
Qed.

Lemma int_char_10 c :
  int_char c 10 = match dec_value c with
                  | Some d => Ok d
                  | None => Raise ValueError
                  end.
Proof.
  apply (bool_decide_eq_true_1 _). revert c. apply forall_ascii.
  vm_compute. reflexivity.
Qed.

Lemma hex_value_range c d : hex_value c = Some d → 0 ≤ d ≤ 15.
Proof.
  assert (H : (fun c => match hex_value c with
                        | Some d => (0 <=? d) && (d <=? 15)
                        | None => true
                        end) c = true).
  { revert c. apply forall_ascii. vm_compute. reflexivity. }
  cbn beta in H. intros Hc. rewrite Hc in H. lia.
Qed.

Lemma dec_value_range c d : dec_value c = Some d → 0 ≤ d ≤ 9.
Proof.
  assert (H : (fun c => match dec_value c with
                        | Some d => (0 <=? d) && (d <=? 9)
                        | None => true
                        end) c = true).
  { revert c. apply forall_ascii. vm_compute. reflexivity. }
  cbn beta in H. intros Hc. rewrite Hc in H. lia.
Qed.

(** *** The loops over [enumerate(data)]

    The three report constructors run the same loop, with a different
    decoding [f] of one character; [loop] stands for one of them. *)
Section EnumerateLoop.

Context {V : Type}.
Variable f : ascii → result V.
Variable loop : Z → list ascii → gmap Z V → result (gmap Z V).
Hypothesis loop_nil : ∀ idx acc, loop idx [] acc = Ok acc.
Hypothesis loop_cons : ∀ idx c l acc,
  loop idx (c :: l) acc
  = match f c with
    | Ok v => loop (idx + 1) l (<[idx + 1 := v]> acc)
    | Raise e => Raise e
    end.

Lemma loop_ok l : ∀ idx acc m,
  loop idx l acc = Ok m →
  (∀ (i : nat) c, l !! i = Some c →
     ∃ v, f c = Ok v ∧ m !! (idx + key_of i) = Some v)
  ∧ (∀ k, ¬ (idx < k ≤ idx + Z.of_nat (length l)) → m !! k = acc !! k).
Proof.
  induction l as [|c l IH]; intros idx acc m Hloop.
  - rewrite loop_nil in Hloop. injection Hloop as <-.
    split; [intros i c Hi; by rewrite lookup_nil in Hi|done].
  - rewrite loop_cons in Hloop.
    destruct (f c) as [v|e] eqn:Hf; [|discriminate].
    apply IH in Hloop as [Hin Hout]. split.
    + intros [|i] c' Hi; cbn in Hi.
      * injection Hi as <-. exists v. split; [done|].
        unfold key_of. rewrite Hout by lia.
        replace (idx + (Z.of_nat 0 + 1)) with (idx + 1) by lia.
        by rewrite lookup_insert_eq.
      * destruct (Hin i c' Hi) as (v' & Hv' & Hm). exists v'.
        split; [done|]. rewrite <- Hm. f_equal. unfold key_of. lia.
    + intros k Hk. cbn [length] in Hk. rewrite Hout by lia.
      rewrite lookup_insert_ne; [done|lia].
Qed.

Lemma loop_raise l : ∀ idx acc e,
  loop idx l acc = Raise e →
  ∃ (i : nat) c, l !! i = Some c ∧ f c = Raise e
    ∧ ∀ (j : nat) c', (j < i)%nat → l !! j = Some c' → ∃ v, f c' = Ok v.
Proof.
  induction l as [|c l IH]; intros idx acc e Hloop.
  - by rewrite loop_nil in Hloop.
  - rewrite loop_cons in Hloop. destruct (f c) as [v|e'] eqn:Hf.
    + apply IH in Hloop as (i & c' & Hi & Hc' & Hbefore).
      exists (S i), c'. split; [done|]. split; [done|].
      intros [|j] c'' Hj Hl; cbn in Hl.
      * injection Hl as <-. eauto.
      * apply (Hbefore j); [lia|done].
    + injection Hloop as <-. exists 0%nat, c. split; [done|].
      split; [done|]. intros j c' Hj. lia.
Qed.

End EnumerateLoop.

Lemma zones_loop_cons idx c l acc :
  zones_loop idx (c :: l) acc
  = match zone_of_char c with
    | Ok v => zones_loop (idx + 1) l (<[idx + 1 := v]> acc)
    | Raise e => Raise e
    end.
Proof.
  cbn [zones_loop]. rewrite int_char_16. unfold zone_of_char.
  by destruct (hex_value c).
Qed.

Lemma partitions_loop_cons idx c l acc :
  partitions_loop idx (c :: l) acc
  = match partition_of_char c with
    | Ok v => partitions_loop (idx + 1) l (<[idx + 1 := v]> acc)
    | Raise e => Raise e
    end.
Proof.
  cbn [partitions_loop]. rewrite int_char_10. unfold partition_of_char.
  by destruct (dec_value c).
Qed.

Lemma partition_state_loop_cons data idx c l acc :
  partition_state_loop data idx (c :: l) acc
  = match partition_state_of_char data c with
    | Ok v => partition_state_loop data (idx + 1) l (<[idx + 1 := v]> acc)
    | Raise e => Raise e
    end.
Proof.
  cbn [partition_state_loop].
  unfold partition_state_of_char, partition_letter.
  by repeat destruct (Ascii.eqb c _).
Qed.

Lemma lookup_key_of_beyond {V} (m acc : gmap Z V) (l : list ascii) (i : nat) :
  (∀ k, ¬ (0 < k ≤ 0 + Z.of_nat (length l)) → m !! k = acc !! k) →
  l !! i = None → m !! key_of i = acc !! key_of i.
Proof.
  intros Hout Hi. apply Hout. apply lookup_ge_None in Hi.
  unfold key_of. lia.
Qed.

Lemma len_chars s : len s = Z.of_nat (length (chars s)).
Proof.
  unfold len, chars. f_equal.
  induction s as [|c s IH]; cbn; [done|by rewrite IH].
Qed.

(** X1. For data of characters with code points 0 to 255: a zone status
    report decodes its data as one hexadecimal digit per zone: the zone
    at position [i] (from 0) of the data is stored under the key [i + 1]
    with the state that digit encodes, there is no other key, and every
    character is one of [0-9], [a-f], [A-F]; a character that is none of
    these makes the constructor raise [ValueError]. *)
Theorem ZoneStatusReport_zones raw data fp :
  match ZoneStatusReport_init raw data fp with
  | Ok m =>
      raw_message m = raw ∧ _data m = data ∧ from_panel m = fp
      ∧ ∃ zones, fields m = ZoneStatusReport zones
        ∧ (∀ i : nat, zones !! key_of i
             = c ← chars data !! i; ZoneState_init <$> hex_value c)
        ∧ (∀ k, is_Some (zones !! k) → 1 ≤ k ≤ len data)
        ∧ Forall (fun c => is_Some (hex_value c)) (chars data)
  | Raise e =>
      e = ValueError ∧ ∃ c, In c (chars data) ∧ hex_value c = None
  end.
Proof.
  unfold ZoneStatusReport_init.
  pose (f := zone_of_char). pose proof zones_loop_cons as Hcons.
  destruct (zones_loop 0 (chars data) ∅) as [zones|e] eqn:Hloop;
    cbn [mbind result_bind].
  - apply (loop_ok f zones_loop (fun _ _ => eq_refl) Hcons) in Hloop
      as [Hin Hout].
    repeat (split; [done|]). exists zones. split; [done|].
    assert (Hdigits : Forall (fun c => is_Some (hex_value c)) (chars data)).
    { apply Forall_forall. intros c Hc.
      apply list_elem_of_lookup in Hc as [i Hi].
      destruct (Hin i c Hi) as (v & Hv & _).
      unfold f, zone_of_char, partition_of_char,
        partition_state_of_char in Hv.
      destruct (hex_value c); [eauto|discriminate]. }
    split; [|split; [|done]].
    + intros i. destruct (chars data !! i) as [c|] eqn:Hi; cbn.
      * destruct (Hin i c Hi) as (v & Hv & Hm). rewrite Z.add_0_l in Hm.
        rewrite Hm.
        unfold f, zone_of_char, partition_of_char,
          partition_state_of_char in Hv.
        destruct (hex_value c); by simplify_eq/=.
      * rewrite (lookup_key_of_beyond zones ∅ (chars data)) by done.
        apply lookup_empty.
    + intros k [v Hk]. rewrite len_chars.
      destruct (decide (0 < k ≤ 0 + Z.of_nat (length (chars data))));
        [lia|].
      rewrite Hout, lookup_empty in Hk by done. discriminate.
  - apply (loop_raise f zones_loop (fun _ _ => eq_refl) Hcons) in Hloop
      as (i & c & Hi & Hc & _).
    unfold f, zone_of_char, partition_of_char,
      partition_state_of_char in Hc.
    destruct (hex_value c) eqn:Hh; [discriminate|].
    injection Hc as <-. split; [done|]. exists c. split; [|done].
    apply list_elem_of_In. apply list_elem_of_lookup. eauto.
Qed.

(** X2. For data of characters with code points 0 to 255: a zone
    partition report decodes its data as one decimal digit per zone,
    stored under the key [i + 1] for the position [i], and every
    character of the data is one of [0-9]; a character that is none of
    these makes the constructor raise [ValueError]. *)
Theorem ZonePartitionReport_partitions raw data fp :
  match ZonePartitionReport_init raw data fp with
  | Ok m =>
      raw_message m = raw ∧ _data m = data ∧ from_panel m = fp
      ∧ ∃ partitions, fields m = ZonePartitionReport partitions
        ∧ (∀ i : nat, partitions !! key_of i
             = c ← chars data !! i; dec_value c)
        ∧ (∀ k, is_Some (partitions !! k) → 1 ≤ k ≤ len data)
        ∧ (∀ k p, partitions !! k = Some p → 0 ≤ p ≤ 9)
        ∧ Forall (fun c => is_Some (dec_value c)) (chars data)
  | Raise e =>
      e = ValueError ∧ ∃ c, In c (chars data) ∧ dec_value c = None
  end.
Proof.
  unfold ZonePartitionReport_init.
  pose (f := partition_of_char). pose proof partitions_loop_cons as Hcons.
  destruct (partitions_loop 0 (chars data) ∅) as [partitions|e] eqn:Hloop;
    cbn [mbind result_bind].
  - apply (loop_ok f partitions_loop (fun _ _ => eq_refl) Hcons) in Hloop
      as [Hin Hout].
    repeat (split; [done|]). exists partitions. split; [done|].
    assert (Hkeys : ∀ k, is_Some (partitions !! k) → 1 ≤ k ≤ len data).
    { intros k [v Hk]. rewrite len_chars.
      destruct (decide (0 < k ≤ 0 + Z.of_nat (length (chars data))));
        [lia|].
      rewrite Hout, lookup_empty in Hk by done. discriminate. }
    assert (Hlookup : ∀ i : nat, partitions !! key_of i
                        = c ← chars data !! i; dec_value c).
    { intros i. destruct (chars data !! i) as [c|] eqn:Hi; cbn.
      - destruct (Hin i c Hi) as (v & Hv & Hm). rewrite Z.add_0_l in Hm.
        rewrite Hm.
        unfold f, zone_of_char, partition_of_char,
          partition_state_of_char in Hv.
        destruct (dec_value c); by simplify_eq/=.
      - rewrite (lookup_key_of_beyond partitions ∅ (chars data)) by done.
        apply lookup_empty. }
    assert (Hdigits : Forall (fun c => is_Some (dec_value c)) (chars data)).
    { apply Forall_forall. intros c Hc.
      apply list_elem_of_lookup in Hc as [i Hi].
      destruct (Hin i c Hi) as (v & Hv & _).
      unfold f, zone_of_char, partition_of_char,
        partition_state_of_char in Hv.
      destruct (dec_value c); [eauto|discriminate]. }
    split; [done|]. split; [done|]. split; [|done].
    intros k p Hk. pose proof (Hkeys k (ex_intro _ p Hk)) as Hrange.
    specialize (Hlookup (Z.to_nat (k - 1))). unfold key_of in Hlookup.
    replace (Z.of_nat (Z.to_nat (k - 1)) + 1) with k in Hlookup by lia.
    rewrite Hk in Hlookup.
    destruct (chars data !! Z.to_nat (k - 1)) as [c|]; [|discriminate].
    cbn in Hlookup. by eapply dec_value_range.
  - apply (loop_raise f partitions_loop (fun _ _ => eq_refl) Hcons) in Hloop
      as (i & c & Hi & Hc & _).
    unfold f, zone_of_char, partition_of_char,
      partition_state_of_char in Hc.
    destruct (dec_value c) eqn:Hh; [discriminate|].
    injection Hc as <-. split; [done|]. exists c. split; [|done].
    apply list_elem_of_In. apply list_elem_of_lookup. eauto.
Qed.

(** X3. An arming status report decodes its data as one letter per
    partition, [H], [D] or [A], stored under the key [i + 1] for the
    position [i], and every character of the data is one of the three
    letters; the first other character makes the constructor raise
    [InvalidMessageException] for that character and the whole data. *)
Theorem ArmingStatusReport_partition_state raw data fp :
  match ArmingStatusReport_init raw data fp with
  | Ok m =>
      raw_message m = raw ∧ _data m = data ∧ from_panel m = fp
      ∧ ∃ partition_state, fields m = ArmingStatusReport partition_state
        ∧ (∀ i : nat, partition_state !! key_of i
             = c ← chars data !! i; partition_letter c)
        ∧ (∀ k, is_Some (partition_state !! k) → 1 ≤ k ≤ len data)
        ∧ Forall (fun c => is_Some (partition_letter c)) (chars data)
  | Raise e =>
      ∃ (i : nat) c,
        e = InvalidMessageException c data
        ∧ chars data !! i = Some c ∧ partition_letter c = None
        ∧ ∀ (j : nat) c', (j < i)%nat → chars data !! j = Some c' →
            is_Some (partition_letter c')
  end.
Proof.
  unfold ArmingStatusReport_init.
  pose (f := partition_state_of_char data).
  pose proof (partition_state_loop_cons data) as Hcons.
  destruct (partition_state_loop data 0 (chars data) ∅)
    as [partition_state|e] eqn:Hloop; cbn [mbind result_bind].
  - apply (loop_ok f (partition_state_loop data) (fun _ _ => eq_refl) Hcons)
      in Hloop as [Hin Hout].
    repeat (split; [done|]). exists partition_state. split; [done|].
    split; [|split].
    + intros i. destruct (chars data !! i) as [c|] eqn:Hi; cbn.
      * destruct (Hin i c Hi) as (v & Hv & Hm). rewrite Z.add_0_l in Hm.
        rewrite Hm.
        unfold f, zone_of_char, partition_of_char,
          partition_state_of_char in Hv.
        destruct (partition_letter c); by simplify_eq/=.
      * rewrite (lookup_key_of_beyond partition_state ∅ (chars data))
          by done.
        apply lookup_empty.
    + intros k [v Hk]. rewrite len_chars.
      destruct (decide (0 < k ≤ 0 + Z.of_nat (length (chars data))));
        [lia|].
      rewrite Hout, lookup_empty in Hk by done. discriminate.
    + apply Forall_forall. intros c Hc.
      apply list_elem_of_lookup in Hc as [i Hi].
      destruct (Hin i c Hi) as (v & Hv & _).
      unfold f, zone_of_char, partition_of_char,
        partition_state_of_char in Hv.
      destruct (partition_letter c); [eauto|discriminate].
  - apply (loop_raise f (partition_state_loop data) (fun _ _ => eq_refl)
             Hcons) in Hloop as (i & c & Hi & Hc & Hbefore).
    unfold f, zone_of_char, partition_of_char,
      partition_state_of_char in Hc.
    destruct (partition_letter c) eqn:Hh; [discriminate|].
    injection Hc as <-. exists i, c. repeat (split; [done|]).
    intros j c' Hj Hc'. destruct (Hbefore j c' Hj Hc') as (v & Hv).
    unfold f, zone_of_char, partition_of_char,
      partition_state_of_char in Hv.
    destruct (partition_letter c'); [eauto|discriminate].
Qed.

(** *** What [parse] can raise *)

(** [int] raises nothing but [ValueError]. *)
Lemma int_raises s base e : int s base = Raise e → e = ValueError.
Proof.
  unfold int, int_of_chars.
  repeat case_match; intros Hraise; by simplify_eq.
Qed.

Lemma int_char_raises c base e : int_char c base = Raise e → e = ValueError.
Proof.
  unfold int_char, int_of_chars.
  repeat case_match; intros Hraise; by simplify_eq.
Qed.

Lemma eqb_first_char s b t :
  String.eqb s (String b t) = true → String.get 0 s = Some b.
Proof.
  destruct s as [|a s]; cbn; [done|].
  destruct (Ascii.eqb_spec a b); [by subst|done].
Qed.

(** A frame of three characters whose first two read as the length 3
    fails the checksum: the checksum of its first character never starts
    with its second character. *)
Lemma three_chars_checksum a b n :
  int_of_chars 16 [a; b] = Ok n → n = 3 →
  String.get 0 (format_2X (Z.land (- ((0 + ord a) mod 256)) 255)) ≠ Some b.
Proof.
  pose proof (forall_ascii2
    (fun a b =>
       match int_of_chars 16 [a; b] with
       | Ok n =>
           if n =? 3 then
             negb (match String.get 0
                           (format_2X (Z.land (- ((0 + ord a) mod 256)) 255))
                   with
                   | Some x => Ascii.eqb x b
                   | None => false
                   end)
           else true
       | Raise _ => true
       end)) as Hall.
  specialize (Hall ltac:(vm_compute; reflexivity) a b). cbn beta in Hall.
  intros Hint ->. rewrite Hint in Hall. cbn in Hall.
  intros Hget. rewrite Hget, Ascii.eqb_refl in Hall. discriminate.
Qed.

(** A frame of fewer than four characters does not pass the length and
    the checksum validation. *)
Lemma short_frame_rejected raw n :
  String.get 3 raw = None →
  int (slice raw (Some 0) (Some 2)) 16 = Ok n →
  len raw = n →
  String.eqb (format_2X (checksum_value raw)) (trailer raw) = false.
Proof.
  destruct raw as [|a [|b [|c [|d rest]]]]; intros Hget Hint Hlen.
  - vm_compute in Hint. discriminate.
  - change ((if Ascii.eqb " " a then false else false) = false).
    by destruct (Ascii.eqb " " a).
  - change ((if Ascii.eqb " " a
             then if Ascii.eqb "0" b then true else false
             else false) = false).
    destruct (Ascii.eqb_spec " " a) as [<-|]; [|done].
    destruct (Ascii.eqb_spec "0" b) as [<-|]; [|done].
    vm_compute in Hint. injection Hint as <-. discriminate.
  - change (String.eqb (format_2X (Z.land (- ((0 + ord a) mod 256)) 255))
              (String b (String c "")) = false).
    apply not_true_is_false. intros Heq. apply eqb_first_char in Heq.
    change (int_of_chars 16 [a; b] = Ok n) in Hint.
    by eapply three_chars_checksum.
  - discriminate.
Qed.

(** [_parse_message] raises [ValueError] for an unreadable length, the
    length error, or the checksum error; the two subscripts that follow
    the checks are in range. *)
Lemma _parse_message_raises raw e :
  _parse_message raw = Raise e →
  e = ValueError
  ∨ (∃ n, int (slice raw (Some 0) (Some 2)) 16 = Ok n ∧ n ≠ len raw
          ∧ e = InvalidMessageLengthException n (len raw))
  ∨ (length_matches raw
     ∧ trailer raw ≠ format_2X (checksum_value raw)
     ∧ e = MessageChecksumException (trailer raw)
             (format_2X (checksum_value raw))).
Proof.
  unfold _parse_message, length_matches.
  destruct (int (slice raw (Some 0) (Some 2)) 16) as [n|e'] eqn:Hint;
    cbn [mbind result_bind].
  2: { intros [= <-]. left. by eapply int_raises. }
  destruct (Z.eqb_spec (len raw) n) as [Hlen|Hlen]; cbn [negb].
  2: { intros [= <-]. right. left. exists n. by repeat split. }
  fold (checksum_value raw). fold (trailer raw).
  destruct (String.eqb_spec (format_2X (checksum_value raw)) (trailer raw))
    as [Hcrc|Hcrc]; cbn [negb].
  2: { intros [= <-]. right. right. subst n. by repeat split. }
  unfold index.
  destruct (String.get 3 raw) as [S|] eqn:H3.
  - destruct (String.get 2 raw) as [T|] eqn:H2; [done|].
    exfalso. clear -H2 H3.
    destruct raw as [|a [|b [|c rest]]]; discriminate.
  - pose proof (short_frame_rejected raw n H3 Hint Hlen) as Hrej.
    apply String.eqb_neq in Hrej. done.
Qed.

(** The constructors of the registry raise decoding errors only, and an
    object they return is of the class that was called. *)
Lemma init_raises k raw data fp e :
  In k subclasses →
  init k raw data fp = Raise e → decode_error data e.
Proof.
  intros Hin. cbn in Hin. unfold decode_error.
  repeat (destruct Hin as [<-|Hin]; [cbn [init]|]); try contradiction;
    unfold ArmAwayMessage_init, ArmHomeMessage_init, DisarmMessage_init,
      user_message, ArmingStatusRequest_init, ArmingStatusReport_init,
      ZoneStatusRequest_init, ZoneStatusReport_init,
      ZonePartitionRequest_init, ZonePartitionReport_init,
      SystemEventNotification_init, UnknownMessage_init3, int10,
      call_event_for_code.
  all: repeat match goal with
         | |- context [mbind _ ?r] =>
             let H := fresh "Hr" in
             destruct r eqn:H; cbn [mbind result_bind]
         end.
  all: intros Hraise; simplify_eq; auto.
  all: try (left; by eapply int_raises).
  - apply (loop_raise _ _ (fun _ _ => eq_refl) (partition_state_loop_cons data))
      in Hr as (i & c & _ & Hc & _).
    unfold partition_state_of_char in Hc.
    destruct (partition_letter c); simplify_eq. eauto.
  - apply (loop_raise _ _ (fun _ _ => eq_refl) zones_loop_cons)
      in Hr as (i & c & _ & Hc & _).
    unfold zone_of_char in Hc. destruct (hex_value c); simplify_eq. auto.
  - apply (loop_raise _ _ (fun _ _ => eq_refl) partitions_loop_cons)
      in Hr as (i & c & _ & Hc & _).
    unfold partition_of_char in Hc. destruct (dec_value c); simplify_eq. auto.
Qed.

Lemma init_class_name k raw data fp m :
  In k subclasses →
  init k raw data fp = Ok m → class_name (fields m) = __name__ k.
Proof.
  intros Hin. cbn in Hin.
  repeat (destruct Hin as [<-|Hin]; [cbn [init __name__]|]);
    try contradiction;
    unfold ArmAwayMessage_init, ArmHomeMessage_init, DisarmMessage_init,
      user_message, ArmingStatusRequest_init, ArmingStatusReport_init,
      ZoneStatusRequest_init, ZoneStatusReport_init,
      ZonePartitionRequest_init, ZonePartitionReport_init,
      SystemEventNotification_init, UnknownMessage_init3;
    repeat (match goal with
            | |- context [mbind _ ?r] => destruct r; cbn [mbind result_bind]
            end);
    intros H; inversion H; auto.
Qed.

Lemma dispatch_Some msgtype subtype k :
  dispatch msgtype subtype = Some k →
  In k subclasses ∧ registered k msgtype subtype.
Proof.
  unfold dispatch, registered, in_list. intros Hfind.
  apply find_some in Hfind as [Hin Hreg]. split; [done|].
  apply andb_true_iff in Hreg as [Ht Hs].
  apply existsb_exists in Ht as (t & Ht & Heq).
  apply existsb_exists in Hs as (s & Hs & Heq').
  apply Ascii.eqb_eq in Heq as ->. apply Ascii.eqb_eq in Heq' as ->. done.
Qed.

Lemma dispatch_None msgtype subtype :
  dispatch msgtype subtype = None ↔
  ∀ k, In k subclasses → ¬ registered k msgtype subtype.
Proof.
  unfold dispatch, registered, in_list. split.
  - intros Hfind k Hin [Ht Hs].
    pose proof (find_none _ _ Hfind k Hin) as Hno. cbn beta in Hno.
    apply andb_false_iff in Hno as [Hno|Hno];
      apply not_true_iff_false in Hno; apply Hno, existsb_exists;
      eexists; (split; [eassumption|apply Ascii.eqb_refl]).
  - intros Hno.
    destruct (find _ subclasses) as [k|] eqn:Hfind; [|done].
    exfalso. apply find_some in Hfind as [Hin Hreg].
    apply (Hno k Hin).
    apply andb_true_iff in Hreg as [Ht Hs].
    apply existsb_exists in Ht as (t & Ht & Heq).
    apply existsb_exists in Hs as (s & Hs & Heq').
    apply Ascii.eqb_eq in Heq as ->. apply Ascii.eqb_eq in Heq' as ->. done.
Qed.

Lemma char_in_uppercase c : char_in c ascii_uppercase = is_upper c.
Proof.
  apply (bool_decide_eq_true_1 _). revert c. apply forall_ascii.
  vm_compute. reflexivity.
Qed.

Lemma get_Some_len s (i : nat) c :
  String.get i s = Some c → Z.of_nat i < len s.
Proof.
  unfold len. revert i. induction s as [|a s IH]; intros i; [done|].
  destruct i as [|i]; cbn; [lia|]. intros H. apply IH in H. lia.
Qed.

(** What a frame that passes [_parse_message] looks like. *)
Lemma _parse_message_ok raw msgtype subtype data :
  _parse_message raw = Ok (msgtype, subtype, data) →
  length_matches raw
  ∧ trailer raw = format_2X (checksum_value raw)
  ∧ String.get 2 raw = Some msgtype ∧ String.get 3 raw = Some subtype
  ∧ data = slice raw (Some 4) (Some (-4))
  ∧ 4 ≤ len raw.
Proof.
  unfold _parse_message, length_matches.
  destruct (int (slice raw (Some 0) (Some 2)) 16) as [n|e'] eqn:Hint;
    cbn [mbind result_bind]; [|done].
  destruct (Z.eqb_spec (len raw) n) as [Hlen|Hlen]; cbn [negb]; [|done].
  fold (checksum_value raw). fold (trailer raw).
  destruct (String.eqb_spec (format_2X (checksum_value raw)) (trailer raw))
    as [Hcrc|Hcrc]; cbn [negb]; [|done].
  unfold index.
  destruct (String.get 2 raw) as [T|] eqn:H2; cbn [mbind result_bind];
    [|done].
  destruct (String.get 3 raw) as [S|] eqn:H3; cbn [mbind result_bind];
    [|done].
  intros [= <- <- <-]. subst n. repeat split; try done.
  apply get_Some_len in H3. lia.
Qed.

(** The converse: the checks, in the order of the code. *)
Lemma _parse_message_intro raw msgtype subtype :
  length_matches raw →
  trailer raw = format_2X (checksum_value raw) →
  String.get 2 raw = Some msgtype → String.get 3 raw = Some subtype →
  _parse_message raw
  = Ok (msgtype, subtype, slice raw (Some 4) (Some (-4))).
Proof.
  unfold _parse_message, length_matches. intros -> Hcrc H2 H3.
  cbn [mbind result_bind]. rewrite Z.eqb_refl. cbn [negb].
  fold (checksum_value raw). fold (trailer raw). rewrite <- Hcrc.
  rewrite String.eqb_refl. cbn [negb]. unfold index. by rewrite H2, H3.
Qed.

(** All the ways [parse] can fail. *)
Lemma parse_raises_cases raw e :
  parse raw = Raise e →
  e = ValueError ∨ e = TypeError
  ∨ (∃ n, int (slice raw (Some 0) (Some 2)) 16 = Ok n ∧ n ≠ len raw
          ∧ e = InvalidMessageLengthException n (len raw))
  ∨ (length_matches raw
     ∧ trailer raw ≠ format_2X (checksum_value raw)
     ∧ e = MessageChecksumException (trailer raw)
             (format_2X (checksum_value raw)))
  ∨ (∃ msgtype subtype c,
       _parse_message raw
       = Ok (msgtype, subtype, slice raw (Some 4) (Some (-4)))
       ∧ e = InvalidMessageException c (slice raw (Some 4) (Some (-4)))).
Proof.
  destruct (_parse_message raw) as [[[T S] d]|e'] eqn:Hp.
  - rewrite (CodecFacts.parse_unfold _ _ _ _ Hp).
    pose proof (_parse_message_ok _ _ _ _ Hp) as (_ & _ & _ & _ & -> & _).
    destruct (dispatch T S) as [k|] eqn:Hk; [|done].
    apply dispatch_Some in Hk as [Hin _]. intros Hraise.
    apply init_raises in Hraise as [->|[->|[c ->]]]; eauto 10.
  - unfold parse. rewrite Hp. cbn [mbind result_bind]. intros [= <-].
    apply _parse_message_raises in Hp as [->|[?|?]]; auto.
Qed.

(** X4. On a frame of characters with code points 0 to 255, [parse]
    raises one of five exceptions: [ValueError] or [TypeError] from a
    conversion or a call, the length error, the checksum error, or
    [InvalidMessageException]; the subscripts [raw_message[2]] and
    [raw_message[3]] never raise [IndexError] on such a frame, the empty
    one included: none with fewer than four characters passes the length
    and the checksum tests. *)
Theorem parse_error_kinds raw e :
  parse raw = Raise e →
  e = ValueError ∨ e = TypeError
  ∨ (∃ expected actual, e = InvalidMessageLengthException expected actual)
  ∨ (∃ expected actual, e = MessageChecksumException expected actual)
  ∨ (∃ c data, e = InvalidMessageException c data).
Proof.
  intros Hraise.
  apply parse_raises_cases in Hraise
    as [->|[->|[(n & _ & _ & ->)|[(_ & _ & ->)|(T & S & c & _ & ->)]]]];
    eauto 10.
Qed.

Lemma parse_error_kinds_witness :
  parse "" = Raise ValueError
  ∧ (ValueError = ValueError ∨ ValueError = TypeError
     ∨ (∃ expected actual,
          ValueError = InvalidMessageLengthException expected actual)
     ∨ (∃ expected actual,
          ValueError = MessageChecksumException expected actual)
     ∨ (∃ c data, ValueError = InvalidMessageException c data)).
Proof.
  split; [reflexivity|].
  apply (parse_error_kinds "" ValueError). reflexivity.
Defined.

(** X5. [parse] raises the length error exactly when the first two
    characters read as a hexadecimal number other than the number of
    characters of the frame, and the error carries that number and the
    actual length. *)
Theorem parse_length_error_iff raw expected actual :
  parse raw = Raise (InvalidMessageLengthException expected actual)
  ↔ int (slice raw (Some 0) (Some 2)) 16 = Ok expected
    ∧ expected ≠ len raw ∧ actual = len raw.
Proof.
  split.
  - intros Hraise.
    apply parse_raises_cases in Hraise
      as [?|[?|[(n & Hint & Hne & Heq)|[(_ & _ & ?)|(T & S & c & _ & ?)]]]];
      try discriminate.
    by injection Heq as -> ->.
  - intros (Hint & Hne & ->). unfold parse, _parse_message. rewrite Hint.
    cbn [mbind result_bind].
    destruct (Z.eqb_spec (len raw) expected) as [Heq|_]; [by subst|done].
Qed.

(** X6. [parse] raises the checksum error exactly when the declared length
    is right and the last two characters differ from the ['%2X'] rendering
    of the checksum value; the error carries the two strings, the trailer
    as [expected_crc] and the computed one as [actual_crc]. *)
Theorem parse_checksum_error_iff raw expected_crc actual_crc :
  parse raw = Raise (MessageChecksumException expected_crc actual_crc)
  ↔ length_matches raw
    ∧ expected_crc = trailer raw
    ∧ actual_crc = format_2X (checksum_value raw)
    ∧ expected_crc ≠ actual_crc.
Proof.
  split.
  - intros Hraise.
    apply parse_raises_cases in Hraise
      as [?|[?|[(n & _ & _ & ?)|[(Hlen & Hne & Heq)|(T & S & c & _ & ?)]]]];
      try discriminate.
    injection Heq as -> ->. done.
  - intros (Hlen & -> & -> & Hne).
    unfold parse, _parse_message. unfold length_matches in Hlen.
    rewrite Hlen. cbn [mbind result_bind]. rewrite Z.eqb_refl. cbn [negb].
    fold (checksum_value raw). fold (trailer raw).
    destruct (String.eqb_spec (format_2X (checksum_value raw)) (trailer raw));
      [by exfalso; apply Hne|done].
Qed.

(** A registered pair never belongs to the class [UnknownMessage], whose
    lists of types and subtypes are empty. *)
Lemma registered_not_unknown k msgtype subtype :
  In k subclasses → registered k msgtype subtype →
  __name__ k ≠ "UnknownMessage"%string.
Proof.
  intros Hin [Ht Hs]. cbn in Hin.
  repeat (destruct Hin as [<-|Hin]; [try discriminate|]);
    contradiction.
Qed.

(** X7. A decoded packet: the frame has at least four characters, a right
    length and a right checksum; the packet carries the frame, the
    characters from the fifth to the fifth from the end as data, and
    [from_panel] tells whether the type character is an upper-case letter;
    its class is the first registered class whose lists contain the type
    and the subtype, and [UnknownMessage], with the two characters, when
    there is none. *)
Theorem parse_ok raw m :
  parse raw = Ok m →
  4 ≤ len raw ∧ length_matches raw
  ∧ trailer raw = format_2X (checksum_value raw)
  ∧ raw_message m = raw
  ∧ _data m = slice raw (Some 4) (Some (-4))
  ∧ ∃ msgtype subtype,
      String.get 2 raw = Some msgtype ∧ String.get 3 raw = Some subtype
      ∧ from_panel m = is_upper msgtype
      ∧ match dispatch msgtype subtype with
        | Some k =>
            registered k msgtype subtype
            ∧ class_name (fields m) = __name__ k
            ∧ class_name (fields m) ≠ "UnknownMessage"%string
        | None =>
            fields m = UnknownMessage msgtype subtype
            ∧ ∀ k, In k subclasses → ¬ registered k msgtype subtype
        end.
Proof.
  intros Hparse.
  destruct (_parse_message raw) as [[[T S] d]|e'] eqn:Hp.
  2: { unfold parse in Hparse. by rewrite Hp in Hparse. }
  pose proof (_parse_message_ok _ _ _ _ Hp)
    as (Hlen & Hcrc & H2 & H3 & -> & H4).
  rewrite (CodecFacts.parse_unfold _ _ _ _ Hp) in Hparse.
  rewrite char_in_uppercase in Hparse.
  destruct (dispatch T S) as [k|] eqn:Hk.
  - pose proof (dispatch_Some _ _ _ Hk) as [Hin Hreg].
    pose proof (CodecFacts.init_common _ _ _ _ _ Hin Hparse) as (? & ? & ?).
    pose proof (init_class_name _ _ _ _ _ Hin Hparse) as Hname.
    repeat (split; [done|]). exists T, S. rewrite Hk.
    do 3 (split; [done|]). split; [done|]. split; [done|]. rewrite Hname.
    by eapply registered_not_unknown.
  - injection Hparse as <-. cbn [raw_message _data from_panel fields].
    repeat (split; [done|]). exists T, S. rewrite Hk.
    do 3 (split; [done|]). split; [done|]. by apply dispatch_None.
Qed.

Lemma parse_ok_witness :
  parse "10ASHHHHDDAA0081"
  = Ok (mkMessagePacket "10ASHHHHDDAA0081" "HHHHDDAA" true
          (ArmingStatusReport
             {[1 := HOME; 2 := HOME; 3 := HOME; 4 := HOME;
               5 := DISARMED; 6 := DISARMED; 7 := AWAY; 8 := AWAY]}))
  ∧ 4 ≤ len "10ASHHHHDDAA0081".
Proof.
  assert (H : parse "10ASHHHHDDAA0081"
    = Ok (mkMessagePacket "10ASHHHHDDAA0081" "HHHHDDAA" true
            (ArmingStatusReport
               {[1 := HOME; 2 := HOME; 3 := HOME; 4 := HOME;
                 5 := DISARMED; 6 := DISARMED; 7 := AWAY; 8 := AWAY]})))
    by (vm_compute; reflexivity).
  split; [exact H|].
  exact (proj1 (parse_ok _ _ H)).
Defined.

(** X8. A frame that passes the validation and whose type and subtype are
    registered for no class decodes to an [UnknownMessage] that carries
    the two characters and the data: nothing is raised. *)
Theorem parse_unregistered raw msgtype subtype data :
  _parse_message raw = Ok (msgtype, subtype, data) →
  (∀ k, In k subclasses → ¬ registered k msgtype subtype) →
  parse raw
  = Ok (mkMessagePacket raw data (is_upper msgtype)
          (UnknownMessage msgtype subtype)).
Proof.
  intros Hp Hno. rewrite (CodecFacts.parse_unfold _ _ _ _ Hp).
  apply dispatch_None in Hno. by rewrite Hno, char_in_uppercase.
Qed.

Lemma parse_unregistered_witness :
  parse "0Ezz03789800F4"
  = Ok (mkMessagePacket "0Ezz03789800F4" "037898" (is_upper "z")
          (UnknownMessage "z" "z")).
Proof.
  apply (parse_unregistered "0Ezz03789800F4" "z" "z" "037898").
  - vm_compute. reflexivity.
  - intros k Hin [Ht Hs]. cbn in Hin.
    repeat (destruct Hin as [<-|Hin];
            [cbn in Ht, Hs; intuition discriminate|]).
    contradiction.
Defined.

(** *** The user number of the arm and disarm messages *)

Lemma substring_all s : String.substring 0 (String.length s) s = s.
Proof. induction s as [|c s IH]; cbn; [done|by rewrite IH]. Qed.

Lemma slice_first_two a b rest :
  slice (String a (String b rest)) (Some 0) (Some 2) = String a (String b "").
Proof.
  unfold slice, len. cbn [String.length].
  change (clamp ?n 0) with (Z.min 0 n). change (clamp ?n 2) with (Z.min 2 n).
  rewrite !Z.min_l by lia. change (Z.to_nat (2 - 0)) with 2%nat.
  change (Z.to_nat 0) with 0%nat. cbn. by destruct rest.
Qed.

Lemma slice_from_two a b rest :
  slice (String a (String b rest)) (Some 2) None = rest.
Proof.
  unfold slice, len. cbn [String.length].
  change (clamp ?n 2) with (Z.min 2 n). rewrite Z.min_l by lia.
  replace (Z.to_nat (Z.of_nat (S (S (String.length rest))) - 2))
    with (String.length rest) by lia.
  change (Z.to_nat 2) with 2%nat. cbn [String.substring].
  apply substring_all.
Qed.

Lemma int_two_hex a b da db :
  hex_value a = Some da → hex_value b = Some db →
  int (String a (String b "")) 16 = Ok (16 * da + db).
Proof.
  pose proof (forall_ascii2
    (fun a b =>
       match hex_value a, hex_value b with
       | Some da, Some db =>
           bool_decide (int_of_chars 16 [a; b] = Ok (16 * da + db))
       | _, _ => true
       end)) as Hall.
  specialize (Hall ltac:(vm_compute; reflexivity) a b). cbn beta in Hall.
  intros Ha Hb. rewrite Ha, Hb in Hall.
  exact (bool_decide_eq_true_1 _ Hall).
Qed.

(** X9. An arm-away, arm-home or disarm frame whose data starts with two
    hexadecimal digits decodes to the user number these digits spell and
    the rest of the data as user code; with one hexadecimal digit as data
    the user is that digit and the code is empty; with no data the frame
    is rejected with [ValueError]. *)
Theorem user_message_fields raw msgtype subtype subtypes mk data :
  In (subtypes, mk)
     [ (["A"; "a"]%char, ArmAwayMessage);
       (["H"; "h"]%char, ArmHomeMessage);
       (["D"; "d"]%char, DisarmMessage) ] →
  In msgtype ["A"; "a"]%char → In subtype subtypes →
  _parse_message raw = Ok (msgtype, subtype, data) →
  match data with
  | EmptyString => parse raw = Raise ValueError
  | String a EmptyString =>
      ∀ da, hex_value a = Some da →
        parse raw
        = Ok (mkMessagePacket raw data (is_upper msgtype) (mk da ""%string))
  | String a (String b code) =>
      ∀ da db, hex_value a = Some da → hex_value b = Some db →
        parse raw
        = Ok (mkMessagePacket raw data (is_upper msgtype)
                (mk (16 * da + db) code))
  end.
Proof.
  intros Hmk Ht Hs Hp. rewrite (CodecFacts.parse_unfold _ _ _ _ Hp).
  rewrite char_in_uppercase.
  assert (Hd : dispatch msgtype subtype
               = Some (mkKlass
                         (class_name (mk 0 ""%string))
                         ["A"; "a"]%char subtypes (user_message mk))).
  { cbn in Hmk, Ht.
    destruct Hmk as [[= <- <-]|[[= <- <-]|[[= <- <-]|[]]]];
      cbn in Hs;
      destruct Ht as [<-|[<-|[]]]; destruct Hs as [<-|[<-|[]]];
      reflexivity. }
  rewrite Hd. cbn [init]. unfold user_message.
  destruct data as [|a [|b code]].
  - reflexivity.
  - intros da Ha.
    change (slice (String a "") (Some 0) (Some 2)) with (String a "").
    change (slice (String a "") (Some 2) None) with ""%string.
    change (int (String a "") 16) with (int_char a 16).
    rewrite int_char_16, Ha. reflexivity.
  - intros da db Ha Hb.
    rewrite slice_first_two, slice_from_two, (int_two_hex a b da db) by done.
    reflexivity.
Qed.

Lemma user_message_fields_witness :
  parse "0Eah037898001F"
  = Ok (mkMessagePacket "0Eah037898001F" "037898" (is_upper "a")
          (ArmHomeMessage (16 * 0 + 3) "7898")).
Proof.
  apply (user_message_fields "0Eah037898001F" "a" "h" ["H"; "h"]%char
           ArmHomeMessage "037898").
  - simpl. auto.
  - simpl. auto.
  - simpl. auto.
  - vm_compute. reflexivity.
  - vm_compute. reflexivity.
  - vm_compute. reflexivity.
Defined.

(** *** [generate] and [parse] *)



End CodecProps.

(** ** Direction discrimination *)

Module DirectionFacts.

Import CodecFacts CodecProps.

(** C9 (amended). For the pairs registered in both letter cases, the
    arm-away, arm-home and disarm messages, two frames that pass the
    validation and have the same data, the one with the type letter [A]
    and the other with [a]: when the data starts with a user number, both
    are decoded, to the same variant with the same user, user code and
    data, the first with [from_panel] true and the second with
    [from_panel] false; when it does not, both are rejected with the same
    error.  So are the two frames of the test suite, decoded to arm-away
    for the user 2 with the code 2345.  For every frame that is decoded,
    [from_panel] is true exactly when the type letter is an upper-case
    ASCII letter.  Every other class of the registry lists one type
    letter, in one case: there the case of the letter also decides the
    variant, [as] being a request, [As] unknown and [AS] a report. *)
Theorem direction_discrimination :
  (∀ raw_upper raw_lower subtypes mk S1 S2 data,
     In (subtypes, mk)
        [ (["A"; "a"]%char, ArmAwayMessage);
          (["H"; "h"]%char, ArmHomeMessage);
          (["D"; "d"]%char, DisarmMessage) ] →
     In S1 subtypes → In S2 subtypes →
     _parse_message raw_upper = Ok ("A"%char, S1, data) →
     _parse_message raw_lower = Ok ("a"%char, S2, data) →
     match int (slice data (Some 0) (Some 2)) 16 with
     | Ok user =>
         parse raw_upper
         = Ok (mkMessagePacket raw_upper data true
                 (mk user (slice data (Some 2) None)))
         ∧ parse raw_lower
           = Ok (mkMessagePacket raw_lower data false
                   (mk user (slice data (Some 2) None)))
     | Raise e => parse raw_upper = Raise e ∧ parse raw_lower = Raise e
     end)
  ∧ parse "0EAA0223450079"
    = Ok (mkMessagePacket "0EAA0223450079" "022345" true
            (ArmAwayMessage 2 "2345"))
  ∧ parse "0Eaa0223450039"
    = Ok (mkMessagePacket "0Eaa0223450039" "022345" false
            (ArmAwayMessage 2 "2345"))
  ∧ (∀ raw m, parse raw = Ok m →
       ∃ msgtype,
         String.get 2 raw = Some msgtype
         ∧ from_panel m = is_upper msgtype)
  ∧ (∀ k, In k subclasses →
       (MSG_TYPES k = ["A"; "a"]%char
        ∧ In (MSG_SUBTYPES k) [["A"; "a"]; ["H"; "h"]; ["D"; "d"]]%char)
       ∨ (MSG_TYPES k = [] ∧ MSG_SUBTYPES k = [])
       ∨ ∃ T S, MSG_TYPES k = [T] ∧ MSG_SUBTYPES k = [S])
  ∧ parse "08as0064"
    = Ok (mkMessagePacket "08as0064" "" false ArmingStatusRequest)
  ∧ parse "08As0084"
    = Ok (mkMessagePacket "08As0084" "" true (UnknownMessage "A" "s"))
  ∧ parse "08AS00A4"
    = Ok (mkMessagePacket "08AS00A4" "" true (ArmingStatusReport ∅)).
Proof.
  split; [|split; [|split; [|split; [|split; [|split; [|split]]]]]].
  - intros raw_upper raw_lower subtypes mk S1 S2 data Hsub HS1 HS2 Hup Hlo.
    unfold parse. rewrite Hup, Hlo. cbn [mbind result_bind].
    cbn in Hsub.
    destruct Hsub as [[= <- <-]|[[= <- <-]|[[= <- <-]|[]]]];
      cbn in HS1, HS2;
      destruct HS1 as [<-|[<-|[]]]; destruct HS2 as [<-|[<-|[]]]; cbn;
      unfold ArmAwayMessage_init, ArmHomeMessage_init, DisarmMessage_init,
        user_message;
      destruct (int (slice data (Some 0) (Some 2)) 16); cbn; auto.
  - vm_compute. reflexivity.
  - vm_compute. reflexivity.
  - intros raw m Hparse.
    destruct (_parse_message raw) as [[[T S] d]|e] eqn:Hp.
    2: { unfold parse in Hparse. by rewrite Hp in Hparse. }
    pose proof (_parse_message_ok _ _ _ _ Hp) as (_ & _ & H2 & _).
    pose proof (parse_from_panel _ _ _ _ _ Hp Hparse) as [Hfp _].
    exists T. split; [done|]. by rewrite Hfp, char_in_uppercase.
  - intros k Hk. cbn in Hk.
    repeat (destruct Hk as [<-|Hk]; [cbn; eauto 10|]). done.
  - vm_compute. reflexivity.
  - vm_compute. reflexivity.
  - vm_compute. reflexivity.
Qed.

End DirectionFacts.

Module EventProps.

Lemma first_with_code_Some code l k :
  first_with_code code l = Some k →
  ∃ before after,
    l = before ++ k :: after ∧ CODE k = code
    ∧ Forall (fun k' => CODE k' ≠ code) before.
Proof.
  induction l as [|k' l IH]; cbn; [done|].
  destruct (Z.eqb_spec (CODE k') code) as [Heq|Hne].
  - intros [= <-]. exists [], l. by repeat split.
  - intros Hfind. destruct (IH Hfind) as (before & after & -> & Hcode & Hb).
    exists (k' :: before), after. repeat split; [done|by constructor].
Qed.

Lemma first_with_code_None code l :
  first_with_code code l = None → Forall (fun k => CODE k ≠ code) l.
Proof.
  induction l as [|k l IH]; cbn; [by constructor|].
  destruct (Z.eqb_spec (CODE k) code); [done|]. intros H. constructor; auto.
Qed.

(** X11. [event_for_code] returns an instance of the first class, in the
    order of [subclasses_recursive], whose [CODE] is the event code, with
    the subject and, for a zone kind, the name the table gives for the
    subject, or no name; when no class has the code it returns an
    [UnknownEvent] with the code and the subject. *)
Theorem event_for_code_first_match event_code zone_or_user zones :
  match event_for_code event_code zone_or_user zones with
  | Event klass subject name =>
      CODE klass = event_code ∧ subject = zone_or_user
      ∧ name = (if IS_ZONE klass then zones !! zone_or_user else None)
      ∧ ∃ before after,
          known_kinds = before ++ klass :: after
          ∧ Forall (fun k => CODE k ≠ event_code) before
  | UnknownEvent code subject =>
      code = event_code ∧ subject = zone_or_user
      ∧ Forall (fun k => CODE k ≠ event_code) known_kinds
  end.
Proof.
  unfold event_for_code. fold known_kinds.
  destruct (first_with_code event_code known_kinds) as [k|] eqn:Hfind.
  - apply first_with_code_Some in Hfind
      as (before & after & Hl & Hcode & Hb).
    destruct (IS_ZONE k) eqn:Hz; cbv beta iota; rewrite Hz;
      (split; [done|]); (split; [done|]); (split; [done|]);
      by exists before, after.
  - apply first_with_code_None in Hfind. by repeat split.
Qed.



(** X13. An event code decodes to an [UnknownEvent] exactly when it is the
    [CODE] of no class of [subclasses_recursive(SystemEvent)]. *)
Theorem unknown_event_iff event_code zone_or_user zones :
  event_for_code event_code zone_or_user zones
  = UnknownEvent event_code zone_or_user
  ↔ ¬ In event_code (List.map CODE known_kinds).
Proof.
  unfold event_for_code. fold known_kinds.
  destruct (first_with_code event_code known_kinds) as [k|] eqn:Hfind.
  - apply first_with_code_Some in Hfind
      as (before & after & Hl & Hcode & _).
    split; [by destruct (IS_ZONE k)|].
    intros Hno. exfalso. apply Hno, in_map_iff. exists k. split; [done|].
    rewrite Hl. apply in_or_app. right. by left.
  - apply first_with_code_None in Hfind. split; [|done].
    intros _ Hin. apply in_map_iff in Hin as (k & Hcode & Hin).
    rewrite Forall_forall in Hfind.
    apply list_elem_of_In in Hin. by apply (Hfind k).
Qed.

End EventProps.

Module MonitorProps.

Import MonitorFacts.

(** *** The state left by each handler *)

Lemma _handle_alarm_self evt w :
  self (_handle_alarm evt w).1 = alarm_effect (evt_zone_or_user evt) (self w).
Proof. destruct w as [s recs]. unfold alarm_effect, set_zone. M_cases. Qed.

Lemma _handle_alarm_restore_self evt w :
  self (_handle_alarm_restore evt w).1
  = alarm_restore_effect (evt_zone_or_user evt) (self w).
Proof.
  destruct w as [s recs]. unfold alarm_restore_effect, set_zone. M_cases.
Qed.

Lemma _handle_zone_bypass_self evt w :
  self (_handle_zone_bypass evt w).1
  = bypass_effect (evt_zone_or_user evt) (self w).
Proof. destruct w as [s recs]. unfold bypass_effect, set_zone. M_cases. Qed.

Lemma _handle_zone_unbypass_self evt w :
  self (_handle_zone_unbypass evt w).1
  = unbypass_effect (evt_zone_or_user evt) (self w).
Proof.
  destruct w as [s recs]. unfold unbypass_effect, set_zone. M_cases.
Qed.

Lemma _handle_zone_trouble_self evt w :
  self (_handle_zone_trouble evt w).1
  = trouble_effect (evt_zone_or_user evt) (evt_NAME evt) (self w).
Proof.
  destruct w as [s recs]. unfold trouble_effect, set_zone, set_causes.
  M_cases.
Qed.

Lemma _handle_zone_trouble_restore_self evt w :
  self (_handle_zone_trouble_restore evt w).1
  = trouble_restore_effect (evt_zone_or_user evt) (evt_NAME evt) (self w).
Proof.
  destruct w as [s recs].
  unfold trouble_restore_effect, set_zone, set_causes.
  M_cases.
  all: repeat match goal with
         | H : bool_decide _ = true |- _ => apply bool_decide_eq_true in H
         | H : bool_decide _ = false |- _ => apply bool_decide_eq_false in H
         | H : negb _ = true |- _ => apply negb_true_iff in H
         | H : negb _ = false |- _ => apply negb_false_iff in H
         end.
  all: simplify_map_eq; try done.
Qed.

(** The state after an event is a function of the event and of the state
    before it: the log plays no part. *)
Lemma _handle_event_self evt w :
  self (_handle_event evt w).1 = effect evt (self w).
Proof.
  unfold _handle_event, effect. rewrite logger_then.
  set (w' := mkWorld (self w) _). change (self w) with (self w').
  repeat case_match;
    auto using _handle_alarm_self, _handle_alarm_restore_self,
      _handle_zone_trouble_self, _handle_zone_trouble_restore_self,
      _handle_zone_bypass_self, _handle_zone_unbypass_self.
Qed.

(** *** What each handler returns *)

Ltac M_result :=
  M_cases;
  repeat match goal with
    | H : bool_decide _ = true |- _ => apply bool_decide_eq_true in H
    | H : bool_decide _ = false |- _ => apply bool_decide_eq_false in H
    | H : negb _ = true |- _ => apply negb_true_iff in H
    | H : negb _ = false |- _ => apply negb_false_iff in H
    end;
  simplify_map_eq; try done.

Lemma _handle_alarm_ok evt w zs :
  zone_status (self w) !! evt_zone_or_user evt = Some zs →
  (_handle_alarm evt w).2 = Ok tt.
Proof. destruct w as [s recs]. cbn. intros Hzone. M_result. Qed.

Lemma _handle_alarm_restore_ok evt w zs :
  zone_status (self w) !! evt_zone_or_user evt = Some zs →
  (_handle_alarm_restore evt w).2 = Ok tt.
Proof. destruct w as [s recs]. cbn. intros Hzone. M_result. Qed.

Lemma _handle_zone_bypass_ok evt w zs :
  zone_status (self w) !! evt_zone_or_user evt = Some zs →
  (_handle_zone_bypass evt w).2 = Ok tt.
Proof. destruct w as [s recs]. cbn. intros Hzone. M_result. Qed.

Lemma _handle_zone_unbypass_ok evt w zs :
  zone_status (self w) !! evt_zone_or_user evt = Some zs →
  (_handle_zone_unbypass evt w).2 = Ok tt.
Proof. destruct w as [s recs]. cbn. intros Hzone. M_result. Qed.

Lemma _handle_zone_trouble_ok evt w zs causes :
  zone_status (self w) !! evt_zone_or_user evt = Some zs →
  zone_troubles (self w) !! evt_zone_or_user evt = Some causes →
  (_handle_zone_trouble evt w).2 = Ok tt.
Proof. destruct w as [s recs]. cbn. intros Hzone Hcauses. M_result. Qed.

Lemma _handle_zone_trouble_restore_ok evt w zs causes :
  zone_status (self w) !! evt_zone_or_user evt = Some zs →
  zone_troubles (self w) !! evt_zone_or_user evt = Some causes →
  (_handle_zone_trouble_restore evt w).2 = Ok tt.
Proof. destruct w as [s recs]. cbn. intros Hzone Hcauses. M_result. Qed.

Lemma _handle_alarm_KeyError evt w :
  zone_status (self w) !! evt_zone_or_user evt = None →
  (_handle_alarm evt w).2 = Raise KeyError.
Proof. destruct w as [s recs]. cbn. intros Hzone. M_result. Qed.

Lemma _handle_alarm_restore_KeyError evt w :
  zone_status (self w) !! evt_zone_or_user evt = None →
  (_handle_alarm_restore evt w).2 = Raise KeyError.
Proof. destruct w as [s recs]. cbn. intros Hzone. M_result. Qed.

Lemma _handle_zone_bypass_KeyError evt w :
  zone_status (self w) !! evt_zone_or_user evt = None →
  (_handle_zone_bypass evt w).2 = Raise KeyError.
Proof. destruct w as [s recs]. cbn. intros Hzone. M_result. Qed.

Lemma _handle_zone_unbypass_KeyError evt w :
  zone_status (self w) !! evt_zone_or_user evt = None →
  (_handle_zone_unbypass evt w).2 = Raise KeyError.
Proof. destruct w as [s recs]. cbn. intros Hzone. M_result. Qed.

Lemma _handle_zone_trouble_KeyError evt w :
  zone_status (self w) !! evt_zone_or_user evt = None →
  (_handle_zone_trouble evt w).2 = Raise KeyError.
Proof. destruct w as [s recs]. cbn. intros Hzone. M_result. Qed.

Lemma _handle_zone_trouble_restore_KeyError evt w :
  zone_status (self w) !! evt_zone_or_user evt = None →
  (_handle_zone_trouble_restore evt w).2 = Raise KeyError.
Proof. destruct w as [s recs]. cbn. intros Hzone. M_result. Qed.

(** *** Events *)

Lemma set_alarm_off_on zs :
  alarm zs = false → set_alarm false (set_alarm true zs) = zs.
Proof. destruct zs; cbn. by intros ->. Qed.

Lemma set_bypassed_off_on zs :
  bypassed zs = false → set_bypassed false (set_bypassed true zs) = zs.
Proof. destruct zs; cbn. by intros ->. Qed.

Lemma effect_alarm evt :
  isinstance evt AlarmEvent = true →
  effect evt = alarm_effect (evt_zone_or_user evt).
Proof. unfold effect. by intros ->. Qed.

Lemma alarm_effect_idem z s :
  alarm_effect z (alarm_effect z s) = alarm_effect z s.
Proof.
  unfold alarm_effect, set_zone.
  repeat (case_match; simplify_map_eq/=; try done).
Qed.

Lemma alarm_restore_effect_idem z s :
  alarm_restore_effect z (alarm_restore_effect z s) = alarm_restore_effect z s.
Proof.
  unfold alarm_restore_effect, set_zone.
  repeat (case_match; simplify_map_eq/=; try done).
Qed.

Lemma bypass_effect_idem z s :
  bypass_effect z (bypass_effect z s) = bypass_effect z s.
Proof.
  unfold bypass_effect, set_zone.
  repeat (case_match; simplify_map_eq/=; try done).
Qed.

Lemma unbypass_effect_idem z s :
  unbypass_effect z (unbypass_effect z s) = unbypass_effect z s.
Proof.
  unfold unbypass_effect, set_zone.
  repeat (case_match; simplify_map_eq/=; try done).
Qed.

Lemma trouble_effect_idem z name s :
  trouble_effect z name (trouble_effect z name s) = trouble_effect z name s.
Proof.
  unfold trouble_effect.
  destruct (zone_status s !! z) as [zs|] eqn:Hzs; [|by rewrite Hzs].
  destruct (zone_troubles s !! z) as [causes|] eqn:Hc; [|by rewrite Hzs, Hc].
  assert (Hin : name ∈ causes ∪ {[name]})
    by (apply elem_of_union_r; by apply elem_of_singleton).
  destruct (trouble zs) eqn:Htr.
  - destruct (bool_decide (name ∈ causes)) eqn:Hname.
    + by rewrite Hzs, Hc, Htr, Hname.
    + cbn. rewrite Hzs, lookup_insert_eq, Htr.
      by rewrite (bool_decide_eq_true_2 _ Hin).
  - cbn. rewrite !lookup_insert_eq. cbn.
    by rewrite (bool_decide_eq_true_2 _ Hin).
Qed.

Lemma trouble_restore_effect_idem z name s :
  trouble_restore_effect z name (trouble_restore_effect z name s)
  = trouble_restore_effect z name s.
Proof.
  unfold trouble_restore_effect.
  destruct (zone_status s !! z) as [zs|] eqn:Hzs; [|by rewrite Hzs].
  destruct (zone_troubles s !! z) as [causes|] eqn:Hc; [|by rewrite Hzs, Hc].
  destruct (trouble zs) eqn:Htr; [|by rewrite Hzs, Hc, Htr].
  assert (Hout : name ∉ causes ∖ {[name]}).
  { intros [_ Hn]%elem_of_difference. apply Hn. by apply elem_of_singleton. }
  destruct (bool_decide (name ∈ causes)) eqn:Hname.
  - destruct (bool_decide (causes ∖ {[name]} = ∅)) eqn:Hempty.
    + cbn. by rewrite !lookup_insert_eq.
    + cbn. rewrite Hzs, lookup_insert_eq, Htr.
      by rewrite (bool_decide_eq_false_2 _ Hout), Hempty.
  - destruct (bool_decide (causes = ∅)) eqn:Hempty.
    + cbn. by rewrite lookup_insert_eq, Hc.
    + by rewrite Hzs, Hc, Htr, Hname, Hempty.
Qed.

(** X14. Delivering the same event twice leaves the monitor as delivering
    it once does, for every event and every state of the monitor: the
    second delivery finds nothing left to change. *)
Theorem _handle_event_idempotent evt w :
  self (_handle_event evt (_handle_event evt w).1).1
  = self (_handle_event evt w).1.
Proof.
  rewrite !_handle_event_self. unfold effect.
  repeat case_match;
    auto using alarm_effect_idem, alarm_restore_effect_idem,
      trouble_effect_idem, trouble_restore_effect_idem, bypass_effect_idem,
      unbypass_effect_idem.
Qed.

Lemma StateMonitor_eta s :
  mkStateMonitor (arming_status s) (zone_status s) (zone_partitions s)
    (zone_troubles s) = s.
Proof. by destruct s. Qed.

(** X15. An alarm of any kind on a zone that is not in alarm, followed by
    the alarm restore for that zone, leaves the monitor as it was before
    the two events. *)
Theorem alarm_then_restore evt w zs name :
  isinstance evt AlarmEvent = true →
  zone_status (self w) !! evt_zone_or_user evt = Some zs →
  alarm zs = false →
  let restore := Event OtherAlarmRestore (evt_zone_or_user evt) name in
  (_handle_event evt w).2 = Ok tt
  ∧ alarm <$> zone_status (self (_handle_event evt w).1)
                !! evt_zone_or_user evt = Some true
  ∧ (_handle_event restore (_handle_event evt w).1).2 = Ok tt
  ∧ self (_handle_event restore (_handle_event evt w).1).1 = self w.
Proof.
  intros Hkind Hzs Halarm restore.
  assert (Hfirst : self (_handle_event evt w).1
                   = set_zone (self w) (evt_zone_or_user evt)
                       (set_alarm true zs)).
  { rewrite _handle_event_self, effect_alarm by done.
    unfold alarm_effect. by rewrite Hzs, Halarm. }
  assert (Hres : ∀ w', (_handle_event evt w').2 = (_handle_alarm evt
             (mkWorld (self w')
                (records w' ++
                 [(DEBUG, "Got System Event Notification: %s"%string)]))).2).
  { intros w'. unfold _handle_event. rewrite logger_then. by rewrite Hkind. }
  split; [rewrite Hres; by eapply _handle_alarm_ok|].
  split; [rewrite Hfirst; cbn; by rewrite lookup_insert_eq|].
  clear Hres. revert Hfirst.
  generalize (_handle_event evt w).1. intros w1 Hfirst.
  split.
  - unfold restore, _handle_event. rewrite logger_then. cbn [isinstance].
    change (issubclass OtherAlarmRestore AlarmEvent) with false.
    change (issubclass OtherAlarmRestore OtherAlarmRestore) with true.
    cbv beta iota.
    eapply (_handle_alarm_restore_ok
              (Event OtherAlarmRestore (evt_zone_or_user evt) name)).
    cbn [self evt_zone_or_user]. rewrite Hfirst. cbn.
    by rewrite lookup_insert_eq.
  - rewrite _handle_event_self, Hfirst.
    unfold restore, effect. cbn [isinstance evt_zone_or_user].
    change (issubclass OtherAlarmRestore AlarmEvent) with false.
    change (issubclass OtherAlarmRestore OtherAlarmRestore) with true.
    cbv beta iota. unfold alarm_restore_effect, set_zone. cbn.
    rewrite lookup_insert_eq. cbn.
    rewrite insert_insert_eq, set_alarm_off_on by done.
    rewrite insert_id by done. apply StateMonitor_eta.
Qed.

Lemma alarm_then_restore_witness :
  self (_handle_event (Event OtherAlarmRestore 1 None)
          (_handle_event (Event FireAlarm 1 None)
             (run [snapshot_zone1] initial_world).1).1).1
  = self (run [snapshot_zone1] initial_world).1.
Proof.
  apply (alarm_then_restore (Event FireAlarm 1 None)
           (run [snapshot_zone1] initial_world).1 (ZoneState_init 0) None).
  - reflexivity.
  - vm_compute. reflexivity.
  - reflexivity.
Defined.

(** X16. A bypass of a zone that is not bypassed, followed by the unbypass
    of that zone, leaves the monitor as it was before the two events. *)
Theorem bypass_then_unbypass w z zs name name' :
  zone_status (self w) !! z = Some zs →
  bypassed zs = false →
  let bypass := Event OtherBypass z name in
  let unbypass := Event OtherUnbypass z name' in
  (_handle_event bypass w).2 = Ok tt
  ∧ bypassed <$> zone_status (self (_handle_event bypass w).1) !! z
    = Some true
  ∧ (_handle_event unbypass (_handle_event bypass w).1).2 = Ok tt
  ∧ self (_handle_event unbypass (_handle_event bypass w).1).1 = self w.
Proof.
  intros Hzs Hby bypass unbypass.
  assert (Hfirst : self (_handle_event bypass w).1
                   = set_zone (self w) z (set_bypassed true zs)).
  { rewrite _handle_event_self.
    change (effect bypass (self w)) with (bypass_effect z (self w)).
    unfold bypass_effect. by rewrite Hzs, Hby. }
  split.
  { change ((_handle_event bypass w).2) with
      ((_handle_zone_bypass bypass
          (mkWorld (self w)
             (records w ++
              [(DEBUG, "Got System Event Notification: %s"%string)]))).2).
    by eapply _handle_zone_bypass_ok. }
  split; [rewrite Hfirst; cbn; by rewrite lookup_insert_eq|].
  revert Hfirst. generalize (_handle_event bypass w).1. intros w1 Hfirst.
  split.
  - change ((_handle_event unbypass w1).2) with
      ((_handle_zone_unbypass unbypass
          (mkWorld (self w1)
             (records w1 ++
              [(DEBUG, "Got System Event Notification: %s"%string)]))).2).
    eapply _handle_zone_unbypass_ok.
    cbn [self evt_zone_or_user unbypass]. rewrite Hfirst. cbn.
    by rewrite lookup_insert_eq.
  - rewrite _handle_event_self, Hfirst.
    change (effect unbypass) with (unbypass_effect z).
    unfold unbypass_effect, set_zone. cbn.
    rewrite lookup_insert_eq. cbn.
    rewrite insert_insert_eq, set_bypassed_off_on by done.
    rewrite insert_id by done. apply StateMonitor_eta.
Qed.

Lemma bypass_then_unbypass_witness :
  self (_handle_event (Event OtherUnbypass 1 None)
          (_handle_event (Event OtherBypass 1 None)
             (run [snapshot_zone1] initial_world).1).1).1
  = self (run [snapshot_zone1] initial_world).1.
Proof.
  apply (bypass_then_unbypass (run [snapshot_zone1] initial_world).1 1
           (ZoneState_init 0) None None).
  - vm_compute. reflexivity.
  - reflexivity.
Defined.

(** *** Unknown zones, kinds without a handler *)

Lemma run_body_raise message is_ready w e :
  (handle_message message w).2 = Raise e →
  run_body message is_ready w = ((handle_message message w).1, Raise e).
Proof.
  unfold run_body. cbv [mbind M_bind].
  destruct (handle_message message w) as [w' [[]|e']]; cbn; [done|].
  by intros [= ->].
Qed.

Lemma _handle_event_zone_handled evt w e :
  zone_handled evt = true →
  (_handle_alarm evt w).2 = e → (_handle_alarm_restore evt w).2 = e →
  (_handle_zone_trouble evt w).2 = e →
  (_handle_zone_trouble_restore evt w).2 = e →
  (_handle_zone_bypass evt w).2 = e → (_handle_zone_unbypass evt w).2 = e →
  ∀ w0, w = mkWorld (self w0)
              (records w0 ++
               [(DEBUG, "Got System Event Notification: %s"%string)]) →
  (_handle_event evt w0).2 = e.
Proof.
  intros Hkind H1 H2 H3 H4 H5 H6 w0 ->.
  unfold _handle_event. rewrite logger_then.
  unfold zone_handled in Hkind.
  repeat case_match; try done.
  all: repeat match goal with
         | H : isinstance _ _ = false |- _ => rewrite H in Hkind
         | H : _ || _ = false |- _ =>
             apply orb_false_iff in H as [? ?]
         end; cbn in Hkind; try discriminate.
Qed.

(** X17. An event of a kind that has a zone handler, for a zone that is
    not in [zone_status], raises [KeyError] and mutates nothing; [run]
    does not catch the exception: the loop ends and the messages that
    follow are not read. *)
Theorem unknown_zone_KeyError evt w raw data from_panel code subject
    minute hour day month rest is_ready :
  zone_handled evt = true →
  zone_status (self w) !! evt_zone_or_user evt = None →
  let packet :=
    mkMessagePacket raw data from_panel
      (SystemEventNotification code subject evt minute hour day month) in
  (_handle_event evt w).2 = Raise KeyError
  ∧ self (_handle_event evt w).1 = self w
  ∧ (run_loop (packet :: rest) is_ready w).2 = Raise KeyError
  ∧ self (run_loop (packet :: rest) is_ready w).1 = self w.
Proof.
  intros Hkind Hzone packet.
  assert (Hraise : (_handle_event evt w).2 = Raise KeyError).
  { eapply (_handle_event_zone_handled evt _ _ Hkind); [..|reflexivity];
      first [ by apply _handle_alarm_KeyError
            | by apply _handle_alarm_restore_KeyError
            | by apply _handle_zone_trouble_KeyError
            | by apply _handle_zone_trouble_restore_KeyError
            | by apply _handle_zone_bypass_KeyError
            | by apply _handle_zone_unbypass_KeyError ]. }
  assert (Hself : self (_handle_event evt w).1 = self w).
  { rewrite _handle_event_self. unfold effect, alarm_effect,
      alarm_restore_effect, trouble_effect, trouble_restore_effect,
      bypass_effect, unbypass_effect.
    rewrite Hzone. by repeat case_match. }
  split; [done|]. split; [done|].
  cbn [run_loop]. cbv [mbind M_bind].
  rewrite (run_body_raise packet is_ready w KeyError) by exact Hraise.
  split; [done|]. exact Hself.
Qed.

Lemma unknown_zone_KeyError_witness :
  (run_loop [notification (Event OtherBypass 7 None); snapshot_zone1]
     false (run [snapshot_zone1] initial_world).1).2 = Raise KeyError.
Proof.
  apply (unknown_zone_KeyError (Event OtherBypass 7 None)
           (run [snapshot_zone1] initial_world).1 "" "" true 0 7 0 0 0 0
           [snapshot_zone1] false).
  - reflexivity.
  - vm_compute. reflexivity.
Defined.

Lemma _handle_event_unhandled evt w :
  zone_handled evt = false → is_fault evt = false →
  _handle_event evt w
  = (mkWorld (self w)
       (records w ++
        [(DEBUG, "Got System Event Notification: %s"%string)] ++
        [(WARNING, "Got un-handled System Event Notification: %s"%string)]),
     Ok tt).
Proof.
  unfold zone_handled, is_fault. intros Hz Hf.
  repeat match goal with
         | H : _ || _ = false |- _ => apply orb_false_iff in H as [? ?]
         end.
  unfold _handle_event. rewrite logger_then.
  repeat match goal with
         | H : isinstance _ _ = false |- _ => rewrite H; clear H
         end.
  unfold logger. cbn [orb self records]. by rewrite <- app_assoc.
Qed.

(** X18. An [UnknownEvent], and an event of a class that [_handle_event]
    has no handler for (the arm and disarm events, AC fail and restore,
    alarm cancel, day/night, fail to arm or disarm, and the two extended
    low-battery kinds, which are no subclasses of [LowBattery]), mutates
    nothing and raises nothing: the event is logged at warning level.
    Every other class has a zone handler or is a fault kind. *)
Theorem unhandled_event_logged evt w :
  (match evt with
   | Event klass _ _ => In klass unhandled_kinds
   | UnknownEvent _ _ => True
   end) →
  _handle_event evt w
  = (mkWorld (self w)
       (records w ++
        [(DEBUG, "Got System Event Notification: %s"%string)] ++
        [(WARNING, "Got un-handled System Event Notification: %s"%string)]),
     Ok tt)
  ∧ ∀ klass z name,
      ¬ In klass unhandled_kinds →
      zone_handled (Event klass z name) || is_fault (Event klass z name)
      = true.
Proof.
  intros Hkind. split.
  - apply _handle_event_unhandled.
    + destruct evt as [k z name|code z]; [|reflexivity]. cbn in Hkind.
      repeat (destruct Hkind as [<-|Hkind]; [reflexivity|]). contradiction.
    + destruct evt as [k z name|code z]; [|reflexivity]. cbn in Hkind.
      repeat (destruct Hkind as [<-|Hkind]; [reflexivity|]). contradiction.
  - intros k z name Hno.
    destruct k; try reflexivity; exfalso; apply Hno; cbn; auto 20.
Qed.

Lemma unhandled_event_logged_witness :
  _handle_event (Event LowBatteryExtended 1 None)
    (run [snapshot_zone1] initial_world).1
  = (mkWorld (self (run [snapshot_zone1] initial_world).1)
       (records (run [snapshot_zone1] initial_world).1 ++
        [(DEBUG, "Got System Event Notification: %s"%string)] ++
        [(WARNING, "Got un-handled System Event Notification: %s"%string)]),
     Ok tt).
Proof.
  apply (unhandled_event_logged (Event LowBatteryExtended 1 None)
           (run [snapshot_zone1] initial_world).1).
  simpl. auto 20.
Defined.

(** *** What events and messages leave alone *)

Lemma transition_frame z s s' :
  transition z s s' →
  arming_status s' = arming_status s
  ∧ zone_partitions s' = zone_partitions s
  ∧ dom (zone_status s') = dom (zone_status s)
  ∧ dom (zone_troubles s') = dom (zone_troubles s).
Proof.
  destruct 1; cbn; repeat split;
    rewrite ?dom_insert_lookup_L; eauto.
Qed.

Lemma _handle_event_frame evt w :
  arming_status (self (_handle_event evt w).1) = arming_status (self w)
  ∧ zone_partitions (self (_handle_event evt w).1) = zone_partitions (self w)
  ∧ dom (zone_status (self (_handle_event evt w).1))
    = dom (zone_status (self w))
  ∧ dom (zone_troubles (self (_handle_event evt w).1))
    = dom (zone_troubles (self w)).
Proof.
  apply (transition_frame (evt_zone_or_user evt)), _handle_event_transition.
Qed.

(** X19. No event changes [arming_status] or [zone_partitions], adds a
    zone to [zone_status] or [zone_troubles] or removes one, or touches
    the state or the causes of a zone other than the one it names. *)
Theorem event_frame evt w :
  let s := self w in
  let s' := self (_handle_event evt w).1 in
  arming_status s' = arming_status s
  ∧ zone_partitions s' = zone_partitions s
  ∧ dom (zone_status s') = dom (zone_status s)
  ∧ dom (zone_troubles s') = dom (zone_troubles s)
  ∧ ∀ z, z ≠ evt_zone_or_user evt →
      zone_status s' !! z = zone_status s !! z
      ∧ zone_troubles s' !! z = zone_troubles s !! z.
Proof.
  intros s s'. pose proof (_handle_event_transition evt w) as Ht.
  fold s s' in Ht.
  pose proof (transition_frame _ _ _ Ht) as (Ha & Hp & Hd & Hd').
  repeat (split; [done|]). intros z Hz.
  destruct Ht; cbn; by rewrite ?lookup_insert_ne.
Qed.

Lemma handle_message_cases message w :
  let s := self w in
  let s' := self (handle_message message w).1 in
  match fields message with
  | ArmingStatusReport partition_state =>
      s' = mkStateMonitor (partition_state ∪ arming_status s)
             (zone_status s) (zone_partitions s) (zone_troubles s)
  | ZoneStatusReport zones =>
      s' = mkStateMonitor (arming_status s) (zones ∪ zone_status s)
             (zone_partitions s)
             ((fun _ => ∅) <$> (zones ∪ zone_status s))
  | ZonePartitionReport partitions =>
      s' = mkStateMonitor (arming_status s) (zone_status s)
             (partitions ∪ zone_partitions s) (zone_troubles s)
  | SystemEventNotification _ _ evt _ _ _ _ =>
      s' = self (_handle_event evt w).1
  | _ => s' = s
  end.
Proof. unfold handle_message. by destruct (fields message). Qed.

(** A generic invariant of the loop of [run]. *)
Lemma run_loop_invariant (P : StateMonitor → Prop) :
  (∀ message w, P (self w) → P (self (handle_message message w).1)) →
  ∀ messages is_ready w,
    P (self w) → P (self (run_loop messages is_ready w).1).
Proof.
  intros Hstep messages.
  induction messages as [|message rest IH]; intros is_ready w Hinv;
    [exact Hinv|].
  cbn [run_loop]. cbv [mbind M_bind].
  pose proof (run_body_self message is_ready w) as Hself.
  pose proof (Hstep message w Hinv) as Hnext.
  rewrite <- Hself in Hnext.
  destruct (run_body message is_ready w) as [w' [is_ready'|e]]; cbn in *.
  - by apply IH.
  - exact Hnext.
Qed.

Lemma handle_message_dom message w :
  dom (zone_troubles (self w)) = dom (zone_status (self w)) →
  dom (zone_troubles (self (handle_message message w).1))
  = dom (zone_status (self (handle_message message w).1)).
Proof.
  intros Hinv. pose proof (handle_message_cases message w) as Hcases.
  cbn zeta in Hcases.
  destruct (fields message); rewrite Hcases; cbn; try done.
  - by rewrite dom_fmap_L.
  - pose proof (_handle_event_frame event_type w) as (_ & _ & -> & ->).
    done.
Qed.

(** X20. In every state the monitor reaches, [zone_troubles] and
    [zone_status] have the same keys: every zone of a snapshot has a cause
    set, and no cause set is without its zone. *)
Theorem zone_troubles_keys messages :
  dom (zone_troubles (after messages)) = dom (zone_status (after messages)).
Proof.
  apply (run_loop_invariant
           (fun s => dom (zone_troubles s) = dom (zone_status s))).
  - apply handle_message_dom.
  - done.
Qed.

Lemma _handle_event_ok evt w zs causes :
  is_fault evt = false →
  zone_status (self w) !! evt_zone_or_user evt = Some zs →
  zone_troubles (self w) !! evt_zone_or_user evt = Some causes →
  (_handle_event evt w).2 = Ok tt.
Proof.
  intros Hfault Hzs Hc. destruct (zone_handled evt) eqn:Hkind.
  - eapply (_handle_event_zone_handled evt _ _ Hkind); [..|reflexivity];
      first [ by eapply _handle_alarm_ok
            | by eapply _handle_alarm_restore_ok
            | by eapply _handle_zone_trouble_ok
            | by eapply _handle_zone_trouble_restore_ok
            | by eapply _handle_zone_bypass_ok
            | by eapply _handle_zone_unbypass_ok ].
  - by rewrite _handle_event_unhandled.
Qed.

(** X21. In every state the monitor reaches, an event that names a zone of
    [zone_status] and is no fault event is handled without an exception:
    the zone has its cause set. *)
Theorem known_zone_event_ok messages evt zs :
  zone_status (after messages) !! evt_zone_or_user evt = Some zs →
  is_fault evt = false →
  (_handle_event evt (run messages initial_world).1).2 = Ok tt.
Proof.
  intros Hzs Hfault.
  assert (Hin : evt_zone_or_user evt ∈ dom (zone_troubles (after messages))).
  { pose proof (run_loop_invariant
               (fun s => dom (zone_troubles s) = dom (zone_status s))
               handle_message_dom messages false initial_world eq_refl)
      as Hdom.
    change (dom (zone_troubles (after messages))
            = dom (zone_status (after messages))) in Hdom.
    rewrite Hdom. apply elem_of_dom. eauto. }
  apply elem_of_dom in Hin as [causes Hc].
  by eapply _handle_event_ok.
Qed.

Lemma known_zone_event_ok_witness :
  (_handle_event (Event RfLowBatteryRestore 1 None)
     (run [snapshot_zone1] initial_world).1).2 = Ok tt.
Proof.
  apply (known_zone_event_ok [snapshot_zone1]
           (Event RfLowBatteryRestore 1 None) (ZoneState_init 0)).
  - vm_compute. reflexivity.
  - reflexivity.
Defined.

(** *** Readiness *)

Lemma nonempty_true {V} (d : gmap Z V) : nonempty d = true ↔ d ≠ ∅.
Proof. unfold nonempty. apply bool_decide_eq_true. Qed.

Lemma update_ready_result is_ready w :
  (update_ready is_ready w).2
  = Ok (is_ready
        || (nonempty (arming_status (self w))
            && nonempty (zone_status (self w))
            && nonempty (zone_partitions (self w)))).
Proof.
  unfold update_ready. unfold_M.
  destruct is_ready; cbn; [done|].
  by destruct (nonempty _ && nonempty _ && nonempty _).
Qed.

Lemma populated_nonempty s :
  nonempty (arming_status s) && nonempty (zone_status s)
  && nonempty (zone_partitions s) = true ↔ populated s.
Proof.
  unfold populated. rewrite !andb_true_iff, !nonempty_true. tauto.
Qed.

Lemma union_nonempty_r {V} (m1 m2 : gmap Z V) : m2 ≠ ∅ → m1 ∪ m2 ≠ ∅.
Proof.
  intros Hne Hu. apply Hne. apply map_empty. intros i.
  assert (Hi : (m1 ∪ m2) !! i = None) by (by rewrite Hu, lookup_empty).
  by apply lookup_union_None in Hi as [_ ?].
Qed.

Lemma handle_message_populated message w :
  populated (self w) → populated (self (handle_message message w).1).
Proof.
  unfold populated. intros (Ha & Hz & Hp).
  pose proof (handle_message_cases message w) as Hcases. cbn zeta in Hcases.
  destruct (fields message); rewrite Hcases; cbn;
    try (by repeat split);
    try (by repeat split; try done; apply union_nonempty_r).
  pose proof (_handle_event_frame event_type w) as (-> & -> & Hd & _).
  repeat split; try done.
  intros Hempty. apply Hz. apply dom_empty_iff_L. rewrite <- Hd.
  by apply dom_empty_iff_L.
Qed.

Lemma run_loop_ready messages : ∀ is_ready w w' is_ready',
  run_loop messages is_ready w = (w', Ok is_ready') →
  (is_ready = true ↔ populated (self w)) →
  (is_ready' = true ↔ populated (self w')).
Proof.
  induction messages as [|message rest IH];
    intros is_ready w w' is_ready' Hrun Hinv.
  - cbn in Hrun. by injection Hrun as <- <-.
  - cbn [run_loop] in Hrun. cbv [mbind M_bind] in Hrun.
    destruct (run_body message is_ready w) as [w1 [r1|e]] eqn:Hbody;
      [|discriminate].
    apply (IH r1 w1 w' is_ready' Hrun).
    pose proof (run_body_self message is_ready w) as Hself.
    rewrite Hbody in Hself. cbn in Hself.
    assert (Hr1 : r1 = is_ready || (nonempty (arming_status (self w1))
                   && nonempty (zone_status (self w1))
                   && nonempty (zone_partitions (self w1)))).
    { unfold run_body in Hbody. cbv [mbind M_bind] in Hbody.
      destruct (handle_message message w) as [w0 [[]|e]] eqn:Hh;
        [|discriminate].
      pose proof (update_ready_result is_ready w0) as Hres.
      pose proof (MonitorFacts.update_ready_self is_ready w0) as Hs0.
      rewrite Hbody in Hres, Hs0. cbn in Hres, Hs0.
      injection Hres as ->. by rewrite Hs0. }
    rewrite Hr1, orb_true_iff, populated_nonempty. split; [|tauto].
    intros [Hready|Hpop]; [|done].
    rewrite Hself. apply handle_message_populated. by apply Hinv.
Qed.

(** X22. When [run] has read all of a stream without an exception, its
    [is_ready] is true exactly if the three snapshot maps are non-empty:
    the maps never become empty again once they are populated. *)
Theorem run_ready_iff messages w is_ready :
  run messages initial_world = (w, Ok is_ready) →
  (is_ready = true ↔ populated (self w)).
Proof.
  intros Hrun. apply (run_loop_ready messages false initial_world w _ Hrun).
  split; [done|]. by intros (Ha & _).
Qed.

Lemma run_ready_iff_witness :
  true = true ↔ populated (self (run snapshots initial_world).1).
Proof.
  apply (run_ready_iff snapshots (run snapshots initial_world).1 true).
  vm_compute. reflexivity.
Defined.

(** *** Messages that are only logged, and what a message keeps *)

Lemma errors_app w l :
  errors (mkWorld (self w) (records w ++ l))
  = (errors w
     + length (List.filter (fun r => bool_decide (r.1 = ERROR)) l))%nat.
Proof. unfold errors. cbn. by rewrite List.filter_app, length_app. Qed.

Ltac count_errors :=
  rewrite <- ?app_assoc, ?errors_app;
  cbn [List.filter fst app];
  repeat case_bool_decide; try done; cbn [length]; lia.

Lemma update_ready_errors is_ready w :
  errors (update_ready is_ready w).1 = errors w.
Proof.
  unfold update_ready. cbv [mbind M_bind get mret M_ret logger].
  cbn [fst snd self records].
  case_match; cbn [fst snd]; [|done].
  count_errors.
Qed.

Lemma only_logged_step message is_ready w :
  only_logged (fields message) = true →
  ∃ b, (run_body message is_ready w).2 = Ok b
       ∧ self (run_body message is_ready w).1 = self w
       ∧ errors (run_body message is_ready w).1 = S (errors w).
Proof.
  intros Hkind.
  assert (∃ w', handle_message message w = (w', Ok tt)
                ∧ self w' = self w ∧ errors w' = S (errors w))
    as (w' & Hw' & Hself & Herr).
  { unfold handle_message, logger.
    destruct (fields message); try discriminate;
      cbv [mbind M_bind]; cbn [fst snd self records];
      eexists; (split; [reflexivity|]); (split; [reflexivity|]).
    all: count_errors. }
  unfold run_body. cbv [mbind M_bind]. rewrite Hw'.
  pose proof (update_ready_result is_ready w') as Hres.
  pose proof (MonitorFacts.update_ready_self is_ready w') as Hs.
  pose proof (update_ready_errors is_ready w') as He.
  destruct (update_ready is_ready w') as [w'' r]; cbn [fst snd] in *.
  destruct r as [b|e]; [|discriminate Hres].
  exists b. repeat split; congruence.
Qed.

(** X23. A stream of echoes of arm and disarm commands, of requests and of
    unknown messages is read to its end without an exception; it leaves
    the four maps of the monitor as they were, and each message adds one
    record at error level to the log. *)
Theorem only_logged_stream messages is_ready w :
  Forall (fun m => only_logged (fields m) = true) messages →
  (∃ b, (run_loop messages is_ready w).2 = Ok b)
  ∧ self (run_loop messages is_ready w).1 = self w
  ∧ errors (run_loop messages is_ready w).1
    = (errors w + length messages)%nat.
Proof.
  intros Hall. revert is_ready w.
  induction Hall as [|message rest Hkind _ IH]; intros is_ready w.
  { cbn. split; [by eexists|]. split; [done|lia]. }
  destruct (only_logged_step message is_ready w Hkind)
    as (b & Hb & Hself & Herr).
  cbn [run_loop]. cbv [mbind M_bind].
  destruct (run_body message is_ready w) as [w' r]; cbn [fst snd] in *.
  subst r. destruct (IH b w') as (Hres & Hself' & Herr').
  split; [exact Hres|]. split; [congruence|].
  rewrite Herr', Herr. cbn [length]. lia.
Qed.

Lemma only_logged_stream_witness :
  (∃ b, (run_loop [message (ArmAwayMessage 2 "2345"); message ZoneStatusRequest]
           false initial_world).2 = Ok b)
  ∧ self (run_loop [message (ArmAwayMessage 2 "2345");
                    message ZoneStatusRequest] false initial_world).1
    = self initial_world
  ∧ errors (run_loop [message (ArmAwayMessage 2 "2345");
                      message ZoneStatusRequest] false initial_world).1
    = (errors initial_world + 2)%nat.
Proof.
  apply (only_logged_stream
           [message (ArmAwayMessage 2 "2345"); message ZoneStatusRequest]
           false initial_world).
  repeat constructor.
Defined.

(** X24. No message makes the monitor forget a partition or a zone: the
    keys of [arming_status], [zone_status] and [zone_partitions] before a
    message are still keys after it. *)
Theorem run_body_keeps_keys message is_ready w :
  let s := self w in
  let s' := self (run_body message is_ready w).1 in
  dom (arming_status s) ⊆ dom (arming_status s')
  ∧ dom (zone_status s) ⊆ dom (zone_status s')
  ∧ dom (zone_partitions s) ⊆ dom (zone_partitions s').
Proof.
  cbn zeta. rewrite MonitorFacts.run_body_self.
  pose proof (handle_message_cases message w) as Hcases. cbn zeta in Hcases.
  destruct (fields message); rewrite Hcases; cbn;
    rewrite ?dom_union_L; try (by repeat split; try apply union_subseteq_r).
  by pose proof (_handle_event_frame event_type w) as (-> & -> & -> & _).
Qed.

(** *** Edge cases of the trouble handlers *)

(** X25. A zone that a snapshot reported in trouble has no cause; any
    trouble restore for it, of whatever kind, clears its trouble flag. *)
Theorem restore_clears_snapshot_trouble w z zs klass name :
  In klass restore_kinds →
  zone_status (self w) !! z = Some zs →
  trouble zs = true →
  zone_troubles (self w) !! z = Some ∅ →
  (_handle_event (Event klass z name) w).2 = Ok tt
  ∧ self (_handle_event (Event klass z name) w).1
    = set_zone (self w) z (set_trouble false zs).
Proof.
  intros Hkind Hzs Htr Hc. split.
  - eapply _handle_event_ok; [|done..].
    cbn in Hkind. by destruct Hkind as [<-|[<-|[<-|[]]]].
  - rewrite _handle_event_self.
    assert (Heff : effect (Event klass z name)
                   = trouble_restore_effect z (NAME klass)).
    { cbn in Hkind. by destruct Hkind as [<-|[<-|[<-|[]]]]. }
    rewrite Heff. unfold trouble_restore_effect. rewrite Hzs, Hc, Htr.
    rewrite (bool_decide_eq_false_2 _ (not_elem_of_empty (NAME klass))).
    by rewrite bool_decide_eq_true_2.
Qed.

Lemma restore_clears_snapshot_trouble_witness :
  self (_handle_event (Event LowBatteryRestore 1 None)
          (run [snapshot_in_trouble] initial_world).1).1
  = set_zone (self (run [snapshot_in_trouble] initial_world).1) 1
      (set_trouble false (ZoneState_init 2)).
Proof.
  apply (restore_clears_snapshot_trouble
           (run [snapshot_in_trouble] initial_world).1 1 (ZoneState_init 2)
           LowBatteryRestore None).
  - simpl. auto.
  - vm_compute. reflexivity.
  - reflexivity.
  - vm_compute. reflexivity.
Defined.

(** X26. The guard of the alarm handler: an alarm of any kind on a known
    zone leaves the zone in alarm and raises nothing, whether the zone was
    in alarm or not; on a zone that is in alarm it changes nothing and
    logs a warning. *)
Theorem alarm_guard evt w zs :
  isinstance evt AlarmEvent = true →
  zone_status (self w) !! evt_zone_or_user evt = Some zs →
  (_handle_event evt w).2 = Ok tt
  ∧ zone_status (self (_handle_event evt w).1) !! evt_zone_or_user evt
    = Some (set_alarm true zs)
  ∧ (alarm zs = true →
     _handle_event evt w
     = (mkWorld (self w)
          (records w ++
           [ (DEBUG, "Got System Event Notification: %s"%string);
             (DEBUG, "Event: %s in zone %d"%string);
             (WARNING,
              "Got %s event for zone %d but zone is already in alarm"%string)
           ]),
        Ok tt)).
Proof.
  intros Hkind Hzs.
  assert (Hunfold : _handle_event evt w
                    = _handle_alarm evt
                        (mkWorld (self w)
                           (records w ++
                            [(DEBUG,
                              "Got System Event Notification: %s"%string)]))).
  { unfold _handle_event. rewrite logger_then. by rewrite Hkind. }
  split; [rewrite Hunfold; by eapply _handle_alarm_ok|].
  split.
  - rewrite _handle_event_self, effect_alarm by done.
    unfold alarm_effect. rewrite Hzs.
    destruct (alarm zs) eqn:Halarm.
    + rewrite Hzs. f_equal. destruct zs; cbn in *. by subst.
    + cbn. by rewrite lookup_insert_eq.
  - intros Halarm. rewrite Hunfold. destruct w as [s recs]. cbn in *.
    unfold_M. cbn. rewrite Hzs, Halarm. cbn.
    by rewrite <- !app_assoc.
Qed.

Lemma alarm_guard_witness :
  zone_status
    (self (_handle_event (Event DuressAlarm 1 None)
             (run alarm_stream initial_world).1).1) !! 1
  = Some (set_alarm true (set_alarm true (ZoneState_init 0))).
Proof.
  apply (alarm_guard (Event DuressAlarm 1 None)
           (run alarm_stream initial_world).1
           (set_alarm true (ZoneState_init 0))).
  - reflexivity.
  - vm_compute. reflexivity.
Defined.

End MonitorProps.

(** ** Zone transitions *)

Module TransitionFacts.

Import MonitorFacts MonitorProps.

(** The handler an event is given to, by the tests of [_handle_event] in
    their order. *)
Lemma effect_cases evt :
  let z := evt_zone_or_user evt in
  (isinstance evt OtherAlarmRestore = true →
   effect evt = alarm_restore_effect z)
  ∧ (isinstance evt RfLowBattery || isinstance evt OtherTrouble
     || isinstance evt LowBattery = true →
     effect evt = trouble_effect z (evt_NAME evt))
  ∧ (isinstance evt RfLowBatteryRestore || isinstance evt OtherTroubleRestore
     || isinstance evt LowBatteryRestore = true →
     effect evt = trouble_restore_effect z (evt_NAME evt))
  ∧ (isinstance evt OtherBypass = true → effect evt = bypass_effect z)
  ∧ (isinstance evt OtherUnbypass = true → effect evt = unbypass_effect z).
Proof.
  destruct evt as [k z name|code z]; [|by repeat split].
  destruct k; repeat split; intros H; try discriminate H; reflexivity.
Qed.

(** C10. Every zone transition the monitor applies on an event changes
    the stored [ZoneState] of the zone the event names, and no other, in
    exactly one boolean attribute, which is not [closed] or [open], and
    leaves its [_state_numeric] unchanged.  Equality, the orderings and
    [repr] of every stored [ZoneState] are therefore the same after the
    event as before.  The six transitions are pinned one by one: an
    alarm event on a zone not in alarm sets [alarm], the alarm restore on
    a zone in alarm clears it, a bypass on a zone not bypassed sets
    [bypassed], an unbypass on a bypassed zone clears it, a trouble event
    on a zone not in trouble sets [trouble], and a trouble restore on a
    zone in trouble whose cause set is empty once the name of the event
    is taken out clears it; the zone stored afterwards is the one stored
    before with this one attribute assigned and every other attribute,
    [_state_numeric] included, as it was.  The comparisons can disagree
    with the flags: after a fire alarm on a zone created as
    [ZoneState(0)], the stored object still compares equal to
    [ZoneState(0)] and prints as [<ZoneState(0)>], while its [alarm] flag
    is true and its string is ['CLOSED|ALARM']; after a trouble restore
    on a zone created as [ZoneState(2)], the stored object still
    compares equal to [ZoneState(2)], while its [trouble] flag is false
    and its string is ['CLOSED']. *)
Theorem zone_transition_keeps_numeric evt w :
  let s := self w in
  let s' := self (_handle_event evt w).1 in
  let z := evt_zone_or_user evt in
  (∀ z', z' ≠ z → zone_status s' !! z' = zone_status s !! z')
  ∧ (zone_status s' !! z = zone_status s !! z
     ∨ ∃ zs zs',
         zone_status s !! z = Some zs ∧ zone_status s' !! z = Some zs'
         ∧ flags_changed zs zs' = 1%nat
         ∧ closed zs' = closed zs ∧ open zs' = open zs
         ∧ _state_numeric zs' = _state_numeric zs)
  ∧ (∀ z' zs', zone_status s' !! z' = Some zs' →
       ∃ zs, zone_status s !! z' = Some zs
         ∧ _state_numeric zs' = _state_numeric zs
         ∧ ZoneState_repr zs' = ZoneState_repr zs
         ∧ ∀ other,
             ZoneState_eq zs' other = ZoneState_eq zs other
             ∧ ZoneState_eq other zs' = ZoneState_eq other zs
             ∧ ZoneState_lt zs' other = ZoneState_lt zs other
             ∧ ZoneState_lt other zs' = ZoneState_lt other zs
             ∧ ZoneState_le zs' other = ZoneState_le zs other
             ∧ ZoneState_gt zs' other = ZoneState_gt zs other
             ∧ ZoneState_ge zs' other = ZoneState_ge zs other)
  ∧ (∀ zs, zone_status s !! z = Some zs →
       (isinstance evt AlarmEvent = true → alarm zs = false →
        zone_status s' !! z
        = Some {| _state_numeric := _state_numeric zs;
                  closed := closed zs; open := open zs;
                  trouble := trouble zs; alarm := true;
                  bypassed := bypassed zs |})
       ∧ (isinstance evt OtherAlarmRestore = true → alarm zs = true →
          zone_status s' !! z
          = Some {| _state_numeric := _state_numeric zs;
                    closed := closed zs; open := open zs;
                    trouble := trouble zs; alarm := false;
                    bypassed := bypassed zs |})
       ∧ (isinstance evt OtherBypass = true → bypassed zs = false →
          zone_status s' !! z
          = Some {| _state_numeric := _state_numeric zs;
                    closed := closed zs; open := open zs;
                    trouble := trouble zs; alarm := alarm zs;
                    bypassed := true |})
       ∧ (isinstance evt OtherUnbypass = true → bypassed zs = true →
          zone_status s' !! z
          = Some {| _state_numeric := _state_numeric zs;
                    closed := closed zs; open := open zs;
                    trouble := trouble zs; alarm := alarm zs;
                    bypassed := false |})
       ∧ (∀ causes, zone_troubles s !! z = Some causes →
            (isinstance evt RfLowBattery || isinstance evt OtherTrouble
             || isinstance evt LowBattery = true →
             trouble zs = false →
             zone_status s' !! z
             = Some {| _state_numeric := _state_numeric zs;
                       closed := closed zs; open := open zs;
                       trouble := true; alarm := alarm zs;
                       bypassed := bypassed zs |})
            ∧ (isinstance evt RfLowBatteryRestore
               || isinstance evt OtherTroubleRestore
               || isinstance evt LowBatteryRestore = true →
               trouble zs = true → causes ∖ {[evt_NAME evt]} = ∅ →
               zone_status s' !! z
               = Some {| _state_numeric := _state_numeric zs;
                         closed := closed zs; open := open zs;
                         trouble := false; alarm := alarm zs;
                         bypassed := bypassed zs |})))
  ∧ (∃ zs, zone_status (after alarm_stream) !! 1 = Some zs
       ∧ ZoneState_eq zs (ZoneState_init 0) = true
       ∧ ZoneState_repr zs = "<ZoneState(0)>"%string
       ∧ alarm zs = true ∧ alarm (ZoneState_init 0) = false
       ∧ ZoneState_str zs = "CLOSED|ALARM"%string
       ∧ ZoneState_str (ZoneState_init 0) = "CLOSED"%string)
  ∧ (∃ zs,
       zone_status
         (after [snapshot_in_trouble;
                 notification (Event OtherTroubleRestore 1 None)]) !! 1
       = Some zs
       ∧ ZoneState_eq zs (ZoneState_init 2) = true
       ∧ ZoneState_repr zs = "<ZoneState(2)>"%string
       ∧ trouble zs = false ∧ trouble (ZoneState_init 2) = true
       ∧ ZoneState_str zs = "CLOSED"%string
       ∧ ZoneState_str (ZoneState_init 2) = "CLOSED|TROUBLE"%string).
Proof.
  intros s s' z.
  pose proof (_handle_event_transition evt w) as Ht.
  apply transition_zone_status in Ht. fold s s' z in Ht.
  split; [|split; [|split; [|split; [|split]]]].
  - intros z' Hz'.
    destruct Ht as [->|(zs & zs' & _ & -> & _)]; [done|].
    by rewrite lookup_insert_ne.
  - destruct Ht as [->|(zs & zs' & Hzs & -> & ?)]; [by left|].
    right. exists zs, zs'. by rewrite lookup_insert_eq.
  - intros z' zs1 Hzs1.
    destruct Ht as [Heq|(zs & zs' & Hzs & Heq & _ & _ & _ & Hnum)];
      rewrite Heq in Hzs1.
    + exists zs1. split; [done|]. split; [done|].
      by apply numeric_determines.
    + destruct (decide (z' = z)) as [->|Hne].
      * rewrite lookup_insert_eq in Hzs1. simplify_eq.
        exists zs. split; [done|]. split; [done|].
        by apply numeric_determines.
      * rewrite lookup_insert_ne in Hzs1 by done.
        exists zs1. split; [done|]. split; [done|].
        by apply numeric_determines.
  - clear Ht. intros zs Hzs.
    assert (Hs' : s' = effect evt s) by apply _handle_event_self.
    destruct (effect_cases evt) as (Har & Htr & Hre & Hby & Hun).
    fold z in Har, Htr, Hre, Hby, Hun.
    split; [|split; [|split; [|split]]].
    + intros Hk Hflag. rewrite Hs', (effect_alarm _ Hk). fold z.
      unfold alarm_effect. rewrite Hzs, Hflag. cbn.
      by rewrite lookup_insert_eq.
    + intros Hk Hflag. rewrite Hs', (Har Hk).
      unfold alarm_restore_effect. rewrite Hzs, Hflag. cbn.
      by rewrite lookup_insert_eq.
    + intros Hk Hflag. rewrite Hs', (Hby Hk).
      unfold bypass_effect. rewrite Hzs, Hflag. cbn.
      by rewrite lookup_insert_eq.
    + intros Hk Hflag. rewrite Hs', (Hun Hk).
      unfold unbypass_effect. rewrite Hzs, Hflag. cbn.
      by rewrite lookup_insert_eq.
    + intros causes Hcauses. split.
      * intros Hk Hflag. rewrite Hs', (Htr Hk).
        unfold trouble_effect. rewrite Hzs, Hcauses, Hflag. cbn.
        by rewrite lookup_insert_eq.
      * intros Hk Hflag Hlast. rewrite Hs', (Hre Hk).
        unfold trouble_restore_effect. rewrite Hzs, Hcauses, Hflag.
        case_bool_decide as Hin.
        -- rewrite bool_decide_eq_true_2 by done. cbn.
           by rewrite lookup_insert_eq.
        -- assert (causes = ∅) as ->.
           { apply leibniz_equiv. intros x. split; [|set_solver].
             intros Hx. assert (x ∈ causes ∖ {[evt_NAME evt]}) as Hx'.
             { apply elem_of_difference. split; [done|].
               rewrite not_elem_of_singleton. by intros ->. }
             by rewrite Hlast in Hx'. }
           rewrite bool_decide_eq_true_2 by done. cbn.
           by rewrite lookup_insert_eq.
  - exists (set_alarm true (ZoneState_init 0)).
    repeat split; vm_compute; reflexivity.
  - exists (set_trouble false (ZoneState_init 2)).
    repeat split; vm_compute; reflexivity.
Qed.

End TransitionFacts.

Module ZoneStateProps.

Lemma land_pow2 v k :
  0 ≤ k → Z.land v (2 ^ k) = if Z.testbit v k then 2 ^ k else 0.
Proof.
  intros Hk. apply Z.bits_inj'. intros n Hn.
  rewrite Z.land_spec, Z.pow2_bits_eqb by lia.
  destruct (Z.eqb_spec k n) as [->|Hne].
  - rewrite andb_true_r. destruct (Z.testbit v n) eqn:Hb.
    + by rewrite Z.pow2_bits_true.
    + by rewrite Z.bits_0.
  - rewrite andb_false_r. destruct (Z.testbit v k).
    + by rewrite Z.pow2_bits_false.
    + by rewrite Z.bits_0.
Qed.

Lemma land_1 v : Z.land v 1 = if Z.testbit v 0 then 1 else 0.
Proof. exact (land_pow2 v 0 ltac:(lia)). Qed.
Lemma land_2 v : Z.land v 2 = if Z.testbit v 1 then 2 else 0.
Proof. exact (land_pow2 v 1 ltac:(lia)). Qed.
Lemma land_4 v : Z.land v 4 = if Z.testbit v 2 then 4 else 0.
Proof. exact (land_pow2 v 2 ltac:(lia)). Qed.
Lemma land_8 v : Z.land v 8 = if Z.testbit v 3 then 8 else 0.
Proof. exact (land_pow2 v 3 ltac:(lia)). Qed.

(** The flags of [ZoneState(v)] for any integer [v]. *)
Lemma ZoneState_init_bits v :
  ZoneState_init v
  = mkZoneState v (negb (Z.testbit v 0)) (Z.testbit v 0) (Z.testbit v 1)
      (Z.testbit v 2) (Z.testbit v 3).
Proof.
  unfold ZoneState_init. rewrite land_1, land_2, land_4, land_8.
  by destruct (Z.testbit v 0), (Z.testbit v 1), (Z.testbit v 2),
    (Z.testbit v 3).
Qed.

(** X27. For every integer, negative or beyond 15 as well, [ZoneState(v)]
    is either closed or open, its flags are the bits 0 to 3 of [v], and
    its string lists the flags that are set: the flags and the string are
    those of [ZoneState(v % 16)], while [==] and [<] still compare the
    whole numbers. *)
Theorem ZoneState_low_bits v :
  closed (ZoneState_init v) = negb (open (ZoneState_init v))
  ∧ flags (ZoneState_init v)
    = [negb (Z.testbit v 0); Z.testbit v 0; Z.testbit v 1; Z.testbit v 2;
       Z.testbit v 3]
  ∧ ZoneState_str (ZoneState_init v) = join "|" (flag_names v)
  ∧ flags (ZoneState_init v) = flags (ZoneState_init (v mod 16))
  ∧ ZoneState_str (ZoneState_init v)
    = ZoneState_str (ZoneState_init (v mod 16))
  ∧ (∀ v', ZoneState_eq (ZoneState_init v) (ZoneState_init v') = true
           ↔ v = v')
  ∧ (∀ v', ZoneState_lt (ZoneState_init v) (ZoneState_init v') = true
           ↔ v < v').
Proof.
  assert (Hlow : ∀ k, 0 ≤ k < 4 → Z.testbit (v mod 16) k = Z.testbit v k).
  { intros k Hk. change 16 with (2 ^ 4). apply Z.mod_pow2_bits_low. lia. }
  rewrite (ZoneState_init_bits (v mod 16)), (ZoneState_init_bits v).
  unfold flags, ZoneState_str, flag_names, ZoneState_eq, ZoneState_lt;
    cbn [closed open trouble alarm bypassed _state_numeric].
  rewrite !Hlow by lia.
  repeat split; try done.
  - by destruct (Z.testbit v 0), (Z.testbit v 1), (Z.testbit v 2),
      (Z.testbit v 3).
  - by intros ?%Z.eqb_eq.
  - intros ->. apply Z.eqb_refl.
  - by intros ?%Z.ltb_lt.
  - by intros ?%Z.ltb_lt.
Qed.

End ZoneStateProps.

Module PushoverProps.

Import Pushover.

Lemma fold_add msgs : ∀ store, fold_left add msgs store = store ++ msgs.
Proof.
  induction msgs as [|msg msgs IH]; intros store; cbn.
  - by rewrite app_nil_r.
  - rewrite IH. unfold add. by rewrite <- app_assoc.
Qed.

(** X28. Messages added to the store come out of the next [get_all] once,
    in the order they were added and after those that were already there;
    the store is then empty, so that what a later [get_all] returns is
    exactly what was added in between. *)
Theorem store_delivers_once store msgs :
  let '(items, store') := get_all (fold_left add msgs store) in
  items = store ++ msgs
  ∧ get_all store' = ([], [])
  ∧ ∀ more, (get_all (fold_left add more store')).1 = more.
Proof.
  cbn. rewrite fold_add. repeat split. intros more. by rewrite fold_add.
Qed.

Lemma _do_notify_pushover_data self net ttl msg snd :
  Forall (fun p => data_token p = _app_token self
                   ∧ data_user p = _user_key self
                   ∧ data_title p = ttl ∧ data_message p = msg
                   ∧ data_retry p = 300 ∧ data_sound p = snd)
    (_do_notify_pushover self net ttl msg snd).1.
Proof.
  unfold _do_notify_pushover.
  repeat case_match; cbn [fst];
    repeat (apply Forall_cons_2; [done|]); apply Forall_nil_2.
Qed.

(** X29. The retries of a notification: a dry run calls
    [_send_pushover] not at all; otherwise at least one call and at most
    four are made, each one but the last has raised, and the last has
    returned unless all the calls allowed were made: two when the
    notifier's [_proxies] is true, four when it is [None] or empty, and
    that many calls are made when every call raises.  Every call carries
    the notifier's token and user key and the title, message and sound
    given.  The first two calls carry no key [proxies]; the calls after
    the second carry it, with the notifier's [_proxies] as value, and
    they are made only if that value is [None] or empty: with proxies
    configured the method gives up after two calls, and no call ever
    carries a usable proxy. *)
Theorem notify_posts self net ttl msg snd :
  let posts := (_do_notify_pushover self net ttl msg snd).1 in
  let limit := if truthy (_proxies self) then 2%nat else 4%nat in
  (_dry_run self = true → posts = [])
  ∧ (_dry_run self = false → (1 ≤ length posts ≤ limit)%nat)
  ∧ (length posts ≤ 4)%nat
  ∧ (∀ i : nat, (S i < length posts)%nat → net i = false)
  ∧ (∀ i : nat, length posts = S i →
       net i = true ∨ i = 3%nat
       ∨ (i = 1%nat ∧ truthy (_proxies self) = true))
  ∧ (_dry_run self = false →
     (∀ i : nat, (i < limit)%nat → net i = false) →
     length posts = limit)
  ∧ (truthy (_proxies self) = true →
       (length posts ≤ 2)%nat
       ∧ Forall (fun p => proxies p = None) posts)
  ∧ (∀ (i : nat) p, posts !! i = Some p →
       proxies p = if (i <? 2)%nat then None else Some (_proxies self))
  ∧ Forall (fun p => ∀ pr, proxies p = Some pr →
                       truthy pr = false ∧ pr = _proxies self) posts
  ∧ Forall (fun p => data_token p = _app_token self
                     ∧ data_user p = _user_key self
                     ∧ data_title p = ttl ∧ data_message p = msg
                     ∧ data_retry p = 300 ∧ data_sound p = snd) posts.
Proof.
  unfold _do_notify_pushover.
  destruct (_dry_run self) eqn:Hdry; cbn zeta.
  { cbn. repeat split; auto; try lia; try done; intros; cbn in *; lia. }
  destruct (net 0%nat) eqn:H0; [|destruct (net 1%nat) eqn:H1;
    [|destruct (truthy (_proxies self)) eqn:Hp;
      [|destruct (net 2%nat) eqn:H2; [|destruct (net 3%nat) eqn:H3]]]].
  all: cbn [fst length].
  all: split; [done|].
  all: split; [intros _; try destruct (truthy (_proxies self)); lia|].
  all: split; [lia|].
  all: split;
    [intros i Hi; cbn in Hi; destruct i as [|[|[|[|i]]]]; try done; lia|].
  all: split; [intros i [= <-]; auto|].
  all: split;
    [intros _ Hall; try destruct (truthy (_proxies self)) eqn:Hp';
     first [ done
           | by rewrite (Hall 0%nat) in H0 by lia
           | by rewrite (Hall 1%nat) in H1 by lia
           | by rewrite (Hall 2%nat) in H2 by lia
           | by rewrite (Hall 3%nat) in H3 by lia ]|].
  all: split; [first [done|intros _; split; [lia|by repeat constructor]]|].
  all: split;
    [intros i p Hi; destruct i as [|[|[|[|i]]]]; cbn in Hi;
     by simplify_eq|].
  all: split;
    [repeat (apply Forall_cons_2;
             [cbn; first [done|by intros ? [= <-]]|]); apply Forall_nil_2
    |repeat (apply Forall_cons_2; [done|]); apply Forall_nil_2].
Qed.

(** X30. One turn of the notifier's loop: an empty store gives no call and
    no record.  A store that is not empty is emptied whatever becomes of
    the calls, so that a batch none of whose calls returned is not sent
    again; every call made carries all the messages of the batch, in order
    and joined by line feeds, under a title that gives their number. *)
Theorem run_turn_batch self net store :
  let '(store', (posts, records)) := run_turn self net store in
  store' = []
  ∧ (store = [] → posts = [] ∧ records = [])
  ∧ Forall (fun p =>
      data_message p = join LF store
      ∧ data_title p =
          (if bool_decide (length store = 1%nat) then "1 Alarm Message"
           else str_int (Z.of_nat (length store)) +:+ " Alarm Messages")%string)
      posts.
Proof.
  unfold run_turn, get_all.
  destruct store as [|m store]; [by repeat split|].
  destruct (_handle_messages self net (m :: store)) as [posts records] eqn:E.
  split; [done|]. split; [done|].
  pose proof (_do_notify_pushover_data self net) as H.
  unfold _handle_messages in E.
  match type of E with
  | _do_notify_pushover _ _ ?t ?b ?s = _ => specialize (H t b s)
  end.
  rewrite E in H. cbn [fst] in H.
  eapply Forall_impl; [exact H|]. intros p (_ & _ & Ht & Hm & _).
  split; [done|]. rewrite Ht.
  case_bool_decide as Hl.
  - by rewrite Hl.
  - apply Nat.eqb_neq in Hl. by rewrite Hl.
Qed.

End PushoverProps.
